(** * Finance-Tracker: ledger aggregation and CSV interchange

    A shallow embedding of the React component [App] of the personal
    finance dashboard, in its two versions found in the repository:

    - [src/unnamed/part_000], the sign-aware ledger (income is a
      non-negative amount, an expense a negative one, CSV files may
      carry a [type] column): module [App];
    - [personal-finance-dashboard/src/App.jsx], the spend-only ledger
      (every amount is a spend, CSV import stores absolute values):
      module [SpendOnly].

    JavaScript numbers are IEEE 754 binary64 values, which is what
    Rocq's primitive [float] is.  A string is a sequence of code units
    below 256 (the Latin-1 range), modelled by [string]; on these the
    model of the string functions is exact: the white space that
    [trim] and [parseFloat] skip includes the no-break space (160), and
    [toLowerCase] maps the capital letters of both halves of the
    range. *)

From Stdlib Require Import ZArith Floats List String Ascii Bool Lia.
From Stdlib Require Import Permutation Sorted.
Import ListNotations.

Open Scope string_scope.
Open Scope list_scope.

(** ** The JavaScript runtime functions the component calls *)

Module JS.

(** *** Strings *)

(** White space and line terminators, as [String.prototype.trim] and
    [parseFloat] skip them: TAB, LF, VT, FF, CR, SPACE and NO-BREAK
    SPACE; the others lie beyond code unit 255. *)
Definition is_white (c : ascii) : bool :=
  let n := nat_of_ascii c in
  ((n =? 9) || (n =? 10) || (n =? 11) || (n =? 12) || (n =? 13) || (n =? 32)
   || (n =? 160))%nat.

Fixpoint trimStart (s : string) : string :=
  match s with
  | EmptyString => EmptyString
  | String c s' => if is_white c then trimStart s' else s
  end.

Fixpoint trimEnd (s : string) : string :=
  match s with
  | EmptyString => EmptyString
  | String c s' =>
      match trimEnd s' with
      | EmptyString => if is_white c then EmptyString else String c EmptyString
      | r => String c r
      end
  end.

(** [s.trim()] *)
Definition trim (s : string) : string := trimEnd (trimStart s).

(** The lower-case form of a code unit: [A]-[Z], and the capital
    letters 192-214 and 216-222 of the upper half, move up by 32. *)
Definition lower_char (c : ascii) : ascii :=
  let n := nat_of_ascii c in
  if ((65 <=? n) && (n <=? 90)
      || (192 <=? n) && (n <=? 222) && negb (n =? 215))%nat
  then ascii_of_nat (n + 32) else c.

(** [s.toLowerCase()] *)
Fixpoint toLowerCase (s : string) : string :=
  match s with
  | EmptyString => EmptyString
  | String c s' => String (lower_char c) (toLowerCase s')
  end.

(** [s.split(sep)] for a separator of one character: the empty string
    splits into one empty field. *)
Fixpoint split (sep : ascii) (s : string) : list string :=
  match s with
  | EmptyString => [EmptyString]
  | String c s' =>
      if Ascii.eqb c sep then EmptyString :: split sep s'
      else match split sep s' with
           | h :: t => String c h :: t
           | [] => [String c EmptyString]
           end
  end.

Definition LF : ascii := ascii_of_nat 10.
Definition CR : ascii := ascii_of_nat 13.

(** [s.split(/\r?\n/)]: a line ends at LF, and a CR that stands right
    before that LF belongs to the separator. *)
Fixpoint split_lines (s : string) : list string :=
  match s with
  | EmptyString => [EmptyString]
  | String c s' =>
      if Ascii.eqb c LF then EmptyString :: split_lines s'
      else
        match s' with
        | String d s'' =>
            if Ascii.eqb c CR && Ascii.eqb d LF
            then EmptyString :: split_lines s''
            else match split_lines s' with
                 | h :: t => String c h :: t
                 | [] => [String c EmptyString]
                 end
        | EmptyString => [String c EmptyString]
        end
  end.

(** Truthiness of a string: only the empty string is falsy. *)
Definition truthy_str (s : string) : bool :=
  match s with EmptyString => false | _ => true end.

(** [lines.filter(Boolean)] *)
Definition filter_Boolean (l : list string) : list string :=
  filter truthy_str l.

(** [arr.includes(x)] on an array of strings *)
Definition includes (l : list string) (x : string) : bool :=
  existsb (String.eqb x) l.

(** [arr.indexOf(x)]: the first position of [x], or [-1]. *)
Fixpoint indexOf (l : list string) (x : string) : Z :=
  match l with
  | [] => (-1)%Z
  | y :: l' =>
      if String.eqb y x then 0%Z
      else let i := indexOf l' x in
           if (i <? 0)%Z then (-1)%Z else (i + 1)%Z
  end.

(** [arr[i]]: [undefined] (here [None]) outside the array. *)
Definition get {A : Type} (l : list A) (i : Z) : option A :=
  if (i <? 0)%Z then None else nth_error l (Z.to_nat i).

(** [v || d] for a string or [undefined] on the left. *)
Definition or_str (v : option string) (d : string) : string :=
  match v with
  | Some s => if truthy_str s then s else d
  | None => d
  end.

(** [s.slice(0, n)] *)
Fixpoint slice0 (n : nat) (s : string) : string :=
  match n, s with
  | S n', String c s' => String c (slice0 n' s')
  | _, _ => EmptyString
  end.

(** [s.startsWith(p)] *)
Definition startsWith (p s : string) : bool := String.prefix p s.

(** [arr.join(sep)] *)
Definition join (sep : string) (l : list string) : string :=
  String.concat sep l.

(** [s.replaceAll(c, r)] for a pattern of one character *)
Fixpoint replaceAll (c : ascii) (r : string) (s : string) : string :=
  match s with
  | EmptyString => EmptyString
  | String d s' =>
      if Ascii.eqb d c then (r ++ replaceAll c r s')%string
      else String d (replaceAll c r s')
  end.

(** [/[cs]/.test(s)]: some character of [s] is one of [cs]. *)
Fixpoint test_class (cs : list ascii) (s : string) : bool :=
  match s with
  | EmptyString => false
  | String d s' => existsb (Ascii.eqb d) cs || test_class cs s'
  end.

(** *** Numbers *)

Open Scope float_scope.

Definition isNaN (x : float) : bool := negb (x =? x).

(** Truthiness of a number: [0], [-0] and [NaN] are falsy. *)
Definition truthy_num (x : float) : bool := negb (x =? 0) && (x =? x).

(** [x || d] for numbers *)
Definition or_num (x d : float) : float := if truthy_num x then x else d.

(** [Math.abs] *)
Definition Math_abs (x : float) : float := abs x.

Definition is_neg_zero (x : float) : bool :=
  match Prim2SF x with S754_zero true => true | _ => false end.

(** [Math.min(x, y)]: [NaN] if either is, and [-0] is below [+0]. *)
Definition Math_min (x y : float) : float :=
  if isNaN x then x
  else if isNaN y then y
  else if x <? y then x
  else if y <? x then y
  else if is_neg_zero x then x else y.

(** [Math.max(x, y)] *)
Definition Math_max (x y : float) : float :=
  if isNaN x then x
  else if isNaN y then y
  else if x <? y then y
  else if y <? x then x
  else if is_neg_zero x then y else x.

(** [Math.round(x)]: the integer nearest to [x], a tie going up;
    the sign of a zero result is that of [x]. *)
Definition Math_round (x : float) : float :=
  match Prim2SF x with
  | S754_finite s m e =>
      if (0 <=? e)%Z then x
      else
        let num := cond_Zopp s (Zpos m) in
        let r := ((2 * num + 2 ^ (- e)) / 2 ^ (1 - e))%Z in
        if (r =? 0)%Z then (if s then (-0) else 0)
        else SF2Prim (binary_normalize prec emax r 0 false)
  | _ => x
  end.

(** The double nearest to [D * 10^E] (ties to even), for [0 <= D],
    negated when [neg]. *)
Definition dec2float (neg : bool) (D E : Z) : float :=
  let sf :=
    match D with
    | Z0 => S754_zero false
    | Zpos d =>
        if (0 <=? E)%Z then binary_normalize prec emax (D * 10 ^ E) 0 false
        else SFdiv prec emax (S754_finite false d 0)
                   (S754_finite false (Z.to_pos (10 ^ (- E))) 0)
    | Zneg _ => S754_nan
    end in
  SF2Prim (if neg then SFopp sf else sf).

Definition is_digit (c : ascii) : bool :=
  let n := nat_of_ascii c in ((48 <=? n) && (n <=? 57))%nat.

Definition digit_val (c : ascii) : Z := Z.of_nat (nat_of_ascii c - 48).

(** Reads the longest run of decimal digits at the head of [s]:
    the value accumulated from [acc], the number of digits read and
    the rest of the string. *)
Fixpoint read_digits (s : string) (acc : Z) (cnt : Z) : Z * Z * string :=
  match s with
  | String c s' =>
      if is_digit c then read_digits s' (acc * 10 + digit_val c)%Z (cnt + 1)%Z
      else (acc, cnt, s)
  | EmptyString => (acc, cnt, s)
  end.

(** The exponent part [e], [e+], [e-] followed by digits, when the
    string starts with one; [0] otherwise. *)
Definition read_exponent (s : string) : Z :=
  match s with
  | String c s' =>
      if Ascii.eqb c "e" || Ascii.eqb c "E" then
        let '(neg, s'') :=
          match s' with
          | String d t =>
              if Ascii.eqb d "-" then (true, t)
              else if Ascii.eqb d "+" then (false, t)
              else (false, s')
          | EmptyString => (false, s')
          end in
        let '(v, cnt, _) := read_digits s'' 0%Z 0%Z in
        if (cnt =? 0)%Z then 0%Z else if neg then (- v)%Z else v
      else 0%Z
  | EmptyString => 0%Z
  end.

(** The unsigned part of a [StrDecimalLiteral] at the head of [s]. *)
Definition parse_unsigned (neg : bool) (s : string) : float :=
  if String.prefix "Infinity" s then (if neg then neg_infinity else infinity)
  else
    let '(ip, icnt, r1) := read_digits s 0%Z 0%Z in
    let '(m, fcnt, r2) :=
      match r1 with
      | String c r =>
          if Ascii.eqb c "." then read_digits r ip 0%Z else (ip, 0%Z, r1)
      | EmptyString => (ip, 0%Z, r1)
      end in
    if ((icnt =? 0) && (fcnt =? 0))%Z then nan
    else dec2float neg m (read_exponent r2 - fcnt)%Z.

(** [parseFloat(s)]: leading white space is skipped, the longest
    prefix that is a decimal literal is read, [NaN] if there is none. *)
Definition parseFloat (s : string) : float :=
  match trimStart s with
  | String c r =>
      if Ascii.eqb c "-" then parse_unsigned true r
      else if Ascii.eqb c "+" then parse_unsigned false r
      else parse_unsigned false (String c r)
  | EmptyString => nan
  end.

(** *** [Number::toString], the text of a number in [join] *)

Definition digit_char (d : Z) : ascii := ascii_of_nat (48 + Z.to_nat d).

Fixpoint digits_of (fuel : nat) (n : Z) (acc : string) : string :=
  match fuel with
  | O => acc
  | S f =>
      let acc' := String (digit_char (n mod 10)) acc in
      if (n <? 10)%Z then acc' else digits_of f (n / 10) acc'
  end.

(** The decimal digits of [n], for [0 <= n]. *)
Definition Z_to_string (n : Z) : string :=
  digits_of (S (Z.to_nat (Z.log2 n))) n EmptyString.

Fixpoint zeros (n : nat) : string :=
  match n with O => EmptyString | S n' => String "0" (zeros n') end.

(** [num / den >= 10^j] *)
Definition ge_pow10 (num den j : Z) : bool :=
  (den * 10 ^ Z.max j 0 <=? num * 10 ^ Z.max (- j) 0)%Z.

(** The [n] with [10^(n-1) <= num/den < 10^n], searched downwards
    from [j]. *)
Fixpoint dec_exponent (fuel : nat) (num den j : Z) : Z :=
  match fuel with
  | O => j
  | S f =>
      if ge_pow10 num den (j - 1) then j
      else dec_exponent f num den (j - 1)
  end.

(** The integer [s] of [k] digits nearest to [x = num/den] scaled by
    [10^(k-n)] for which [s * 10^(n-k)] reads back as [x], if there is
    one; a neighbour of [x] that reaches [10^k] is [10^(k-1)] at the
    next exponent. *)
Definition candidate (x : float) (num den n k : Z) : option (Z * Z) :=
  let sn := (num * 10 ^ Z.max (k - n) 0)%Z in
  let sd := (den * 10 ^ Z.max (n - k) 0)%Z in
  let lo := (sn / sd)%Z in
  let r := (sn mod sd)%Z in
  let hi := (lo + 1)%Z in
  let ok (s : Z) := (dec2float false s (n - k) =? x)%float in
  let pick (s : Z) :=
    if (s =? 10 ^ k)%Z then ((10 ^ (k - 1))%Z, (n + 1)%Z) else (s, n) in
  if (r =? 0)%Z then (if ok lo then Some (lo, n) else None)
  else if ((2 * r <? sd) || ((2 * r =? sd) && Z.even lo))%Z then
    if ok lo then Some (pick lo)
    else if ok hi then Some (pick hi) else None
  else
    if ok hi then Some (pick hi)
    else if ok lo then Some (pick lo) else None.

(** The least number of digits [k], from [k] on, with a candidate;
    seventeen digits always do. *)
Fixpoint shortest (fuel : nat) (x : float) (num den n k : Z) : Z * Z * Z :=
  match fuel with
  | O => (((num * 10 ^ Z.max (k - n) 0) / (den * 10 ^ Z.max (n - k) 0))%Z, n, k)
  | S f =>
      match candidate x num den n k with
      | Some (s, n') => (s, n', k)
      | None => shortest f x num den n (k + 1)
      end
  end.

(** The text of the positive finite number with digits [s] ([k] of
    them) and decimal exponent [n]. *)
Definition format_decimal (s n k : Z) : string :=
  let ds := Z_to_string s in
  if ((k <=? n) && (n <=? 21))%Z then (ds ++ zeros (Z.to_nat (n - k)))%string
  else if ((0 <? n) && (n <=? 21))%Z then
    (slice0 (Z.to_nat n) ds ++ "." ++
     String.substring (Z.to_nat n) (Z.to_nat (k - n)) ds)%string
  else if ((-6 <? n) && (n <=? 0))%Z then
    ("0." ++ zeros (Z.to_nat (- n)) ++ ds)%string
  else
    let e := (n - 1)%Z in
    let es :=
      ((if (e <? 0)%Z then "-" else "+") ++ Z_to_string (Z.abs e))%string in
    if (k =? 1)%Z then (ds ++ "e" ++ es)%string
    else (slice0 1 ds ++ "." ++
          String.substring 1 (Z.to_nat (k - 1)) ds ++ "e" ++ es)%string.

(** [String(x)] for a number [x] *)
Definition Number_toString (x : float) : string :=
  match Prim2SF x with
  | S754_nan => "NaN"
  | S754_zero _ => "0"
  | S754_infinity s => if s then "-Infinity" else "Infinity"
  | S754_finite sg m e =>
      let num := (Zpos m * 2 ^ Z.max e 0)%Z in
      let den := (2 ^ Z.max (- e) 0)%Z in
      let n := dec_exponent 640 num den 310 in
      let '(s, n', k) := shortest 17 (abs x) num den n 1 in
      ((if sg then "-" else EmptyString) ++ format_decimal s n' k)%string
  end.

Close Scope float_scope.

End JS.

(** ** The data model *)

(** A transaction as the component stores it. *)
Record Transaction : Type := mkTransaction {
  id : string;
  date : string;
  description : string;
  amount : float;
  category : string
}.

(** What a caller hands to [addTransaction]: the fields without the
    identifier. *)
Record TxFields : Type := mkTxFields {
  tx_date : string;
  tx_description : string;
  tx_amount : float;
  tx_category : string
}.

(** A savings goal. *)
Record Goal : Type := mkGoal {
  goal_id : string;
  name : string;
  target : float;
  current : float;
  due : string
}.

Record GoalFields : Type := mkGoalFields {
  g_name : string;
  g_target : float;
  g_current : float;
  g_due : string
}.

(** The state of the component: the three persisted collections and
    the two filters. *)
Record State : Type := mkState {
  transactions : list Transaction;
  goals : list Goal;
  categories : list string;
  filterMonth : string;
  filterCategory : string
}.

(** A [Map] with string keys keeps its entries in insertion order, and
    [set] on a key that is present replaces the value in place. *)
Module StrMap.

Definition t (V : Type) : Type := list (string * V).

Fixpoint get {V : Type} (m : t V) (k : string) : option V :=
  match m with
  | [] => None
  | (k', v) :: m' => if String.eqb k' k then Some v else get m' k
  end.

Fixpoint set {V : Type} (m : t V) (k : string) (v : V) : t V :=
  match m with
  | [] => [(k, v)]
  | (k', v') :: m' =>
      if String.eqb k' k then (k', v) :: m' else (k', v') :: set m' k v
  end.

End StrMap.

(** [arr.sort(cmp)]: the sort is stable, and with a comparator that is
    a total preorder its result is the one of this insertion sort. *)
Section Sort.

Context {A : Type} (cmp : A -> A -> comparison).

Fixpoint sort_insert (x : A) (l : list A) : list A :=
  match l with
  | [] => [x]
  | y :: l' =>
      match cmp x y with
      | Gt => y :: sort_insert x l'
      | _ => x :: l
      end
  end.

Fixpoint sort (l : list A) : list A :=
  match l with
  | [] => []
  | x :: l' => sort_insert x (sort l')
  end.

End Sort.

(** [arr.map(f)] where [f] draws one identifier per element: the
    element at position [i] receives [uuids i]. *)
Fixpoint map_with_uuid {A B : Type} (uuids : nat -> string)
    (f : string -> A -> B) (i : nat) (l : list A) : list B :=
  match l with
  | [] => []
  | x :: l' => f (uuids i) x :: map_with_uuid uuids f (S i) l'
  end.

(** ** What the two versions of the component share *)

Definition DQUOTE : ascii := ascii_of_nat 34.

(** [cleanCSV(s)]: a field with a double quote, a comma or a line feed
    is wrapped in double quotes, its own double quotes doubled. *)
Definition cleanCSV (s : string) : string :=
  let needsQuotes := JS.test_class [DQUOTE; ","%char; JS.LF] s in
  let escaped :=
    JS.replaceAll DQUOTE (String DQUOTE (String DQUOTE EmptyString)) s in
  if needsQuotes then String DQUOTE (escaped ++ String DQUOTE EmptyString)%string
  else escaped.

(** [(g.current || 0) / (g.target || 1)] as a percentage: the width of
    a goal's progress bar. *)
Definition pct (g : Goal) : float :=
  JS.Math_min 100
    (JS.Math_round ((JS.or_num (current g) 0 / JS.or_num (target g) 1) * 100)%float).

(** [monthlyBudgetTarget] *)
Definition monthlyBudgetTarget (gs : list Goal) : float :=
  fold_left (fun s g => (s + JS.or_num (target g) 0 / 12)%float) gs 0%float.

(** [filteredTx] *)
Definition filteredTx (st : State) : list Transaction :=
  filter (fun t =>
            let ym := JS.slice0 7 (date t) in
            let monthOK := negb (JS.truthy_str (filterMonth st))
                           || String.eqb ym (filterMonth st) in
            let catOK := String.eqb (filterCategory st) "All"
                         || String.eqb (category t) (filterCategory st) in
            monthOK && catOK)
         (transactions st).

(** ** The sign-aware ledger ([src/unnamed/part_000]) *)

Module App.

Definition DEFAULT_CATEGORIES : list string :=
  ["Groceries"; "Dining Out"; "Rent/Mortgage"; "Utilities"; "Transportation";
   "Health & Fitness"; "Entertainment"; "Shopping"; "Travel"; "Other"; "Income"].

(** One bar of the monthly trend. *)
Record MonthEntry : Type := mkMonthEntry {
  ym : string;
  income : float;
  expenses : float
}.

Record Totals : Type := mkTotals {
  t_income : float;
  t_expenses : float;
  t_net : float;
  byCat : list (string * float);
  byMonth : list MonthEntry
}.

(** The loop that fills [byCatMap]: expenses only, absolute values. *)
Definition byCat_step (m : StrMap.t float) (t : Transaction) : StrMap.t float :=
  if (amount t <? 0)%float then
    let key := JS.or_str (Some (category t)) "Uncategorized" in
    let old := match StrMap.get m key with
               | Some v => JS.or_num v 0
               | None => 0%float
               end in
    StrMap.set m key (old + JS.Math_abs (amount t))%float
  else m.

Definition byCatMap (txs : list Transaction) : StrMap.t float :=
  fold_left byCat_step txs [].

(** The loop that fills [byMonthMap]. *)
Definition byMonth_step (m : StrMap.t MonthEntry) (t : Transaction)
  : StrMap.t MonthEntry :=
  let k := JS.slice0 7 (date t) in
  if negb (JS.truthy_str k) then m
  else
    let entry := match StrMap.get m k with
                 | Some e => e
                 | None => mkMonthEntry k 0 0
                 end in
    let entry' :=
      if (0 <=? amount t)%float
      then mkMonthEntry (ym entry) (income entry + amount t)%float (expenses entry)
      else mkMonthEntry (ym entry) (income entry)
                        (expenses entry + JS.Math_abs (amount t))%float in
    StrMap.set m k entry'.

Definition byMonthMap (txs : list Transaction) : StrMap.t MonthEntry :=
  fold_left byMonth_step txs [].

Section Totals.

(** [a.localeCompare(b)], the collation of the host's locale. *)
Variable localeCompare : string -> string -> comparison.

(** [totals] *)
Definition totals (st : State) : Totals :=
  let ftx := filteredTx st in
  let inc := fold_left (fun s t => (s + amount t)%float)
               (filter (fun t => (0 <? amount t)%float) ftx) 0%float in
  let exps := fold_left (fun s t => (s + JS.Math_abs (amount t))%float)
               (filter (fun t => (amount t <? 0)%float) ftx) 0%float in
  {| t_income := inc;
     t_expenses := exps;
     t_net := (inc - exps)%float;
     byCat := byCatMap ftx;
     byMonth := sort (fun a b => localeCompare (ym a) (ym b))
                     (map snd (byMonthMap (transactions st))) |}.

End Totals.

Definition set_transactions (st : State) (txs : list Transaction) : State :=
  {| transactions := txs; goals := goals st; categories := categories st;
     filterMonth := filterMonth st; filterCategory := filterCategory st |}.

Definition set_goals (st : State) (gs : list Goal) : State :=
  {| transactions := transactions st; goals := gs; categories := categories st;
     filterMonth := filterMonth st; filterCategory := filterCategory st |}.

Definition set_categories (st : State) (cs : list string) : State :=
  {| transactions := transactions st; goals := goals st; categories := cs;
     filterMonth := filterMonth st; filterCategory := filterCategory st |}.

(** [setFilterMonth(m)] and [setFilterCategory(c)] *)
Definition setFilterMonth (m : string) (st : State) : State :=
  {| transactions := transactions st; goals := goals st;
     categories := categories st;
     filterMonth := m; filterCategory := filterCategory st |}.

Definition setFilterCategory (c : string) (st : State) : State :=
  {| transactions := transactions st; goals := goals st;
     categories := categories st;
     filterMonth := filterMonth st; filterCategory := c |}.

(** [addTransaction(tx)]; [uuid] is what [crypto.randomUUID()] returns. *)
Definition addTransaction (uuid : string) (tx : TxFields) (st : State) : State :=
  set_transactions st
    (mkTransaction uuid (tx_date tx) (tx_description tx) (tx_amount tx)
                   (tx_category tx) :: transactions st).

(** [removeTransaction(id)] *)
Definition removeTransaction (i : string) (st : State) : State :=
  set_transactions st
    (filter (fun t => negb (String.eqb (id t) i)) (transactions st)).

Definition addGoal (uuid : string) (g : GoalFields) (st : State) : State :=
  set_goals st
    (mkGoal uuid (g_name g) (g_target g) (g_current g) (g_due g) :: goals st).

Definition removeGoal (i : string) (st : State) : State :=
  set_goals st (filter (fun g => negb (String.eqb (goal_id g) i)) (goals st)).

(** [addCategory(name)] *)
Definition addCategory (nm : string) (st : State) : State :=
  let trimmed := JS.trim nm in
  if negb (JS.truthy_str trimmed) then st
  else if negb (JS.includes (categories st) trimmed)
       then set_categories st (categories st ++ [trimmed])
       else st.

(** [resetAll()]; [confirmed] is the answer to the confirmation box. *)
Definition resetAll (confirmed : bool) (st : State) : State :=
  if confirmed then
    {| transactions := []; goals := []; categories := DEFAULT_CATEGORIES;
       filterMonth := filterMonth st; filterCategory := filterCategory st |}
  else st.

(** The names of the header line: [lines[0].toLowerCase().split(",")],
    each trimmed. *)
Definition header_cols (line : string) : list string :=
  map JS.trim (JS.split "," (JS.toLowerCase line)).

Definition hasHeader (cols : list string) : bool :=
  forallb (JS.includes cols) ["date"; "description"; "amount"; "category"].

Definition hasType (cols : list string) : bool :=
  hasHeader cols && negb (JS.indexOf cols "type" =? -1)%Z.

(** The text of the amount field of a line, ["0"] when it is absent. *)
Definition amtStr (cols : list string) (line : string) : string :=
  let parts := map JS.trim (JS.split "," line) in
  JS.or_str (JS.get parts (if hasHeader cols then JS.indexOf cols "amount" else 2%Z)) "0".

(** The lower-cased type field of a line. *)
Definition typeRaw (cols : list string) (line : string) : string :=
  let parts := map JS.trim (JS.split "," line) in
  if hasType cols
  then JS.toLowerCase (JS.or_str (JS.get parts (JS.indexOf cols "type")) EmptyString)
  else EmptyString.

(** The body of [rows.map((line) => ...)]. *)
Definition parse_row (cols : list string) (uuid : string) (line : string)
  : Transaction :=
  let parts := map JS.trim (JS.split "," line) in
  let idx := JS.indexOf cols in
  let hh := hasHeader cols in
  let dt := JS.or_str (JS.get parts (if hh then idx "date" else 0%Z)) EmptyString in
  let descr := JS.or_str (JS.get parts (if hh then idx "description" else 1%Z)) EmptyString in
  let amtS := JS.or_str (JS.get parts (if hh then idx "amount" else 2%Z)) "0" in
  let cat := JS.or_str (JS.get parts (if hh then idx "category" else 3%Z)) "Other" in
  let tyRaw := if hasType cols
               then JS.toLowerCase (JS.or_str (JS.get parts (idx "type")) EmptyString)
               else EmptyString in
  let amt := JS.or_num (JS.parseFloat amtS) 0 in
  let amnt :=
    if hasType cols then
      if JS.startsWith "exp" tyRaw then (- JS.Math_abs amt)%float
      else JS.Math_abs amt
    else amt in
  mkTransaction uuid (JS.slice0 10 dt) descr amnt cat.

(** The array [parsed] of [importCSV(text)]; [uuids i] is the
    identifier drawn for the row at position [i]. *)
Definition parseCSV (uuids : nat -> string) (text : string) : list Transaction :=
  let lines := JS.filter_Boolean (JS.split_lines text) in
  match lines with
  | [] => []
  | first :: rest =>
      let cols := header_cols first in
      let rows := if hasHeader cols then rest else lines in
      map_with_uuid uuids (parse_row cols) 0 rows
  end.

(** [importCSV(text)] *)
Definition importCSV (uuids : nat -> string) (text : string) (st : State) : State :=
  match JS.filter_Boolean (JS.split_lines text) with
  | [] => st
  | _ => set_transactions st (parseCSV uuids text ++ transactions st)
  end.

(** One line of the exported file. *)
Definition export_row (t : Transaction) : string :=
  let type := if (amount t <? 0)%float then "expense" else "income" in
  JS.join "," [date t; cleanCSV (description t); JS.Number_toString (amount t);
               cleanCSV (category t); type].

(** The text that [exportCSV()] puts in the downloaded file. *)
Definition exportCSV (txs : list Transaction) : string :=
  ("date,description,amount,category,type" ++ String JS.LF EmptyString
   ++ JS.join (String JS.LF EmptyString) (map export_row txs))%string.

(** The calls that change the state of the component. *)
Inductive Action : Type :=
| AddTransaction (uuid : string) (tx : TxFields)
| RemoveTransaction (i : string)
| AddGoal (uuid : string) (g : GoalFields)
| RemoveGoal (i : string)
| AddCategory (nm : string)
| ImportCSV (uuids : nat -> string) (text : string)
| ResetAll (confirmed : bool)
| SetFilterMonth (m : string)
| SetFilterCategory (c : string).

Definition step (st : State) (a : Action) : State :=
  match a with
  | AddTransaction uuid tx => addTransaction uuid tx st
  | RemoveTransaction i => removeTransaction i st
  | AddGoal uuid g => addGoal uuid g st
  | RemoveGoal i => removeGoal i st
  | AddCategory nm => addCategory nm st
  | ImportCSV uuids text => importCSV uuids text st
  | ResetAll confirmed => resetAll confirmed st
  | SetFilterMonth m => setFilterMonth m st
  | SetFilterCategory c => setFilterCategory c st
  end.

Definition run (st : State) (l : list Action) : State := fold_left step l st.

(** The state of a fresh ledger, nothing being stored yet. *)
Definition initial (month : string) : State :=
  mkState [] [] DEFAULT_CATEGORIES month "All".

End App.

(** ** The spend-only ledger ([personal-finance-dashboard/src/App.jsx]) *)

Module SpendOnly.

Definition DEFAULT_CATEGORIES : list string :=
  ["Groceries"; "Dining Out"; "Rent/Mortgage"; "Utilities"; "Transportation";
   "Health & Fitness"; "Entertainment"; "Shopping"; "Travel"; "Other"].

(** [s.includes(p)] on strings: [p] occurs in [s]. *)
Fixpoint str_includes (p s : string) : bool :=
  String.prefix p s ||
  match s with
  | EmptyString => false
  | String _ s' => str_includes p s'
  end.

Definition hasHeader (first : string) : bool :=
  let header := JS.toLowerCase first in
  forallb (fun h => str_includes h header)
          ["date"; "description"; "amount"; "category"].

(** The body of [rows.map((line) => ...)]: the four fields by
    position, the amount as an absolute value. *)
Definition parse_row (uuid : string) (line : string) : Transaction :=
  let parts := map JS.trim (JS.split "," line) in
  mkTransaction uuid
    (JS.slice0 10 (JS.or_str (JS.get parts 0%Z) EmptyString))
    (JS.or_str (JS.get parts 1%Z) EmptyString)
    (JS.or_num (JS.Math_abs (JS.parseFloat (JS.or_str (JS.get parts 2%Z) "0"))) 0)
    (JS.or_str (JS.get parts 3%Z) "Other").

Definition parseCSV (uuids : nat -> string) (text : string) : list Transaction :=
  let lines := JS.filter_Boolean (JS.split_lines text) in
  match lines with
  | [] => []
  | first :: rest =>
      let rows := if hasHeader first then rest else lines in
      map_with_uuid uuids parse_row 0 rows
  end.

(** [importCSV(text)] *)
Definition importCSV (uuids : nat -> string) (text : string) (st : State) : State :=
  match JS.filter_Boolean (JS.split_lines text) with
  | [] => st
  | _ => App.set_transactions st (parseCSV uuids text ++ transactions st)
  end.

(** The loop that fills [byCatMap]: every transaction of the filtered
    set counts, with its amount as it is. *)
Definition byCat_step (m : StrMap.t float) (t : Transaction) : StrMap.t float :=
  let key := JS.or_str (Some (category t)) "Uncategorized" in
  let old := match StrMap.get m key with
             | Some v => JS.or_num v 0
             | None => 0%float
             end in
  StrMap.set m key (old + JS.or_num (amount t) 0)%float.

(** [totals.byCat] *)
Definition byCat (st : State) : list (string * float) :=
  fold_left byCat_step (filteredTx st) [].

End SpendOnly.


(** ** The entry forms of the sign-aware ledger

    [TransactionForm] and [GoalForm] hold the text of their input
    fields and call [addTransaction], [addCategory] and [addGoal]. *)

Module Form.

(** The state of [TransactionForm]. *)
Record TxForm : Type := mkTxForm {
  form_date : string;
  form_description : string;
  form_amount : string;
  form_category : string;
  form_newCategory : string;
  form_type : string
}.

(** The state of [GoalForm]. *)
Record GoalForm : Type := mkGoalForm {
  form_name : string;
  form_target : string;
  form_current : string;
  form_due : string
}.

(** The category a form starts with: [categories[0] || "Other"]. *)
Definition first_category (cats : list string) : string :=
  JS.or_str (JS.get cats 0%Z) "Other".

(** The effect that runs when the registry changes: a chosen category
    that the registry does not have is replaced. *)
Definition sync_category (cats : list string) (fs : TxForm) : TxForm :=
  if negb (JS.includes cats (form_category fs))
  then {| form_date := form_date fs; form_description := form_description fs;
          form_amount := form_amount fs; form_category := first_category cats;
          form_newCategory := form_newCategory fs; form_type := form_type fs |}
  else fs.

(** [addCat()]: registers the new category and selects it. *)
Definition addCat (fs : TxForm) (st : State) : State * TxForm :=
  if JS.truthy_str (JS.trim (form_newCategory fs)) then
    (App.addCategory (form_newCategory fs) st,
     {| form_date := form_date fs; form_description := form_description fs;
        form_amount := form_amount fs;
        form_category := JS.trim (form_newCategory fs);
        form_newCategory := EmptyString; form_type := form_type fs |})
  else (st, fs).

Section Submit.

(** [Number(s)], the number that the text of an input field stands for. *)
Variable Number : string -> float.

(** [submit] of [TransactionForm]; the state is returned unchanged when
    the form alerts instead. *)
Definition submit (uuid : string) (fs : TxForm) (st : State) : State * TxForm :=
  let amt := Number (form_amount fs) in
  if negb (JS.truthy_num amt) || (amt <=? 0)%float then (st, fs)
  else
    let signed := if String.eqb (form_type fs) "expense"
                  then (- JS.Math_abs amt)%float else JS.Math_abs amt in
    (App.addTransaction uuid
       (mkTxFields (form_date fs) (form_description fs) signed (form_category fs)) st,
     {| form_date := form_date fs; form_description := EmptyString;
        form_amount := EmptyString; form_category := form_category fs;
        form_newCategory := form_newCategory fs; form_type := "expense" |}).

(** [submit] of [GoalForm]: [Number(current || 0)] is [0] for a blank
    field. *)
Definition submit_goal (uuid : string) (gf : GoalForm) (st : State)
  : State * GoalForm :=
  if negb (JS.truthy_str (form_name gf)) || negb (JS.truthy_str (form_target gf))
  then (st, gf)
  else
    (App.addGoal uuid
       (mkGoalFields (form_name gf) (Number (form_target gf))
          (if JS.truthy_str (form_current gf) then Number (form_current gf)
           else 0%float)
          (form_due gf)) st,
     mkGoalForm EmptyString EmptyString EmptyString EmptyString).

End Submit.

End Form.

(** ** The category breakdown as the specification words it

    The sum of the absolute amounts of the expenses of the filtered
    set, grouped by category, one entry per category in the order in
    which the categories are first met. *)

Definition cat_key (t : Transaction) : string :=
  JS.or_str (Some (category t)) "Uncategorized".

Definition is_expense (t : Transaction) : bool := (amount t <? 0)%float.

(** The distinct elements of a list, in the order of their first
    occurrences. *)
Definition first_seen (ks : list string) : list string :=
  fold_left (fun acc k => if JS.includes acc k then acc else acc ++ [k]) ks [].

Definition sum_abs (txs : list Transaction) : float :=
  fold_left (fun s t => (s + JS.Math_abs (amount t))%float) txs 0%float.

Definition breakdown_spec (ftx : list Transaction) : list (string * float) :=
  let exps := filter is_expense ftx in
  map (fun k => (k, sum_abs (filter (fun t => String.eqb (cat_key t) k) exps)))
      (first_seen (map cat_key exps)).

(** ** Goal progress as the specification words it *)

(** [min(100, round(current / max(target, 1) * 100))] *)
Definition pct_spec (g : Goal) : float :=
  JS.Math_min 100
    (JS.Math_round ((current g / JS.Math_max (target g) 1) * 100)%float).

(** The same with the divisor the component uses: the target itself
    unless it is zero, and [1] then. *)
Definition pct_rule (g : Goal) : float :=
  JS.Math_min 100
    (JS.Math_round
       ((current g / (if (target g =? 0)%float then 1 else target g)) * 100)%float).

(** Two numbers are the same value when they are equal as numbers
    (the two zeros are) or both are [NaN]. *)
Definition same_number (x y : float) : bool :=
  (x =? y)%float || (JS.isNaN x && JS.isNaN y).

(** ** The implied monthly target as the specification words it *)

Definition sum_targets (gs : list Goal) : float :=
  fold_left (fun s g => (s + target g)%float) gs 0%float.

(** [sum(target) / 12] *)
Definition monthly_target_spec (gs : list Goal) : float :=
  (sum_targets gs / 12)%float.

(** ** The category invariant of the data model *)

(** A category is acceptable in a state when the registry has it or it
    is one of the two default names. *)
Definition category_ok (st : State) (c : string) : Prop :=
  In c (categories st) \/ c = "Other" \/ c = "Uncategorized".

(** Every transaction has an acceptable category. *)
Definition categories_registered (st : State) : Prop :=
  forall t, In t (transactions st) -> category_ok st (category t).

(** A call that keeps to the registry: no CSV import, and a new
    transaction only with an acceptable category, as the transaction
    form submits it. *)
Definition keeps_registry (st : State) (a : App.Action) : Prop :=
  match a with
  | App.ImportCSV _ _ => False
  | App.AddTransaction _ tx => category_ok st (tx_category tx)
  | _ => True
  end.

Inductive all_keep_registry : State -> list App.Action -> Prop :=
| akr_nil (st : State) : all_keep_registry st []
| akr_cons (st : State) (a : App.Action) (l : list App.Action) :
    keeps_registry st a ->
    all_keep_registry (App.step st a) l ->
    all_keep_registry st (a :: l).

(** ** Transactions that survive a CSV round trip *)

(** A text field that the export writes as it is and the import reads
    back as it is: no double quote, comma or line feed in it, and no
    white space at either end. *)
Definition field_safe (s : string) : Prop :=
  JS.test_class [DQUOTE; ","%char; JS.LF] s = false /\ JS.trim s = s.

(** The date is written without [cleanCSV]: a double quote in it does
    no harm, a comma or a line feed does. *)
Definition date_safe (s : string) : Prop :=
  JS.test_class [","%char; JS.LF] s = false /\ JS.trim s = s.

(** A transaction of the safe subset: a safe description and category,
    a safe date of at most ten characters, a category that is not
    empty, and an amount that its own decimal text reads back to
    ([parseFloat(String(a)) === a], which excludes [NaN]). *)
Definition csv_safe (t : Transaction) : Prop :=
  date_safe (date t) /\ JS.slice0 10 (date t) = date t /\
  field_safe (description t) /\
  field_safe (category t) /\ category t <> EmptyString /\
  (JS.parseFloat (JS.Number_toString (amount t)) =? amount t)%float = true.

(** ** Auxiliary notions of the proofs *)

(** The characters of a zero-padded year-month [YYYY-MM]: digits and
    the hyphen. *)
Definition ym_char (c : ascii) : bool := JS.is_digit c || Ascii.eqb c "-".

(** Every entry of the month map sits under its own, non-empty, year-month. *)
Definition month_keyed (m : StrMap.t App.MonthEntry) : Prop :=
  forall k e, In (k, e) m -> k <> EmptyString /\ App.ym e = k.

(** A zero of either sign, as a specification float. *)
Definition is_zero_sf (x : spec_float) : bool :=
  match x with S754_zero _ => true | _ => false end.

(** Occurrence of a character in a string, and a test on all its
    characters. *)
Fixpoint mem_char (c : ascii) (s : string) : bool :=
  match s with
  | EmptyString => false
  | String d s' => Ascii.eqb d c || mem_char c s'
  end.

Fixpoint all_chars (P : ascii -> bool) (s : string) : bool :=
  match s with
  | EmptyString => true
  | String d s' => P d && all_chars P s'
  end.

(** The last character is a carriage return. *)
Fixpoint ends_with_CR (s : string) : bool :=
  match s with
  | EmptyString => false
  | String c EmptyString => Ascii.eqb c JS.CR
  | String _ s' => ends_with_CR s'
  end.

(** A line that the split into lines gives back: no line feed in it,
    no carriage return at its end, and not empty. *)
Definition line_ok (a : string) : Prop :=
  mem_char JS.LF a = false /\ ends_with_CR a = false /\ a <> EmptyString.

(** The characters of the text of a number. *)
Definition num_char (c : ascii) : bool :=
  JS.is_digit c ||
  existsb (Ascii.eqb c)
    ["."; "e"; "+"; "-"; "I"; "n"; "f"; "i"; "t"; "y"; "N"; "a"]%char.

(** The header line of the export and its column names. *)
Definition cols5 : list string :=
  ["date"; "description"; "amount"; "category"; "type"].

Definition header5 : string := "date,description,amount,category,type".

(** The derived [type] column of the export. *)
Definition type_of (a : float) : string :=
  if (a <? 0)%float then "expense" else "income".

(** ** Sample data *)

Definition sample_txs : list Transaction :=
  [mkTransaction "t2" "2024-01-06" "Rent" (-1200) "Rent/Mortgage";
   mkTransaction "t1" "2024-01-05" "Paycheck" 1500 "Income"].

Definition sample_state : State :=
  mkState sample_txs [] App.DEFAULT_CATEGORIES "2024-01" "All".

Definition sample_state_other_filter : State :=
  mkState sample_txs [] App.DEFAULT_CATEGORIES "2023-12" "Groceries".

Definition sample_uuids (i : nat) : string :=
  ("uuid-" ++ String (ascii_of_nat (48 + i)) EmptyString)%string.

Definition sample_line1 : string := "2024-01-05,Paycheck,1500,Income".
Definition sample_line2 : string := "2024-01-06,Rent,-1200,Rent/Mortgage".

Definition sample_csv : string :=
  (sample_line1 ++ String JS.LF EmptyString ++ sample_line2)%string.

Definition sample_header5 : string := "date,description,amount,category,type".
Definition sample_gym : string := "2024-02-01,Gym,45,Health & Fitness,expense".

Definition sample_csv5 : string :=
  (sample_header5 ++ String JS.LF EmptyString ++ sample_gym)%string.

Definition income_only_state : State :=
  mkState [mkTransaction "t1" "2024-01-05" "Paycheck" 1500 "Income"]
          [] App.DEFAULT_CATEGORIES "2024-01" "All".

Definition spend_only_state : State :=
  mkState [mkTransaction "t1" "2024-01-05" "Paycheck" 1500 "Income"]
          [] SpendOnly.DEFAULT_CATEGORIES "2024-01" "All".

Definition sample_goal : Goal := mkGoal "g1" "Emergency Fund" 500 1000 "2025-06".
Definition half_unit_goal : Goal := mkGoal "g2" "Stamp" 0.5 0.25 EmptyString.
Definition empty_goal : Goal := mkGoal "g3" "Later" 0 0 EmptyString.

Definition goal_of_target (i : string) (t : float) : Goal := mkGoal i i t 0 EmptyString.

Definition three_goals : list Goal :=
  [goal_of_target "a" 300; goal_of_target "b" 200; goal_of_target "c" 100].

Definition three_goals_reversed : list Goal :=
  [goal_of_target "c" 100; goal_of_target "b" 200; goal_of_target "a" 300].

Definition salary_line : string := "2024-01-05,Paycheck,1500,Salary".

Definition safe_txs : list Transaction :=
  [mkTransaction "t3" "2024-02-01" "Gym pass" (-45) "Health & Fitness";
   mkTransaction "t2" "2024-01-06" "Rent" (-1200) "Rent/Mortgage";
   mkTransaction "t1" "2024-01-05" "Paycheck" 1500 "Income"].

Definition padded_txs : list Transaction :=
  [mkTransaction "t1" "2024-01-05" " Coffee" (-4.5) "Dining Out"].

Definition blank_category_txs : list Transaction :=
  [mkTransaction "t1" "2024-01-05" "Coffee" (-4.5) EmptyString].

Definition long_date_txs : list Transaction :=
  [mkTransaction "t1" "2024-01-05T10:30" "Coffee" (-4.5) "Dining Out"].

Definition nan_amount_txs : list Transaction :=
  [mkTransaction "t1" "2024-01-05" "Coffee" nan "Dining Out"].

Definition three_month_state : State :=
  mkState [mkTransaction "t4" "2024-02-01" "Gym" (-45) "Health & Fitness";
           mkTransaction "t3" "2023-12-24" "Gift" (-80) "Shopping";
           mkTransaction "t2" "2024-01-06" "Rent" (-1200) "Rent/Mortgage";
           mkTransaction "t1" "2024-01-05" "Paycheck" 1500 "Income";
           mkTransaction "t0" EmptyString "Undated" (-1) "Other"]
          [] App.DEFAULT_CATEGORIES "2024-01" "All".

Definition sample_header4 : string := "date,description,amount,category".

Definition sample_csv4 : string :=
  (sample_header4 ++ String JS.LF EmptyString
   ++ "2024-03-01,Coffee,4.50,Dining Out")%string.


(** A date with a double quote in it, and dates with a comma, a line
    feed and a leading space. *)
Definition quoted_date_txs : list Transaction :=
  [mkTransaction "t1" (String DQUOTE "24-01-05") "Coffee" (-4.5) "Dining Out"].

Definition comma_date_txs : list Transaction :=
  [mkTransaction "t1" "2024,01,05" "Coffee" (-4.5) "Dining Out"].

Definition line_feed_date_txs : list Transaction :=
  [mkTransaction "t1" (String JS.LF "2024-01") "Coffee" (-4.5) "Dining Out"].

Definition padded_date_txs : list Transaction :=
  [mkTransaction "t1" " 2024-01" "Coffee" (-4.5) "Dining Out"].

Definition quoted_description_txs : list Transaction :=
  [mkTransaction "t1" "2024-01-05" (String DQUOTE "Coffee") (-4.5) "Dining Out"].

(** The same transactions under other filters. *)
Definition three_month_state_other_filter : State :=
  mkState (transactions three_month_state) [] App.DEFAULT_CATEGORIES
          "2023-12" "Shopping".

(** Files with no-break spaces (code unit 160) around fields: after the
    [type] name of the header and before a type, and around the
    description and before the amount of a line without header. *)
Definition NBSP : string := String (ascii_of_nat 160) EmptyString.

Definition nbsp_type_csv : string :=
  ("date,description,amount,category,type" ++ NBSP ++ String JS.LF EmptyString
   ++ "2024-02-01,Refund,-5,Shopping,income" ++ String JS.LF EmptyString
   ++ "2024-02-01,Gym,45,Health & Fitness," ++ NBSP ++ "expense")%string.

Definition nbsp_line : string :=
  ("2024-01-05," ++ NBSP ++ "Pay" ++ NBSP ++ "," ++ NBSP ++ "15,Salary")%string.
(** ** Further notions and sample data *)

(** A registry in good order: no name twice, no blank name, every name
    trimmed, and the default names all present. *)
Definition registry_ok (cats : list string) : Prop :=
  NoDup cats /\
  Forall (fun c => c <> EmptyString /\ JS.trim c = c) cats /\
  incl App.DEFAULT_CATEGORIES cats.

Definition sample_fields : TxFields :=
  mkTxFields "2024-03-01" "Coffee" (-4.5) "Dining Out".

Definition sample_goal_fields : GoalFields :=
  mkGoalFields "Emergency Fund" 500 100 "2025-06".

(** Identifiers that never repeat: the decimal digits of the position
    are not needed, a run of marks of that length is enough. *)
Fixpoint marks (n : nat) : string :=
  match n with O => EmptyString | S n' => String "u" (marks n') end.

Definition fresh_uuids (i : nat) : string := marks (S i).

Definition header_only_csv : string := "Date, Description, Amount, Category".

(** What every imported transaction is like: an amount that is a
    number, a date of at most ten characters, a category that is not
    empty, a trimmed description and category, and no comma in any
    text field. *)
Definition imported_ok (t : Transaction) : Prop :=
  JS.isNaN (amount t) = false /\
  String.length (date t) <= 10 /\
  category t <> EmptyString /\
  JS.trim (description t) = description t /\
  JS.trim (category t) = category t /\
  mem_char "," (date t) = false /\
  mem_char "," (description t) = false /\
  mem_char "," (category t) = false.

Definition messy_csv : string :=
  ("when,what" ++ String JS.LF EmptyString
   ++ " 2024-01-05T08:00:00Z ,  Bus  , n/a ,,extra")%string.


(** The amount that the import gives to an exported amount: the text of
    the number read back, with the sign of the exported [type]. *)
Definition reimported (a : float) : float :=
  let amt := JS.or_num (JS.parseFloat (JS.Number_toString a)) 0 in
  if JS.startsWith "exp" (JS.toLowerCase (type_of a))
  then (- JS.Math_abs amt)%float else JS.Math_abs amt.

(** A doubled double quote. *)
Definition DQ2 : string := String DQUOTE (String DQUOTE EmptyString).

(** A number that is neither negative nor [NaN]. *)
Definition nonneg (x : float) : Prop := (0 <=? x)%float = true.

(** [Number(s)] on the texts of the samples, which are plain decimal
    numerals: there it reads what [parseFloat] reads. *)
Definition decimal_Number (s : string) : float := JS.parseFloat s.

Definition sample_form : Form.TxForm :=
  Form.mkTxForm "2024-03-01" "Coffee" "4.5" "Dining Out" EmptyString "expense".

Definition sample_goal_form : Form.GoalForm :=
  Form.mkGoalForm "Emergency Fund" "1000" EmptyString "2025-06".

(** The form selects an acceptable category. *)
Definition form_ok (st : State) (fs : Form.TxForm) : Prop :=
  category_ok st (Form.form_category fs).



(** A call of [addTransaction] with an amount that is a number, as the
    transaction form makes it; any other call. *)
Definition form_amount_ok (a : App.Action) : Prop :=
  match a with
  | App.AddTransaction _ tx => JS.isNaN (tx_amount tx) = false
  | _ => True
  end.

(** A text made of line ends alone: line feeds, each on its own or
    after a carriage return. *)
Fixpoint only_line_ends (s : string) : bool :=
  match s with
  | EmptyString => true
  | String c s' =>
      if Ascii.eqb c JS.LF then only_line_ends s'
      else if Ascii.eqb c JS.CR then
        match s' with
        | String d s'' => Ascii.eqb d JS.LF && only_line_ends s''
        | EmptyString => false
        end
      else false
  end.

Definition blank_crlf_csv : string :=
  String JS.CR (String JS.LF (String JS.LF (String JS.CR (String JS.LF EmptyString)))).

(** A line of spaces is a line. *)
Definition spaces_csv : string := "   ".

Definition rent_filter_state : State :=
  mkState sample_txs [] App.DEFAULT_CATEGORIES "2024-01" "Rent/Mortgage".
(** * Properties *)

(** ** Insertion-ordered maps *)

Lemma includes_In (l : list string) (k : string) :
  JS.includes l k = true <-> In k l.
Proof.
  unfold JS.includes. rewrite existsb_exists. split.
  - intros (x & Hx & E). apply String.eqb_eq in E. now subst.
  - intros H. exists k. split; [exact H | apply String.eqb_refl].
Qed.

Lemma includes_false (l : list string) (k : string) :
  JS.includes l k = false <-> ~ In k l.
Proof.
  rewrite <- includes_In. destruct (JS.includes l k); split; congruence.
Qed.

Lemma StrMap_keys_set {V : Type} (m : StrMap.t V) (k : string) (v : V) :
  map fst (StrMap.set m k v) =
  if JS.includes (map fst m) k then map fst m else map fst m ++ [k].
Proof.
  unfold JS.includes.
  induction m as [|[k' v'] m IH]; simpl; [reflexivity|].
  rewrite (String.eqb_sym k k').
  destruct (String.eqb k' k); simpl; [reflexivity|].
  rewrite IH.
  destruct (existsb (String.eqb k) (map fst m)); reflexivity.
Qed.

Lemma StrMap_get_None {V : Type} (m : StrMap.t V) (k : string) :
  StrMap.get m k = None <-> ~ In k (map fst m).
Proof.
  induction m as [|[k' v'] m IH]; simpl.
  - tauto.
  - destruct (String.eqb_spec k' k) as [->|Hne].
    + split; [discriminate|]. intros H; exfalso; apply H; now left.
    + rewrite IH. split; [intros H [E|I]; [congruence|auto] | auto].
Qed.

Lemma StrMap_in_set {V : Type} (m : StrMap.t V) (k : string) (v : V) kv :
  In kv (StrMap.set m k v) -> kv = (k, v) \/ In kv m.
Proof.
  induction m as [|[k' v'] m IH]; simpl.
  - intros [<-|[]]; now left.
  - destruct (String.eqb_spec k' k) as [->|Hne]; simpl.
    + intros [<-|H]; auto.
    + intros [<-|H]; auto. destruct (IH H); auto.
Qed.

Lemma NoDup_snoc {A : Type} (l : list A) (x : A) :
  NoDup l -> ~ In x l -> NoDup (l ++ [x]).
Proof.
  intros Hl Hx. apply NoDup_rev in Hl.
  rewrite <- (rev_involutive (l ++ [x])). apply NoDup_rev.
  rewrite rev_app_distr. simpl. constructor; [now rewrite <- in_rev|exact Hl].
Qed.

Lemma StrMap_set_NoDup {V : Type} (m : StrMap.t V) (k : string) (v : V) :
  NoDup (map fst m) -> NoDup (map fst (StrMap.set m k v)).
Proof.
  intros Hn. rewrite StrMap_keys_set.
  destruct (JS.includes (map fst m) k) eqn:E; [exact Hn|].
  apply NoDup_snoc; [exact Hn|]. now apply includes_false.
Qed.

(** ** The stable sort *)

Section SortFacts.

Context {A : Type} (cmp : A -> A -> comparison).

Lemma sort_insert_perm (x : A) (l : list A) :
  Permutation (sort_insert cmp x l) (x :: l).
Proof.
  induction l as [|y l IH]; simpl; [reflexivity|].
  destruct (cmp x y); try reflexivity.
  rewrite IH. apply perm_swap.
Qed.

Lemma sort_perm (l : list A) : Permutation (sort cmp l) l.
Proof.
  induction l as [|x l IH]; simpl; [constructor|].
  rewrite sort_insert_perm. now constructor.
Qed.

Hypothesis cmp_total : forall a b, cmp a b = Gt -> cmp b a <> Gt.

Lemma sort_insert_sorted (x : A) (l : list A) :
  Sorted (fun a b => cmp a b <> Gt) l ->
  Sorted (fun a b => cmp a b <> Gt) (sort_insert cmp x l).
Proof.
  induction 1 as [|y l Hs IH Hhd]; simpl.
  - repeat constructor.
  - destruct (cmp x y) eqn:E.
    + constructor; [now constructor|]. constructor. congruence.
    + constructor; [now constructor|]. constructor. congruence.
    + constructor; [exact IH|].
      destruct Hhd as [|z l Hyz]; simpl.
      * constructor. now apply cmp_total.
      * destruct (cmp x z); constructor; auto.
Qed.

Lemma sort_sorted (l : list A) : Sorted (fun a b => cmp a b <> Gt) (sort cmp l).
Proof.
  induction l as [|x l IH]; simpl; [constructor|].
  now apply sort_insert_sorted.
Qed.

Hypothesis cmp_trans :
  forall a b c, cmp a b <> Gt -> cmp b c <> Gt -> cmp a c <> Gt.

Lemma sort_strongly_sorted (l : list A) :
  StronglySorted (fun a b => cmp a b <> Gt) (sort cmp l).
Proof.
  apply Sorted_StronglySorted; [|apply sort_sorted].
  intros a b c. apply cmp_trans.
Qed.

End SortFacts.

(** ** Removal of a transaction *)

Lemma filter_id {A : Type} (f : A -> bool) (l : list A) :
  (forall x, In x l -> f x = true) -> filter f l = l.
Proof.
  induction l as [|x l IH]; simpl; intros H; [reflexivity|].
  rewrite (H x (or_introl eq_refl)). f_equal. apply IH. auto.
Qed.

Lemma filter_filter_same {A : Type} (f : A -> bool) (l : list A) :
  filter f (filter f l) = filter f l.
Proof.
  apply filter_id. intros x Hx. now apply filter_In in Hx.
Qed.

(** C8: removing an identifier that no transaction carries leaves the
    state as it was; and for every identifier, carried or not, removing
    it a second time changes nothing more, as no transaction carries it
    after the first removal. *)
Theorem removeTransaction_absent_noop (i : string) (st : State) :
  (~ In i (map id (transactions st)) -> App.removeTransaction i st = st) /\
  App.removeTransaction i (App.removeTransaction i st) = App.removeTransaction i st /\
  ~ In i (map id (transactions (App.removeTransaction i st))).
Proof.
  unfold App.removeTransaction, App.set_transactions; simpl.
  rewrite filter_filter_same. split; [|split; [reflexivity|]].
  - intros Habs. rewrite filter_id; [now destruct st|].
    intros t Ht. apply negb_true_iff, String.eqb_neq. intros E.
    apply Habs. rewrite <- E. now apply in_map.
  - intros Hin. apply in_map_iff in Hin. destruct Hin as (t & <- & Ht).
    apply filter_In in Ht. destruct Ht as [_ Ht].
    now rewrite String.eqb_refl in Ht.
Qed.

Lemma removeTransaction_absent_noop_witness :
  App.removeTransaction "t9" sample_state = sample_state /\
  App.removeTransaction "t2" (App.removeTransaction "t2" sample_state)
  = App.removeTransaction "t2" sample_state.
Proof.
  split.
  - apply (proj1 (removeTransaction_absent_noop "t9" sample_state)).
    simpl. intros [H|[H|[]]]; discriminate H.
  - exact (proj1 (proj2 (removeTransaction_absent_noop "t2" sample_state))).
Defined.

(** ** Frame of the transaction mutators *)

(** C10: [importCSV] and [addTransaction] leave the goals and the
    category registry as they were. *)
Theorem import_and_add_frame (uuids : nat -> string) (text uuid : string)
    (tx : TxFields) (st : State) :
  goals (App.importCSV uuids text st) = goals st /\
  categories (App.importCSV uuids text st) = categories st /\
  goals (App.addTransaction uuid tx st) = goals st /\
  categories (App.addTransaction uuid tx st) = categories st.
Proof.
  unfold App.importCSV, App.addTransaction.
  destruct (JS.filter_Boolean (JS.split_lines text)); simpl; auto.
Qed.

(** ** The monthly trend *)

Lemma fold_left_invariant {S T : Type} (P : S -> Prop) (step : S -> T -> S)
    (l : list T) (init : S) :
  P init -> (forall s t, P s -> P (step s t)) -> P (fold_left step l init).
Proof.
  revert init. induction l as [|t l IH]; simpl; intros init H0 Hs; auto.
Qed.

Lemma byMonth_step_keyed (m : StrMap.t App.MonthEntry) (t : Transaction) :
  month_keyed m -> month_keyed (App.byMonth_step m t).
Proof.
  intros Hm. unfold App.byMonth_step.
  destruct (JS.slice0 7 (date t)) as [|c k0] eqn:Ek; simpl; [exact Hm|].
  intros k e Hin. apply StrMap_in_set in Hin.
  destruct Hin as [E|Hin]; [|now apply Hm].
  inversion E; subst k e; clear E. split; [discriminate|].
  destruct (StrMap.get m (String c k0)) as [e0|] eqn:Eg.
  - assert (App.ym e0 = String c k0) as Hy.
    { clear - Hm Eg. induction m as [|[k1 e1] m IH]; simpl in Eg; [discriminate|].
      destruct (String.eqb_spec k1 (String c k0)) as [->|Hne].
      - injection Eg as ->. apply (Hm (String c k0) e0). now left.
      - apply IH; [|exact Eg]. intros k e Hin. apply Hm. now right. }
    destruct (0 <=? amount t)%float; simpl; exact Hy.
  - destruct (0 <=? amount t)%float; reflexivity.
Qed.

Lemma byMonthMap_keyed (txs : list Transaction) : month_keyed (App.byMonthMap txs).
Proof.
  unfold App.byMonthMap. apply fold_left_invariant.
  - intros k e [].
  - intros; now apply byMonth_step_keyed.
Qed.

Lemma byMonth_step_keys (m : StrMap.t App.MonthEntry) (t : Transaction) (k : string) :
  In k (map fst (App.byMonth_step m t)) <->
  In k (map fst m) \/ (k <> EmptyString /\ JS.slice0 7 (date t) = k).
Proof.
  unfold App.byMonth_step.
  destruct (JS.slice0 7 (date t)) as [|c k0] eqn:Ek; simpl.
  - split; [now left|]. intros [H|[H1 H2]]; [exact H|congruence].
  - rewrite StrMap_keys_set.
    destruct (JS.includes (map fst m) (String c k0)) eqn:Ei.
    + apply includes_In in Ei. split; [now left|].
      intros [H|[_ <-]]; assumption.
    + rewrite in_app_iff. simpl. split.
      * intros [H|[<-|[]]]; [now left|]. right. split; [discriminate|reflexivity].
      * intros [H|[_ <-]]; [now left|]. right. now left.
Qed.

Lemma byMonthMap_keys (txs : list Transaction) (k : string) :
  In k (map fst (App.byMonthMap txs)) <->
  k <> EmptyString /\ exists t, In t txs /\ JS.slice0 7 (date t) = k.
Proof.
  unfold App.byMonthMap.
  assert (H : forall m,
             In k (map fst (fold_left App.byMonth_step txs m)) <->
             In k (map fst m) \/
             (k <> EmptyString /\ exists t, In t txs /\ JS.slice0 7 (date t) = k)).
  { induction txs as [|t txs IH]; intros m; simpl.
    - split; [now left|]. intros [H|(_ & t & [] & _)]. exact H.
    - rewrite IH, byMonth_step_keys. split.
      + intros [[H|[H1 H2]]|(H1 & t' & H2 & H3)]; eauto 6.
      + intros [H|(H1 & t' & [<-|H2] & H3)]; eauto 6. }
  rewrite H. simpl. tauto.
Qed.

Lemma month_keyed_yms (m : StrMap.t App.MonthEntry) :
  month_keyed m -> map App.ym (map snd m) = map fst m.
Proof.
  induction m as [|[k e] m IH]; intros Hm; simpl; [reflexivity|].
  f_equal.
  - now destruct (Hm k e (or_introl eq_refl)).
  - apply IH. intros k' e' Hin. apply Hm. now right.
Qed.

Lemma byMonthMap_NoDup (txs : list Transaction) :
  NoDup (map fst (App.byMonthMap txs)).
Proof.
  unfold App.byMonthMap. apply fold_left_invariant.
  - constructor.
  - intros m t Hm. unfold App.byMonth_step.
    destruct (negb (JS.truthy_str (JS.slice0 7 (date t)))); [exact Hm|].
    now apply StrMap_set_NoDup.
Qed.

(** Where the locale's order is the order of the code units on the
    year-months at hand, a trend in the locale's order with distinct
    year-months is strictly ascending by code units. *)
Lemma sorted_by_code_units
    (localeCompare : string -> string -> comparison) (l : list App.MonthEntry) :
  (forall a b, all_chars ym_char a = true -> all_chars ym_char b = true ->
               localeCompare a b = String.compare a b) ->
  Forall (fun e => all_chars ym_char (App.ym e) = true) l ->
  NoDup (map App.ym l) ->
  StronglySorted (fun a b => localeCompare (App.ym a) (App.ym b) <> Gt) l ->
  StronglySorted (fun a b => String.compare (App.ym a) (App.ym b) = Lt) l.
Proof.
  intros Hagree Hall Hnd Hs. induction Hs as [|a l Hs IH Ha]; constructor.
  - apply IH; [now inversion Hall|now inversion Hnd].
  - inversion Hall as [|? ? Hca Hcl]; subst.
    inversion Hnd as [|? ? Hn _]; subst.
    rewrite Forall_forall in *. intros b Hb.
    specialize (Ha b Hb). rewrite (Hagree _ _ Hca (Hcl b Hb)) in Ha.
    destruct (String.compare (App.ym a) (App.ym b)) eqn:E;
      [|reflexivity|contradiction].
    exfalso. apply Hn. apply String.compare_eq_iff in E. rewrite E.
    now apply in_map.
Qed.

(** C5: the monthly trend is a function of the transaction collection
    alone, so two states with the same transactions and any filters
    have the same trend; its year-months are the non-empty year-months
    of the dates of all transactions; every entry precedes all later
    ones in the order of [localeCompare], a total preorder; and when
    the year-months are made of digits and hyphens (zero-padded
    [YYYY-MM]), on which [localeCompare] is the order of the code
    units, the trend is strictly ascending by the year-month string. *)
Theorem byMonth_unfiltered_sorted
    (localeCompare : string -> string -> comparison) (st st' : State) :
  (forall a b, localeCompare a b = Gt -> localeCompare b a <> Gt) ->
  (forall a b c, localeCompare a b <> Gt -> localeCompare b c <> Gt ->
                 localeCompare a c <> Gt) ->
  transactions st = transactions st' ->
  App.byMonth (App.totals localeCompare st)
  = App.byMonth (App.totals localeCompare st') /\
  (forall k, In k (map App.ym (App.byMonth (App.totals localeCompare st))) <->
             k <> EmptyString /\
             exists t, In t (transactions st) /\ JS.slice0 7 (date t) = k) /\
  StronglySorted (fun a b => localeCompare (App.ym a) (App.ym b) <> Gt)
                 (App.byMonth (App.totals localeCompare st)) /\
  ((forall a b, all_chars ym_char a = true -> all_chars ym_char b = true ->
                localeCompare a b = String.compare a b) ->
   Forall (fun t => all_chars ym_char (JS.slice0 7 (date t)) = true)
          (transactions st) ->
   StronglySorted (fun a b => String.compare (App.ym a) (App.ym b) = Lt)
                  (App.byMonth (App.totals localeCompare st))).
Proof.
  intros Htot Htrans Htx. simpl. rewrite <- Htx. split; [reflexivity|].
  set (cmp := fun a b => localeCompare (App.ym a) (App.ym b)).
  pose proof (sort_perm cmp (map snd (App.byMonthMap (transactions st)))) as Hp.
  assert (Hyms : map App.ym (map snd (App.byMonthMap (transactions st)))
                 = map fst (App.byMonthMap (transactions st)))
    by apply (month_keyed_yms _ (byMonthMap_keyed (transactions st))).
  assert (Hkeys : forall k,
            In k (map App.ym (sort cmp (map snd (App.byMonthMap (transactions st))))) <->
            k <> EmptyString /\
            exists t, In t (transactions st) /\ JS.slice0 7 (date t) = k).
  { intros k. rewrite <- byMonthMap_keys, <- Hyms.
    split; apply Permutation_in; apply Permutation_map;
      [|apply Permutation_sym]; exact Hp. }
  assert (Hsorted : StronglySorted (fun a b => cmp a b <> Gt)
                      (sort cmp (map snd (App.byMonthMap (transactions st))))).
  { apply (sort_strongly_sorted cmp).
    - intros a b. apply Htot.
    - intros a b c. apply Htrans. }
  split; [exact Hkeys|]. split; [exact Hsorted|].
  intros Hagree Hall. apply (sorted_by_code_units localeCompare).
  - exact Hagree.
  - apply Forall_forall. intros e He.
    assert (Hk : In (App.ym e)
                   (map App.ym (sort cmp (map snd (App.byMonthMap (transactions st))))))
      by now apply in_map.
    apply Hkeys in Hk. destruct Hk as (_ & t & Ht & <-).
    rewrite Forall_forall in Hall. now apply Hall.
  - apply (Permutation_NoDup
             (l := map App.ym (map snd (App.byMonthMap (transactions st))))).
    + apply Permutation_map, Permutation_sym, Hp.
    + rewrite Hyms. apply byMonthMap_NoDup.
  - exact Hsorted.
Qed.

(** The order of the code units is a total preorder on strings. *)
Lemma string_compare_total (a b : string) :
  String.compare a b = Gt -> String.compare b a <> Gt.
Proof.
  intros H. rewrite String.compare_antisym, H. discriminate.
Qed.

Lemma string_compare_trans (a b c : string) :
  String.compare a b <> Gt -> String.compare b c <> Gt ->
  String.compare a c <> Gt.
Proof.
  revert b c. induction a as [|x a IH]; intros [|y b] [|z c]; simpl;
    try congruence.
  unfold Ascii.compare.
  destruct (N.compare_spec (N_of_ascii x) (N_of_ascii y)) as [E1|L1|G1];
    destruct (N.compare_spec (N_of_ascii y) (N_of_ascii z)) as [E2|L2|G2];
    try congruence; intros H1 H2.
  - rewrite E1, E2, N.compare_refl. now apply (IH b c).
  - rewrite E1. apply N.compare_lt_iff in L2. rewrite L2. discriminate.
  - rewrite <- E2. apply N.compare_lt_iff in L1. rewrite L1. discriminate.
  - assert (L : (N_of_ascii x < N_of_ascii z)%N) by (eapply N.lt_trans; eauto).
    apply N.compare_lt_iff in L. rewrite L. discriminate.
Qed.

Lemma byMonth_unfiltered_sorted_witness :
  App.byMonth (App.totals String.compare three_month_state)
  = App.byMonth (App.totals String.compare three_month_state_other_filter) /\
  (forall k, In k (map App.ym (App.byMonth (App.totals String.compare three_month_state))) <->
             k <> EmptyString /\
             exists t, In t (transactions three_month_state) /\
                       JS.slice0 7 (date t) = k) /\
  StronglySorted (fun a b => String.compare (App.ym a) (App.ym b) <> Gt)
                 (App.byMonth (App.totals String.compare three_month_state)) /\
  StronglySorted (fun a b => String.compare (App.ym a) (App.ym b) = Lt)
                 (App.byMonth (App.totals String.compare three_month_state)).
Proof.
  destruct (byMonth_unfiltered_sorted String.compare three_month_state
              three_month_state_other_filter string_compare_total
              string_compare_trans eq_refl) as (H1 & H2 & H3 & H4).
  split; [exact H1|]. split; [exact H2|]. split; [exact H3|].
  apply H4.
  - intros a b _ _. reflexivity.
  - repeat constructor.
Defined.

(** The trend of a ledger with transactions of three months, entered
    out of order. *)
Example byMonth_three_months :
  map App.ym (App.byMonth (App.totals String.compare three_month_state))
  = ["2023-12"; "2024-01"; "2024-02"].
Proof. reflexivity. Qed.

(** ** Facts on binary64 numbers *)

Lemma Prim2SF_inj (x y : float) : Prim2SF x = Prim2SF y -> x = y.
Proof.
  intros H. rewrite <- (SF2Prim_Prim2SF x), <- (SF2Prim_Prim2SF y). now f_equal.
Qed.

Lemma Prim2SF_zero : Prim2SF 0 = S754_zero false.
Proof. reflexivity. Qed.

Ltac to_spec :=
  unfold JS.or_num, JS.truthy_num, JS.isNaN, JS.Math_abs in *;
  repeat (progress rewrite ?FloatAxioms.ltb_spec, ?FloatAxioms.leb_spec,
            ?FloatAxioms.eqb_spec, ?FloatAxioms.abs_spec, ?FloatAxioms.opp_spec,
            ?Prim2SF_zero in *);
  unfold SFltb, SFleb, SFeqb in *.

Ltac spec_cases x :=
  let s := fresh "s" in
  destruct (Prim2SF x) as [s|s| |s ? ?] eqn:?;
  try destruct s; simpl in *;
  rewrite ?Z.compare_refl, ?Pos.compare_cont_refl in *; simpl in *;
  try discriminate; try reflexivity.

Lemma pos_truthy (x : float) : (0 <? x)%float = true -> JS.truthy_num x = true.
Proof. to_spec. spec_cases x. Qed.

Lemma neg_truthy (x : float) : (x <? 0)%float = true -> JS.truthy_num x = true.
Proof. to_spec. spec_cases x. Qed.

Lemma or_num_pos (x d : float) : (0 <? x)%float = true -> JS.or_num x d = x.
Proof. intros H. unfold JS.or_num. now rewrite pos_truthy. Qed.

Lemma or_num_neg (x d : float) : (x <? 0)%float = true -> JS.or_num x d = x.
Proof. intros H. unfold JS.or_num. now rewrite neg_truthy. Qed.

Lemma abs_not_neg (x : float) : (JS.Math_abs x <? 0)%float = false.
Proof. to_spec. spec_cases x. Qed.

Lemma opp_abs_not_pos (x : float) : (0 <? - JS.Math_abs x)%float = false.
Proof. to_spec. spec_cases x. Qed.

Lemma nonneg_not_neg (x : float) :
  (0 <=? x)%float = true -> (x <? 0)%float = false.
Proof. to_spec. spec_cases x. Qed.

Lemma pos_not_neg (x : float) :
  (0 <? x)%float = true -> (x <? 0)%float = false.
Proof. to_spec. spec_cases x. Qed.

Lemma opp_abs_of_neg (x : float) :
  (x <? 0)%float = true -> (- JS.Math_abs x)%float = x.
Proof.
  intros H. apply Prim2SF_inj. revert H. to_spec. spec_cases x.
Qed.

Lemma abs_of_pos (x : float) :
  (0 <? x)%float = true -> JS.Math_abs x = x.
Proof.
  intros H. apply Prim2SF_inj. revert H. to_spec. spec_cases x.
Qed.

Lemma abs_neg_pos (x : float) :
  (x <? 0)%float = true -> (0 <? JS.Math_abs x)%float = true.
Proof. to_spec. spec_cases x. Qed.

Lemma or_num_abs_not_neg (x : float) :
  (JS.or_num (JS.Math_abs x) 0 <? 0)%float = false.
Proof.
  unfold JS.or_num. destruct (JS.truthy_num (JS.Math_abs x)).
  - apply abs_not_neg.
  - reflexivity.
Qed.

(** ** CSV import: the sign of an amount *)

Lemma map_with_uuid_Forall2 {A B : Type} (P : A -> B -> Prop)
    (uuids : nat -> string) (f : string -> A -> B) (l : list A) :
  (forall u x, P x (f u x)) ->
  forall i, Forall2 P l (map_with_uuid uuids f i l).
Proof.
  intros H. induction l as [|x l IH]; intros i; simpl; constructor; auto.
Qed.

Lemma hasType_hasHeader (cols : list string) :
  App.hasType cols = true -> App.hasHeader cols = true.
Proof. unfold App.hasType. intros H. now apply andb_true_iff in H. Qed.

Lemma parse_row_amount (cols : list string) (u line : string) :
  amount (App.parse_row cols u line) =
  let amt := JS.or_num (JS.parseFloat (App.amtStr cols line)) 0 in
  if App.hasType cols then
    if JS.startsWith "exp" (App.typeRaw cols line)
    then (- JS.Math_abs amt)%float else JS.Math_abs amt
  else amt.
Proof.
  unfold App.parse_row, App.amtStr, App.typeRaw; simpl.
  destruct (App.hasType cols); reflexivity.
Qed.

(** C1: when the first line is not a header, or is a header without a
    [type] column, [importCSV] of the sign-aware ledger prepends the
    parsed rows, and each row's amount is the number read from its
    amount field ([0] if that is no number): a field that reads as a
    positive number gives that positive amount, one that reads as a
    negative number gives that negative amount.  The spend-only ledger
    stores the absolute value instead, so no amount is negative there. *)
Theorem importCSV_without_type_keeps_sign
    (uuids : nat -> string) (text first : string) (rest : list string)
    (st : State) :
  JS.filter_Boolean (JS.split_lines text) = first :: rest ->
  App.hasType (App.header_cols first) = false ->
  let cols := App.header_cols first in
  let rows := if App.hasHeader cols then rest else first :: rest in
  transactions (App.importCSV uuids text st)
  = App.parseCSV uuids text ++ transactions st /\
  Forall2 (fun line t =>
             let a := JS.parseFloat (App.amtStr cols line) in
             amount t = JS.or_num a 0 /\
             ((0 <? a)%float = true ->
              amount t = a /\ (0 <? amount t)%float = true) /\
             ((a <? 0)%float = true ->
              amount t = a /\ (amount t <? 0)%float = true))
          rows (App.parseCSV uuids text) /\
  Forall (fun t => (amount t <? 0)%float = false)
         (SpendOnly.parseCSV uuids text).
Proof.
  intros Hl Hty cols rows.
  unfold App.importCSV, App.parseCSV, SpendOnly.parseCSV. rewrite Hl. simpl.
  split; [reflexivity|]. split.
  - subst cols rows. apply map_with_uuid_Forall2.
    intros u line. rewrite parse_row_amount. rewrite Hty. simpl.
    split; [reflexivity|]. split; intros H.
    + rewrite (or_num_pos _ _ H). auto.
    + rewrite (or_num_neg _ _ H). auto.
  - generalize (if SpendOnly.hasHeader first then rest else first :: rest).
    intros l. generalize 0%nat.
    induction l as [|x l IH]; intros i; simpl; constructor; auto.
    apply or_num_abs_not_neg.
Qed.

Lemma importCSV_without_type_keeps_sign_witness :
  Forall2 (fun line t =>
             let a := JS.parseFloat (App.amtStr (App.header_cols sample_line1) line) in
             amount t = JS.or_num a 0 /\
             ((0 <? a)%float = true ->
              amount t = a /\ (0 <? amount t)%float = true) /\
             ((a <? 0)%float = true ->
              amount t = a /\ (amount t <? 0)%float = true))
          [sample_line1; sample_line2]
          (App.parseCSV sample_uuids sample_csv).
Proof.
  apply (importCSV_without_type_keeps_sign sample_uuids sample_csv
           sample_line1 [sample_line2] sample_state); reflexivity.
Defined.

(** The two rows of the specification's example, read without a header. *)
Example importCSV_sample_amounts :
  map amount (App.parseCSV sample_uuids sample_csv) = [1500; -1200]%float /\
  map amount (SpendOnly.parseCSV sample_uuids sample_csv) = [1500; 1200]%float.
Proof. split; reflexivity. Qed.

(** The row of the specification's example under a four-column header,
    the header being recognised and left out of the rows. *)
Example importCSV_sample_header_without_type :
  App.hasType (App.header_cols sample_header4) = false /\
  map (fun t => (date t, description t, amount t, category t))
      (App.parseCSV sample_uuids sample_csv4)
  = [("2024-03-01", "Coffee", 4.5%float, "Dining Out")].
Proof. split; reflexivity. Qed.

(** In the spend-only ledger the row of the specification's example
    with the amount text [-1200], which reads as a negative number,
    comes out with a positive amount. *)
Lemma spend_only_import_drops_sign :
  (JS.parseFloat "-1200" <? 0)%float = true /\
  map amount (SpendOnly.parseCSV sample_uuids sample_line2) = [1200%float] /\
  ~ Forall (fun t => (amount t <? 0)%float = true)
           (SpendOnly.parseCSV sample_uuids sample_line2).
Proof.
  split; [reflexivity|]. split; [reflexivity|].
  intros H. inversion H as [|t l Ht _]; subst. discriminate Ht.
Qed.

(** C2: with a header that has a [type] column, each row's amount is
    minus the absolute value of the number read from its amount field
    when the lower-cased type field starts with [exp], and the absolute
    value otherwise, whatever the sign written in the amount field. *)
Theorem importCSV_type_overrides_sign
    (uuids : nat -> string) (text first : string) (rest : list string)
    (st : State) :
  JS.filter_Boolean (JS.split_lines text) = first :: rest ->
  App.hasType (App.header_cols first) = true ->
  let cols := App.header_cols first in
  transactions (App.importCSV uuids text st)
  = App.parseCSV uuids text ++ transactions st /\
  Forall2 (fun line t =>
             let amt := JS.or_num (JS.parseFloat (App.amtStr cols line)) 0 in
             let exp := JS.startsWith "exp" (App.typeRaw cols line) in
             amount t = (if exp then (- JS.Math_abs amt)%float
                         else JS.Math_abs amt) /\
             (exp = true -> (0 <? amount t)%float = false) /\
             (exp = false -> (amount t <? 0)%float = false))
          rest (App.parseCSV uuids text).
Proof.
  intros Hl Hty cols.
  unfold App.importCSV, App.parseCSV. rewrite Hl. simpl.
  split; [reflexivity|].
  subst cols. rewrite (hasType_hasHeader _ Hty).
  apply map_with_uuid_Forall2.
  intros u line. rewrite parse_row_amount. rewrite Hty. simpl.
  split; [reflexivity|].
  split; intros ->; [apply opp_abs_not_pos | apply abs_not_neg].
Qed.

Lemma importCSV_type_overrides_sign_witness :
  Forall2 (fun line t =>
             let cols := App.header_cols sample_header5 in
             let amt := JS.or_num (JS.parseFloat (App.amtStr cols line)) 0 in
             let exp := JS.startsWith "exp" (App.typeRaw cols line) in
             amount t = (if exp then (- JS.Math_abs amt)%float
                         else JS.Math_abs amt) /\
             (exp = true -> (0 <? amount t)%float = false) /\
             (exp = false -> (amount t <? 0)%float = false))
          [sample_gym] (App.parseCSV sample_uuids sample_csv5).
Proof.
  apply (importCSV_type_overrides_sign sample_uuids sample_csv5
           sample_header5 [sample_gym] sample_state); reflexivity.
Defined.

(** No-break spaces around a field are trimmed like other white space:
    the header's [type] column is found, a type field is read as
    [expense], and an amount is read behind one. *)
Example importCSV_no_break_space :
  map amount (App.parseCSV sample_uuids nbsp_type_csv) = [5%float; (-45)%float] /\
  App.parseCSV sample_uuids nbsp_line
  = [mkTransaction "uuid-0" "2024-01-05" "Pay" 15 "Salary"].
Proof. split; reflexivity. Qed.

(** The row of the specification's example under a five-column header:
    the unsigned amount text [45] of an expense comes out as [-45]. *)
Example importCSV_sample_typed :
  map amount (App.parseCSV sample_uuids sample_csv5) = [(-45)%float].
Proof. reflexivity. Qed.

(** ** The sum of two positive numbers is positive

    Rounding a positive mantissa at an exponent that is not below
    [emin] never gives zero: a shift keeps the leading [prec] bits. *)

Section Rounding.

Local Open Scope Z_scope.

Lemma digits2_size p : digits2_pos p = Pos.size p.
Proof. induction p; simpl; congruence. Qed.

Lemma shr_1_m mrs : 0 <= shr_m mrs -> shr_m (shr_1 mrs) = Z.div2 (shr_m mrs).
Proof.
  destruct mrs as [m r s]; simpl. destruct m as [|p|p]; simpl; try lia.
  - destruct p; reflexivity.
Qed.

Lemma pow2_xI p : 2 ^ Z.pos p~1 = 2 * (2 ^ Z.pos p * 2 ^ Z.pos p).
Proof.
  replace (Z.pos p~1) with (Z.succ (Z.pos p + Z.pos p)) by lia.
  rewrite Z.pow_succ_r by lia. rewrite Z.pow_add_r by lia. reflexivity.
Qed.

Lemma pow2_xO p : 2 ^ Z.pos p~0 = 2 ^ Z.pos p * 2 ^ Z.pos p.
Proof.
  replace (Z.pos p~0) with (Z.pos p + Z.pos p) by lia.
  rewrite Z.pow_add_r by lia. reflexivity.
Qed.

Lemma iter_pos_shr p : forall mrs, 0 <= shr_m mrs ->
  shr_m (iter_pos shr_1 p mrs) = shr_m mrs / 2 ^ (Zpos p).
Proof.
  assert (Hp : forall q, 0 < 2 ^ Z.pos q) by (intros; apply Z.pow_pos_nonneg; lia).
  induction p as [p IH|p IH|]; intros mrs H; simpl iter_pos.
  - assert (H1 : 0 <= shr_m (shr_1 mrs)).
    { rewrite shr_1_m by exact H. rewrite Z.div2_div. apply Z.div_pos; lia. }
    assert (H2 : 0 <= shr_m (iter_pos shr_1 p (shr_1 mrs))).
    { rewrite IH by exact H1. apply Z.div_pos; [exact H1|apply Hp]. }
    rewrite IH by exact H2. rewrite IH by exact H1. rewrite shr_1_m by exact H.
    rewrite Z.div2_div. pose proof (Hp p).
    rewrite !Z.div_div by lia. rewrite pow2_xI. reflexivity.
  - assert (H2 : 0 <= shr_m (iter_pos shr_1 p mrs)).
    { rewrite IH by exact H. apply Z.div_pos; [exact H|apply Hp]. }
    rewrite IH by exact H2. rewrite IH by exact H. pose proof (Hp p).
    rewrite !Z.div_div by lia. rewrite pow2_xO. reflexivity.
  - rewrite shr_1_m by exact H. rewrite Z.div2_div. reflexivity.
Qed.

Lemma shr_record_of_loc_m m l : shr_m (shr_record_of_loc m l) = m.
Proof. destruct l as [|[| |]]; reflexivity. Qed.

Lemma pow2_size_le p : 2 ^ (Z.pos (Pos.size p) - 1) <= Z.pos p.
Proof.
  pose proof (Pos.size_le p) as H.
  assert (H' : 2 ^ Z.pos (Pos.size p) <= 2 * Z.pos p).
  { rewrite <- Pos2Z.inj_pow. change (2 * Z.pos p) with (Z.pos p~0). exact H. }
  replace (Z.pos (Pos.size p)) with (Z.succ (Z.pos (Pos.size p) - 1)) in H' by lia.
  rewrite Z.pow_succ_r in H' by lia. lia.
Qed.

Lemma shr_fexp_pos m e l :
  0 < m -> emin <= e ->
  0 < shr_m (fst (shr_fexp prec emax m e l)) /\
  emin <= snd (shr_fexp prec emax m e l).
Proof.
  intros Hm He. unfold shr_fexp, shr.
  destruct m as [|p|p]; try lia. simpl Zdigits2.
  destruct (fexp prec emax (Z.pos (digits2_pos p) + e) - e) as [|n|n] eqn:En; simpl;
    rewrite ?shr_record_of_loc_m; try (split; lia).
  unfold fexp in En. rewrite digits2_size in En.
  assert (Hn : Z.pos n = Z.pos (Pos.size p) - prec) by lia.
  rewrite iter_pos_shr by (rewrite shr_record_of_loc_m; lia).
  rewrite shr_record_of_loc_m. split; [|lia].
  apply Z.div_str_pos. split; [apply Z.pow_pos_nonneg; lia|].
  apply Z.le_trans with (2 ^ (Z.pos (Pos.size p) - 1)); [|apply pow2_size_le].
  apply Z.pow_le_mono_r; [lia|]. rewrite Hn. unfold prec. lia.
Qed.

Lemma round_nearest_even_pos m l : 0 < m -> 0 < round_nearest_even m l.
Proof.
  intros H. destruct l as [|[| |]]; simpl; try lia. destruct (Z.even m); lia.
Qed.

Lemma binary_round_aux_pos sx mx ex lx :
  0 < mx -> emin <= ex ->
  (exists m e, binary_round_aux prec emax sx mx ex lx = S754_finite sx m e) \/
  binary_round_aux prec emax sx mx ex lx = S754_infinity sx.
Proof.
  intros Hm He. unfold binary_round_aux.
  destruct (shr_fexp_pos mx ex lx Hm He) as [H1 H2].
  destruct (shr_fexp prec emax mx ex lx) as [mrs' e']. simpl in H1, H2.
  pose proof (round_nearest_even_pos _ (loc_of_shr_record mrs') H1) as H3.
  destruct (shr_fexp_pos _ e' loc_Exact H3 H2) as [H4 H5].
  destruct (shr_fexp prec emax _ e' loc_Exact) as [mrs'' e'']. simpl in H4, H5.
  destruct (shr_m mrs'') as [|q|q]; try lia.
  destruct (e'' <=? emax - prec); [left; eauto | now right].
Qed.

Lemma binary_round_pos sx mx ex :
  emin <= ex ->
  (exists m e, binary_round prec emax sx mx ex = S754_finite sx m e) \/
  binary_round prec emax sx mx ex = S754_infinity sx.
Proof.
  intros He. unfold binary_round, shl_align.
  set (f := fexp prec emax (Z.pos (digits2_pos mx) + ex)).
  assert (Hf : emin <= f) by (unfold f, fexp; lia).
  destruct (f - ex) eqn:E; apply binary_round_aux_pos; lia.
Qed.

Lemma valid_finite_emin s m e :
  valid_binary (S754_finite s m e) = true -> emin <= e.
Proof.
  simpl. unfold bounded, canonical_mantissa, fexp. intros H.
  apply andb_true_iff in H. destruct H as [H _]. apply Z.eqb_eq in H. lia.
Qed.

End Rounding.

Lemma add_pos_pos (x y : float) :
  (0 <? x)%float = true -> (0 <? y)%float = true -> (0 <? x + y)%float = true.
Proof.
  rewrite !FloatAxioms.ltb_spec, FloatAxioms.add_spec.
  change (Prim2SF 0) with (S754_zero false).
  pose proof (Prim2SF_valid x) as Vx. pose proof (Prim2SF_valid y) as Vy.
  destruct (Prim2SF x) as [sx|sx| |sx mx ex]; try discriminate;
    destruct (Prim2SF y) as [sy|sy| |sy my ey]; try discriminate;
    try (destruct sx; try discriminate); try (destruct sy; try discriminate);
    try reflexivity.
  intros _ _. unfold SF64add, SFadd, cond_Zopp.
  apply valid_finite_emin in Vx, Vy.
  rewrite <- Pos2Z.inj_add. unfold binary_normalize.
  destruct (binary_round_pos false
              (fst (shl_align mx ex (Z.min ex ey)) + fst (shl_align my ey (Z.min ex ey)))
              (Z.min ex ey)) as [(m & e & ->)| ->]; [lia| |]; reflexivity.
Qed.

Lemma add_zero_pos (y : float) :
  (0 <? y)%float = true -> (0 + y)%float = y.
Proof.
  intros H. apply Prim2SF_inj. revert H.
  rewrite FloatAxioms.ltb_spec, FloatAxioms.add_spec.
  change (Prim2SF 0) with (S754_zero false).
  destruct (Prim2SF y) as [sy|sy| |sy my ey]; try discriminate;
    destruct sy; try discriminate; reflexivity.
Qed.

(** ** The category breakdown *)

Lemma first_seen_snoc (ks : list string) (k : string) :
  first_seen (ks ++ [k]) =
  if JS.includes (first_seen ks) k then first_seen ks else first_seen ks ++ [k].
Proof. unfold first_seen. now rewrite fold_left_app. Qed.

Lemma first_seen_In (ks : list string) (k : string) :
  In k (first_seen ks) <-> In k ks.
Proof.
  induction ks as [|k' ks IH] using rev_ind; [reflexivity|].
  rewrite first_seen_snoc, in_app_iff. simpl.
  destruct (JS.includes (first_seen ks) k') eqn:E.
  - apply includes_In in E. rewrite IH in *. intuition (subst; auto).
  - rewrite in_app_iff. simpl. rewrite IH. tauto.
Qed.

Lemma StrMap_get_tabulate {V : Type} (f : string -> V) (ks : list string) (k : string) :
  In k ks -> StrMap.get (map (fun k => (k, f k)) ks) k = Some (f k).
Proof.
  induction ks as [|k' ks IH]; simpl; [tauto|].
  destruct (String.eqb_spec k' k) as [->|Hne]; [reflexivity|].
  intros [E|H]; [congruence | auto].
Qed.

Lemma first_seen_NoDup (ks : list string) : NoDup (first_seen ks).
Proof.
  induction ks as [|k' ks IH] using rev_ind; [constructor|].
  rewrite first_seen_snoc.
  destruct (JS.includes (first_seen ks) k') eqn:E; [exact IH|].
  apply includes_false in E.
  apply NoDup_rev in IH. rewrite <- (rev_involutive (first_seen ks ++ [k'])).
  apply NoDup_rev. rewrite rev_app_distr. simpl. constructor; [|exact IH].
  now rewrite <- in_rev.
Qed.

Lemma StrMap_set_tabulate {V : Type} (f : string -> V) (ks : list string)
    (k : string) (v : V) :
  NoDup ks -> In k ks ->
  StrMap.set (map (fun k => (k, f k)) ks) k v
  = map (fun k' => (k', if String.eqb k' k then v else f k')) ks.
Proof.
  induction 1 as [|k' ks Hnin Hnd IH]; simpl; [tauto|].
  destruct (String.eqb_spec k' k) as [->|Hne]; intros H.
  - f_equal. apply map_ext_in. intros k'' Hin.
    destruct (String.eqb_spec k'' k) as [->|_]; [contradiction|reflexivity].
  - f_equal. apply IH. destruct H; [contradiction|assumption].
Qed.

Lemma StrMap_set_fresh {V : Type} (m : StrMap.t V) (k : string) (v : V) :
  ~ In k (map fst m) -> StrMap.set m k v = m ++ [(k, v)].
Proof.
  induction m as [|[k' v'] m IH]; simpl; intros H; [reflexivity|].
  destruct (String.eqb_spec k' k) as [->|Hne]; [tauto|].
  f_equal. apply IH. tauto.
Qed.

Lemma sum_abs_snoc (l : list Transaction) (t : Transaction) :
  sum_abs (l ++ [t]) = (sum_abs l + JS.Math_abs (amount t))%float.
Proof. unfold sum_abs. now rewrite fold_left_app. Qed.

(** A sum of absolute values of one or more expenses is positive, so
    [|| 0] on it returns it. *)
Lemma sum_abs_pos (l : list Transaction) :
  l <> [] -> Forall (fun t => is_expense t = true) l ->
  (0 <? sum_abs l)%float = true.
Proof.
  induction l as [|t l IH] using rev_ind; [congruence|].
  intros _ Hall. apply Forall_app in Hall. destruct Hall as [Hl Ht].
  inversion Ht as [|? ? Hexp _]; subst. apply abs_neg_pos in Hexp.
  rewrite sum_abs_snoc. destruct l as [|t0 l0].
  - simpl. unfold sum_abs; simpl. now rewrite add_zero_pos.
  - apply add_pos_pos; [|exact Hexp]. apply IH; [discriminate|exact Hl].
Qed.

Lemma byCatMap_snoc (l : list Transaction) (t : Transaction) :
  App.byCatMap (l ++ [t]) = App.byCat_step (App.byCatMap l) t.
Proof. unfold App.byCatMap. now rewrite fold_left_app. Qed.

Lemma filter_snoc {A : Type} (f : A -> bool) (l : list A) (x : A) :
  filter f (l ++ [x]) = if f x then filter f l ++ [x] else filter f l.
Proof.
  rewrite filter_app. simpl. destruct (f x); [reflexivity|apply app_nil_r].
Qed.

Lemma filter_key_absent (k : string) (l : list Transaction) :
  ~ In k (map cat_key l) ->
  filter (fun t => String.eqb (cat_key t) k) l = [].
Proof.
  induction l as [|t l IH]; simpl; intros H; [reflexivity|].
  destruct (String.eqb_spec (cat_key t) k) as [E|_]; [tauto|]. apply IH. tauto.
Qed.

Lemma filter_key_present (k : string) (l : list Transaction) :
  In k (map cat_key l) ->
  filter (fun t => String.eqb (cat_key t) k) l <> [].
Proof.
  induction l as [|t l IH]; simpl; [tauto|].
  destruct (String.eqb_spec (cat_key t) k) as [E|Hne]; [discriminate|].
  intros [E|H]; [congruence|auto].
Qed.

(** The loop of the component computes the breakdown of the
    specification. *)
Lemma byCatMap_spec (l : list Transaction) : App.byCatMap l = breakdown_spec l.
Proof.
  induction l as [|t l IH] using rev_ind; [reflexivity|].
  rewrite byCatMap_snoc, IH. unfold breakdown_spec, App.byCat_step.
  rewrite filter_snoc. fold (is_expense t).
  destruct (is_expense t) eqn:Hexp; [|reflexivity].
  fold (cat_key t).
  set (exps := filter is_expense l).
  assert (Hall : Forall (fun t => is_expense t = true) exps).
  { apply Forall_forall. intros x Hx. now apply filter_In in Hx. }
  rewrite (map_app cat_key exps [t]). change (map cat_key [t]) with [cat_key t].
  rewrite first_seen_snoc.
  pose (val := fun k => sum_abs (filter (fun t0 => String.eqb (cat_key t0) k) exps)).
  destruct (JS.includes (first_seen (map cat_key exps)) (cat_key t)) eqn:Hin.
  - apply includes_In in Hin.
    pose proof (StrMap_get_tabulate val _ _ Hin) as Hget.
    pose proof (StrMap_set_tabulate val _ (cat_key t)
                  (JS.or_num (val (cat_key t)) 0 + JS.Math_abs (amount t))%float
                  (first_seen_NoDup _) Hin) as Hset.
    cbv beta delta [val] in Hget, Hset. rewrite Hget, Hset. clear Hget Hset.
    apply map_ext. intros k. f_equal. rewrite filter_snoc.
    destruct (String.eqb_spec k (cat_key t)) as [->|Hne].
    + rewrite String.eqb_refl, sum_abs_snoc. f_equal.
      apply or_num_pos. apply sum_abs_pos.
      * apply filter_key_present. now apply first_seen_In.
      * apply Forall_forall. intros x Hx. apply filter_In in Hx.
        destruct Hx as [Hx _]. revert x Hx. now apply Forall_forall.
    + destruct (String.eqb_spec (cat_key t) k); [congruence|reflexivity].
  - apply includes_false in Hin.
    assert (Hkeys : map fst (map (fun k => (k, val k)) (first_seen (map cat_key exps)))
                    = first_seen (map cat_key exps)).
    { rewrite map_map. simpl. apply map_id. }
    assert (Hget : StrMap.get (map (fun k => (k, val k)) (first_seen (map cat_key exps)))
                     (cat_key t) = None).
    { apply StrMap_get_None. now rewrite Hkeys. }
    pose proof (StrMap_set_fresh (map (fun k => (k, val k)) (first_seen (map cat_key exps)))
                  (cat_key t) (0 + JS.Math_abs (amount t))%float) as Hset.
    rewrite Hkeys in Hset. specialize (Hset Hin).
    cbv beta delta [val] in Hget, Hset. rewrite Hget, Hset. clear Hget Hset Hkeys.
    rewrite map_app. simpl. f_equal.
    + apply map_ext_in. intros k Hk. f_equal. rewrite filter_snoc.
      destruct (String.eqb_spec (cat_key t) k) as [E|_]; [|reflexivity].
      subst k. contradiction.
    + rewrite filter_snoc, String.eqb_refl, sum_abs_snoc.
      rewrite first_seen_In in Hin. now rewrite (filter_key_absent _ _ Hin).
Qed.

Lemma no_expense_filter (l : list Transaction) :
  Forall (fun t => (0 <=? amount t)%float = true) l -> filter is_expense l = [].
Proof.
  induction 1 as [|t l Ht _ IH]; simpl; [reflexivity|].
  unfold is_expense at 1. now rewrite (nonneg_not_neg _ Ht).
Qed.

Lemma spend_only_keys_grow (m : StrMap.t float) (t : Transaction) (k : string) :
  In k (map fst m) -> In k (map fst (SpendOnly.byCat_step m t)).
Proof.
  intros H. unfold SpendOnly.byCat_step. rewrite StrMap_keys_set.
  destruct (JS.includes (map fst m) _); [exact H|]. apply in_app_iff; now left.
Qed.

Lemma spend_only_key_added (m : StrMap.t float) (t : Transaction) :
  In (cat_key t) (map fst (SpendOnly.byCat_step m t)).
Proof.
  unfold SpendOnly.byCat_step. fold (cat_key t). rewrite StrMap_keys_set.
  destruct (JS.includes (map fst m) (cat_key t)) eqn:E.
  - now apply includes_In.
  - apply in_app_iff. right. now left.
Qed.

Lemma spend_only_all_keys (l : list Transaction) (m : StrMap.t float) (t : Transaction) :
  In t l -> In (cat_key t) (map fst (fold_left SpendOnly.byCat_step l m)).
Proof.
  revert m. induction l as [|x l IH]; simpl; intros m; [tauto|].
  intros [->|H]; [|now apply IH].
  apply fold_left_invariant.
  - apply spend_only_key_added.
  - intros s t0. apply spend_only_keys_grow.
Qed.

(** C4: in the sign-aware ledger the category breakdown is the sum of
    the absolute amounts of the expenses of the filtered set, grouped
    by category (a blank category counting as [Uncategorized]), in the
    order in which the categories are first met; when every amount of
    the filtered set is non-negative the breakdown is empty.  In the
    spend-only ledger every transaction of the filtered set has its
    category in the breakdown. *)
Theorem byCat_is_expense_breakdown
    (localeCompare : string -> string -> comparison) (st : State) :
  App.byCat (App.totals localeCompare st) = breakdown_spec (filteredTx st) /\
  (Forall (fun t => (0 <=? amount t)%float = true) (filteredTx st) ->
   App.byCat (App.totals localeCompare st) = []) /\
  (forall t, In t (filteredTx st) ->
             In (cat_key t) (map fst (SpendOnly.byCat st))).
Proof.
  simpl. rewrite byCatMap_spec. split; [reflexivity|]. split.
  - intros H. unfold breakdown_spec. now rewrite (no_expense_filter _ H).
  - intros t Ht. now apply spend_only_all_keys.
Qed.

Lemma byCat_is_expense_breakdown_witness :
  App.byCat (App.totals String.compare income_only_state) = [].
Proof.
  apply (byCat_is_expense_breakdown String.compare income_only_state).
  repeat constructor.
Defined.

(** The breakdown of the sample state: one expense category. *)
Example byCat_sample :
  App.byCat (App.totals String.compare sample_state)
  = [("Rent/Mortgage", 1200%float)].
Proof. reflexivity. Qed.

(** In the spend-only ledger a filtered set that holds one income
    only has a breakdown that is not empty. *)
Lemma spend_only_breakdown_counts_income :
  Forall (fun t => (0 <=? amount t)%float = true) (filteredTx spend_only_state) /\
  SpendOnly.byCat spend_only_state = [("Income", 1500%float)] /\
  SpendOnly.byCat spend_only_state <> [].
Proof. split; [repeat constructor|]. split; [reflexivity|discriminate]. Qed.

(** ** Goal progress *)

Lemma SFcompare_antisym (x y : spec_float) :
  SFcompare y x = option_map CompOpp (SFcompare x y).
Proof.
  destruct x as [sx|sx| |sx mx ex], y as [sy|sy| |sy my ey]; simpl;
    try reflexivity; try (destruct sx; reflexivity); try (destruct sy; reflexivity);
    try (destruct sx, sy; reflexivity).
  pose proof (Pos.compare_cont_antisym mx my Eq) as H. simpl in H.
  destruct sx, sy; try reflexivity; rewrite (Z.compare_antisym ex ey);
    destruct (ex ?= ey)%Z; simpl; try reflexivity; f_equal;
    change PosDef.Pos.compare_cont with Pos.compare_cont; rewrite H; reflexivity.
Qed.

Lemma leb_not_gt (x y : float) :
  (x <=? y)%float = true -> (y <? x)%float = false.
Proof.
  rewrite FloatAxioms.leb_spec, FloatAxioms.ltb_spec. unfold SFleb, SFltb.
  rewrite (SFcompare_antisym (Prim2SF x) (Prim2SF y)).
  destruct (SFcompare (Prim2SF x) (Prim2SF y)) as [[| |]|]; simpl; congruence.
Qed.

Lemma leb_not_nan_r (x y : float) :
  (x <=? y)%float = true -> JS.isNaN y = false.
Proof.
  unfold JS.isNaN. rewrite FloatAxioms.leb_spec, FloatAxioms.eqb_spec.
  unfold SFleb, SFeqb.
  destruct (Prim2SF x) as [sx|sx| |sx mx ex], (Prim2SF y) as [sy|sy| |sy my ey];
    simpl; try discriminate; intros _; try reflexivity;
    destruct sy; simpl; rewrite ?Z.compare_refl, ?Pos.compare_cont_refl; reflexivity.
Qed.

Lemma Math_min_100_capped (x : float) :
  JS.isNaN x = false -> (JS.Math_min 100 x <=? 100)%float = true.
Proof.
  intros Hn. unfold JS.Math_min. rewrite Hn.
  change (JS.isNaN 100) with false. cbv iota.
  change (JS.is_neg_zero 100) with false. cbv iota.
  revert Hn. unfold JS.isNaN.
  rewrite !FloatAxioms.leb_spec, !FloatAxioms.ltb_spec, !FloatAxioms.eqb_spec.
  unfold SFltb, SFleb, SFeqb.
  rewrite (SFcompare_antisym (Prim2SF x) (Prim2SF 100)).
  destruct (SFcompare (Prim2SF x) (Prim2SF 100)) as [[| |]|] eqn:E; simpl.
  all: rewrite ?FloatAxioms.leb_spec; unfold SFleb; rewrite ?E; try reflexivity.
  intros H. exfalso. revert E H.
  destruct (Prim2SF x) as [s|s| |s m e]; simpl; try discriminate.
Qed.

(** With a target that is not negative, [target || 1] is the target
    unless it is zero. *)
Lemma or_num_target (t : float) :
  (0 <=? t)%float = true ->
  JS.or_num t 1 = if (t =? 0)%float then 1%float else t.
Proof.
  intros H. unfold JS.or_num, JS.truthy_num.
  pose proof (leb_not_nan_r _ _ H) as Hn. unfold JS.isNaN in Hn.
  apply negb_false_iff in Hn. rewrite Hn, andb_true_r.
  destruct (t =? 0)%float; reflexivity.
Qed.

(** The progress of a zero amount over a positive divisor is a zero. *)
Lemma pct_of_zero (c d : float) (s : bool) :
  Prim2SF c = S754_zero s -> (0 <? d)%float = true ->
  Prim2SF (JS.Math_min 100 (JS.Math_round (c / d * 100)%float)) = S754_zero s.
Proof.
  intros Hc Hd.
  assert (Hq : Prim2SF (c / d * 100)%float = S754_zero s).
  { rewrite FloatAxioms.mul_spec, FloatAxioms.div_spec, Hc.
    revert Hd. rewrite FloatAxioms.ltb_spec.
    change (Prim2SF 0) with (S754_zero false).
    destruct (Prim2SF d) as [sd|sd| |sd md ed]; try discriminate;
      destruct sd; try discriminate; intros _; destruct s; reflexivity. }
  assert (Hr : JS.Math_round (c / d * 100)%float = (c / d * 100)%float).
  { unfold JS.Math_round. now rewrite Hq. }
  rewrite Hr. set (z := (c / d * 100)%float) in *.
  assert (Hm : JS.Math_min 100 z = z).
  { unfold JS.Math_min, JS.isNaN.
    change (100 =? 100)%float with true. cbv iota. simpl negb. cbv iota.
    rewrite !FloatAxioms.eqb_spec, !FloatAxioms.ltb_spec, Hq.
    destruct s; reflexivity. }
  now rewrite Hm.
Qed.

Lemma same_number_refl (x : float) : same_number x x = true.
Proof.
  unfold same_number, JS.isNaN. destruct (x =? x)%float; reflexivity.
Qed.

Lemma same_number_zeros (x y : float) (s s' : bool) :
  Prim2SF x = S754_zero s -> Prim2SF y = S754_zero s' -> same_number x y = true.
Proof.
  intros Hx Hy. unfold same_number. rewrite FloatAxioms.eqb_spec, Hx, Hy. reflexivity.
Qed.

Lemma divisor_pos (t : float) :
  (0 <=? t)%float = true ->
  (0 <? (if (t =? 0)%float then 1 else t))%float = true.
Proof.
  rewrite FloatAxioms.leb_spec, FloatAxioms.eqb_spec.
  change (Prim2SF 0) with (S754_zero false). unfold SFleb, SFeqb.
  destruct (Prim2SF t) as [st|st| |st mt et] eqn:E; simpl; try discriminate.
  - reflexivity.
  - destruct st; try discriminate. intros _.
    rewrite FloatAxioms.ltb_spec, E. reflexivity.
  - destruct st; try discriminate. intros _.
    rewrite FloatAxioms.ltb_spec, E. reflexivity.
Qed.

Lemma pct_is_rule (g : Goal) :
  (0 <=? current g)%float = true -> (0 <=? target g)%float = true ->
  same_number (pct g) (pct_rule g) = true.
Proof.
  intros Hc Ht. unfold pct, pct_rule. rewrite (or_num_target _ Ht).
  pose proof (divisor_pos _ Ht) as Hd.
  set (d := if (target g =? 0)%float then 1%float else target g) in *.
  unfold JS.or_num. destruct (JS.truthy_num (current g)) eqn:Etr.
  - apply same_number_refl.
  - assert (exists s, Prim2SF (current g) = S754_zero s) as [s Hs].
    { revert Hc Etr. unfold JS.truthy_num.
      rewrite FloatAxioms.leb_spec, !FloatAxioms.eqb_spec.
      change (Prim2SF 0) with (S754_zero false). unfold SFleb, SFeqb.
      destruct (Prim2SF (current g)) as [sc|sc| |sc mc ec]; simpl; try discriminate.
      - eauto.
      - destruct sc; discriminate.
      - destruct sc; try discriminate.
        rewrite Z.compare_refl, Pos.compare_cont_refl. discriminate. }
    apply (same_number_zeros _ _ false s).
    + apply pct_of_zero; [reflexivity|exact Hd].
    + apply pct_of_zero; [exact Hs|exact Hd].
Qed.

Lemma pct_spec_is_rule (g : Goal) :
  (target g =? 0)%float = true \/ (1 <=? target g)%float = true ->
  pct_spec g = pct_rule g.
Proof.
  unfold pct_spec, pct_rule. intros H.
  assert (E : JS.Math_max (target g) 1
              = if (target g =? 0)%float then 1%float else target g);
    [|now rewrite E].
  unfold JS.Math_max. change (JS.isNaN 1) with false. cbv iota.
  destruct H as [H|H].
  - rewrite H. revert H. unfold JS.isNaN, JS.is_neg_zero.
    rewrite !FloatAxioms.eqb_spec, !FloatAxioms.ltb_spec.
    change (Prim2SF 0) with (S754_zero false). unfold SFeqb, SFltb.
    destruct (Prim2SF (target g)) as [st|st| |st mt et]; simpl; try discriminate.
    + reflexivity.
    + destruct st; discriminate.
    + destruct st; discriminate.
  - rewrite (leb_not_nan_r _ _ H), (leb_not_gt _ _ H).
    assert (E0 : (target g =? 0)%float = false /\ JS.is_neg_zero (target g) = false).
    { revert H. unfold JS.is_neg_zero.
      rewrite FloatAxioms.leb_spec, FloatAxioms.eqb_spec.
      change (Prim2SF 0) with (S754_zero false).
      change (Prim2SF 1) with (S754_finite false 4503599627370496 (-52)).
      unfold SFleb, SFeqb.
      destruct (Prim2SF (target g)) as [st|st| |st mt et]; simpl; try discriminate.
      - destruct st; split; reflexivity.
      - destruct st; split; reflexivity. }
    destruct E0 as [-> ->]. destruct (1 <? target g)%float; reflexivity.
Qed.

(** ** Twice the target

    The product of two and a positive finite number is exact or
    overflows, and the quotient of the product by the number is two or
    infinite. *)

Section Doubling.

Local Open Scope Z_scope.

Lemma iter_pos_nat {A : Type} (f : A -> A) (p : positive) :
  forall x, iter_pos f p x = Nat.iter (Pos.to_nat p) f x.
Proof.
  induction p as [p IH|p IH|]; intros x; simpl iter_pos.
  - rewrite !IH, Pos2Nat.inj_xI. rewrite <- Nat.iter_add, Nat.iter_succ_r.
    f_equal. lia.
  - rewrite !IH, Pos2Nat.inj_xO. rewrite <- Nat.iter_add. f_equal. lia.
  - reflexivity.
Qed.

Lemma shr_1_double (z : Z) :
  0 < z -> shr_1 (Build_shr_record (2 * z) false false) = Build_shr_record z false false.
Proof. destruct z; try lia. reflexivity. Qed.

Lemma iter_shr_exact (k : nat) : forall z, 0 < z ->
  Nat.iter k shr_1 (Build_shr_record (z * 2 ^ Z.of_nat k) false false)
  = Build_shr_record z false false.
Proof.
  induction k as [|k IH]; intros z Hz.
  - simpl. now rewrite Z.mul_1_r.
  - rewrite Nat.iter_succ_r.
    replace (z * 2 ^ Z.of_nat (S k)) with (2 * (z * 2 ^ Z.of_nat k)).
    + rewrite shr_1_double; [now apply IH|]. apply Z.mul_pos_pos; [lia|].
      apply Z.pow_pos_nonneg; lia.
    + rewrite Nat2Z.inj_succ, Z.pow_succ_r by lia. ring.
Qed.

Lemma digits2_shift (k : nat) : forall m m' : positive,
  Z.pos m = Z.pos m' * 2 ^ Z.of_nat k ->
  Z.pos (digits2_pos m) = Z.pos (digits2_pos m') + Z.of_nat k.
Proof.
  induction k as [|k IH]; intros m m' H.
  - change (2 ^ Z.of_nat 0) with 1 in H. rewrite Z.mul_1_r in H.
    injection H as ->. simpl. lia.
  - rewrite Nat2Z.inj_succ, Z.pow_succ_r in H by lia.
    destruct m as [m1|m1|]; try lia.
    simpl digits2_pos. rewrite Pos2Z.inj_succ.
    rewrite (IH m1 m'); [lia|]. lia.
Qed.

(** Rounding a mantissa that is a canonical one shifted left gives
    back the canonical number. *)
Lemma binary_round_aux_exact (s : bool) (m m' : positive) (e : Z) (k : nat) :
  Z.pos m = Z.pos m' * 2 ^ Z.of_nat k ->
  canonical_mantissa prec emax m' (e + Z.of_nat k) = true ->
  binary_round_aux prec emax s (Z.pos m) e loc_Exact
  = if e + Z.of_nat k <=? emax - prec then S754_finite s m' (e + Z.of_nat k)
    else S754_infinity s.
Proof.
  intros Hm Hc. unfold canonical_mantissa in Hc. apply Z.eqb_eq in Hc.
  unfold binary_round_aux.
  assert (H1 : shr_fexp prec emax (Z.pos m) e loc_Exact
               = (Build_shr_record (Z.pos m') false false, e + Z.of_nat k)).
  { unfold shr_fexp. simpl Zdigits2. rewrite (digits2_shift k m m' Hm).
    replace (Z.pos (digits2_pos m') + Z.of_nat k + e)
      with (Z.pos (digits2_pos m') + (e + Z.of_nat k)) by lia.
    rewrite Hc. replace (e + Z.of_nat k - e) with (Z.of_nat k) by lia.
    unfold shr. destruct k as [|k].
    - change (2 ^ Z.of_nat 0) with 1 in Hm. rewrite Z.mul_1_r in Hm.
      rewrite Hm. simpl. now rewrite Z.add_0_r.
    - change (Z.of_nat (S k)) with (Z.pos (Pos.of_succ_nat k)) at 1.
      cbv iota. rewrite iter_pos_nat, SuccNat2Pos.id_succ.
      change (shr_record_of_loc (Z.pos m) loc_Exact)
        with (Build_shr_record (Z.pos m) false false).
      rewrite Hm, iter_shr_exact by lia. reflexivity. }
  rewrite H1. simpl loc_of_shr_record. simpl round_nearest_even. simpl shr_m.
  assert (H2 : shr_fexp prec emax (Z.pos m') (e + Z.of_nat k) loc_Exact
               = (Build_shr_record (Z.pos m') false false, e + Z.of_nat k)).
  { unfold shr_fexp. simpl Zdigits2. rewrite Hc. rewrite Z.sub_diag. reflexivity. }
  rewrite H2. reflexivity.
Qed.

Lemma div_eucl_exact (b q : Z) : 0 < b -> Z.div_eucl (b * q) b = (q, 0).
Proof.
  intros Hb. pose proof (Z_div_mod (b * q) b ltac:(lia)) as H.
  destruct (Z.div_eucl (b * q) b) as [q' r]. destruct H as [H1 H2].
  assert (q' = q) by nia. subst q'. f_equal. lia.
Qed.

Lemma SFdiv_core_two (m1 m2 : positive) (e1 e2 : Z) :
  Z.pos (digits2_pos m1) + e1 - (Z.pos (digits2_pos m2) + e2) = 1 ->
  0 <= e1 - e2 ->
  Z.pos m1 * 2 ^ (e1 - e2 + 52) = Z.pos m2 * 2 ^ 53 ->
  SFdiv_core_binary prec emax (Z.pos m1) e1 (Z.pos m2) e2
  = (2 ^ 53, -52, loc_Exact).
Proof.
  intros Hd He Hm. unfold SFdiv_core_binary. simpl Zdigits2. rewrite Hd.
  change (fexp prec emax 1) with (-52).
  rewrite Z.min_l by lia.
  replace (e1 - e2 - -52) with (e1 - e2 + 52) by lia.
  destruct (e1 - e2 + 52) as [|p|p] eqn:Es; try lia.
  rewrite Z.shiftl_mul_pow2 by lia. rewrite Hm.
  rewrite div_eucl_exact by lia.
  unfold new_location, new_location_even, new_location_odd.
  destruct (Z.even (Z.pos m2)); reflexivity.
Qed.

Lemma valid_cases (s : bool) (m : positive) (e : Z) :
  valid_binary (S754_finite s m e) = true ->
  e <= emax - prec /\
  ((Z.pos (digits2_pos m) = prec /\ emin <= e) \/
   (Z.pos (digits2_pos m) < prec /\ e = emin)).
Proof.
  simpl. unfold bounded, canonical_mantissa, fexp. intros H.
  apply andb_true_iff in H. destruct H as [H1 H2].
  apply Z.eqb_eq in H1. apply Z.leb_le in H2.
  unfold SpecFloat.emin, prec, emax in *. lia.
Qed.

(** Twice a positive finite number over that number is two, or is
    infinite when the doubling overflows. *)
Lemma double_over_self (t : float) :
  (0 <? t)%float = true -> (t <? infinity)%float = true ->
  (0 <? 2 * t)%float = true /\
  ((2 * t / t)%float = 2%float \/ (2 * t / t)%float = infinity).
Proof.
  rewrite !FloatAxioms.ltb_spec.
  change (Prim2SF 0) with (S754_zero false).
  change (Prim2SF infinity) with (S754_infinity false).
  pose proof (Prim2SF_valid t) as Hv.
  destruct (Prim2SF t) as [s|s| |s m e] eqn:Et; try discriminate;
    destruct s; try discriminate. intros _ _.
  destruct (valid_cases _ _ _ Hv) as [Hmax [[Hd He]|[Hd He]]].
  - assert (H2 : Prim2SF (2 * t)
                 = if e - 51 + Z.of_nat 52 <=? emax - prec
                   then S754_finite false m (e - 51 + Z.of_nat 52)
                   else S754_infinity false).
    { rewrite FloatAxioms.mul_spec, Et.
      change (Prim2SF 2) with (S754_finite false 4503599627370496 (-51)).
      unfold SF64mul, SFmul. change (xorb false false) with false.
      replace (-51 + e) with (e - 51) by lia.
      apply binary_round_aux_exact.
      - rewrite Pos2Z.inj_mul. change (2 ^ Z.of_nat 52) with 4503599627370496. lia.
      - unfold canonical_mantissa, fexp. apply Z.eqb_eq.
        unfold SpecFloat.emin, prec, emax in *. lia. }
    split; [rewrite H2; now destruct (e - 51 + Z.of_nat 52 <=? emax - prec)|].
    destruct (e - 51 + Z.of_nat 52 <=? emax - prec).
    + left. apply Prim2SF_inj. rewrite FloatAxioms.div_spec, H2, Et.
      unfold SF64div, SFdiv. rewrite SFdiv_core_two.
      * reflexivity.
      * lia.
      * lia.
      * replace (e - 51 + Z.of_nat 52 - e + 52) with 53 by lia. reflexivity.
    + right. apply Prim2SF_inj. rewrite FloatAxioms.div_spec, H2, Et. reflexivity.
  - assert (H2 : Prim2SF (2 * t) = S754_finite false (m~0) e).
    { rewrite FloatAxioms.mul_spec, Et.
      change (Prim2SF 2) with (S754_finite false 4503599627370496 (-51)).
      unfold SF64mul, SFmul. change (xorb false false) with false.
      replace (-51 + e) with (e - 51) by lia.
      rewrite (binary_round_aux_exact false _ (m~0) (e - 51) 51).
      - replace (e - 51 + Z.of_nat 51) with e by lia.
        apply Z.leb_le in Hmax. now rewrite Hmax.
      - rewrite Pos2Z.inj_mul. change (2 ^ Z.of_nat 51) with 2251799813685248. lia.
      - unfold canonical_mantissa, fexp. apply Z.eqb_eq. simpl digits2_pos.
        unfold SpecFloat.emin, prec, emax in *. lia. }
    split; [now rewrite H2|].
    left. apply Prim2SF_inj. rewrite FloatAxioms.div_spec, H2, Et.
    unfold SF64div, SFdiv. rewrite SFdiv_core_two.
    + reflexivity.
    + simpl digits2_pos. lia.
    + lia.
    + replace (e - e + 52) with 52 by lia.
      change (2 ^ 52) with 4503599627370496. change (2 ^ 53) with 9007199254740992. lia.
Qed.

End Doubling.

Lemma pct_double (g : Goal) :
  (0 <? target g)%float = true -> (target g <? infinity)%float = true ->
  current g = (2 * target g)%float -> pct g = 100%float.
Proof.
  intros Hpos Hfin Hc. unfold pct. rewrite Hc.
  destruct (double_over_self _ Hpos Hfin) as [H2 Hq].
  rewrite (or_num_pos _ _ H2), (or_num_pos _ _ Hpos).
  destruct Hq as [-> | ->]; reflexivity.
Qed.

(** C6: for a goal whose current amount and target are not negative,
    the progress percentage is [min(100, round(current / d * 100))]
    with [d] the target, or [1] when the target is zero; this is the
    value of the formula with [max(target, 1)] when the target is zero
    or at least one.  A percentage that is a number is at most [100];
    a current amount of twice a positive finite target gives [100],
    and a zero target with a zero current amount gives [0]. *)
Theorem pct_rule_and_cap (g : Goal) :
  (0 <=? current g)%float = true -> (0 <=? target g)%float = true ->
  same_number (pct g) (pct_rule g) = true /\
  ((target g =? 0)%float = true \/ (1 <=? target g)%float = true ->
   same_number (pct g) (pct_spec g) = true) /\
  (JS.isNaN (pct g) = false -> (pct g <=? 100)%float = true) /\
  ((0 <? target g)%float = true -> (target g <? infinity)%float = true ->
   current g = (2 * target g)%float -> pct g = 100%float) /\
  ((target g =? 0)%float = true -> (current g =? 0)%float = true ->
   same_number (pct g) 0 = true).
Proof.
  intros Hc Ht. split; [now apply pct_is_rule|]. split; [|split; [|split]].
  - intros H. rewrite (pct_spec_is_rule _ H). now apply pct_is_rule.
  - unfold pct. set (x := JS.Math_round _). intros Hn.
    destruct (JS.isNaN x) eqn:Ex.
    + exfalso. revert Hn. unfold JS.Math_min.
      change (JS.isNaN 100) with false. cbv iota. now rewrite Ex, Ex.
    + now apply Math_min_100_capped.
  - apply pct_double.
  - intros Ht0 Hc0. unfold pct, JS.or_num, JS.truthy_num.
    rewrite Ht0, Hc0. reflexivity.
Qed.

Lemma pct_rule_and_cap_witness :
  same_number (pct sample_goal) (pct_rule sample_goal) = true /\
  same_number (pct sample_goal) (pct_spec sample_goal) = true /\
  pct sample_goal = 100%float.
Proof.
  destruct (pct_rule_and_cap sample_goal eq_refl eq_refl) as (H1 & H2 & _ & H4 & _).
  split; [exact H1|]. split; [apply H2; right; reflexivity|].
  apply H4; reflexivity.
Defined.

(** A goal with nothing saved towards a zero target is at [0] percent. *)
Example pct_empty_goal : pct empty_goal = 0%float.
Proof. reflexivity. Qed.

(** A goal of half a unit with a quarter saved is at [50] percent,
    where the formula with [max(target, 1)] gives [25]. *)
Lemma pct_below_one_divides_by_target :
  (0 <=? current half_unit_goal)%float = true /\
  (0 <=? target half_unit_goal)%float = true /\
  pct half_unit_goal = 50%float /\
  pct_spec half_unit_goal = 25%float /\
  same_number (pct half_unit_goal) (pct_spec half_unit_goal) = false.
Proof. repeat split; reflexivity. Qed.

(** ** The implied monthly target *)

Lemma SFadd_comm (x y : spec_float) :
  SFadd prec emax x y = SFadd prec emax y x.
Proof.
  destruct x as [sx|sx| |sx mx ex], y as [sy|sy| |sy my ey]; simpl;
    try reflexivity; try (destruct sx, sy; reflexivity).
  now rewrite Z.min_comm, Z.add_comm.
Qed.

Lemma add_comm (x y : float) : (x + y)%float = (y + x)%float.
Proof.
  apply Prim2SF_inj. rewrite !FloatAxioms.add_spec. apply SFadd_comm.
Qed.

Lemma SFadd_zero_l (x : spec_float) :
  SFadd prec emax (S754_zero false) x
  = if is_zero_sf x then S754_zero false else x.
Proof. destruct x as [[|]| | |]; reflexivity. Qed.

Lemma SFadd_zero_r (x : spec_float) (s : bool) :
  is_zero_sf x = false -> SFadd prec emax x (S754_zero s) = x.
Proof. destruct x as [[|]|[|]| |]; simpl; try discriminate; reflexivity. Qed.

(** From zero, two numbers add up to the same sum in either order. *)
Lemma add_two_from_zero (a b : float) :
  (0 + a + b)%float = (0 + b + a)%float.
Proof.
  apply Prim2SF_inj. rewrite !FloatAxioms.add_spec.
  change (Prim2SF 0) with (S754_zero false). unfold SF64add.
  rewrite !SFadd_zero_l.
  destruct (is_zero_sf (Prim2SF a)) eqn:Ea, (is_zero_sf (Prim2SF b)) eqn:Eb.
  - destruct (Prim2SF a) as [sa| | |], (Prim2SF b) as [sb| | |]; try discriminate.
    destruct sa, sb; reflexivity.
  - rewrite SFadd_zero_l, Eb.
    destruct (Prim2SF a) as [sa| | |]; try discriminate.
    symmetry. now apply SFadd_zero_r.
  - rewrite SFadd_zero_l, Ea.
    destruct (Prim2SF b) as [sb| | |]; try discriminate.
    now apply SFadd_zero_r.
  - apply SFadd_comm.
Qed.

Section RoundingSign.

Local Open Scope Z_scope.

Lemma shr_fexp_nonneg m e l :
  0 <= m -> 0 <= shr_m (fst (shr_fexp prec emax m e l)).
Proof.
  intros Hm. unfold shr_fexp, shr.
  destruct (fexp prec emax (Zdigits2 m + e) - e) as [|n|n]; simpl;
    rewrite ?shr_record_of_loc_m; try lia.
  rewrite iter_pos_shr by (rewrite shr_record_of_loc_m; lia).
  rewrite shr_record_of_loc_m. apply Z.div_pos; [lia|].
  apply Z.pow_pos_nonneg; lia.
Qed.

Lemma round_nearest_even_nonneg m l : 0 <= m -> 0 <= round_nearest_even m l.
Proof.
  intros H. destruct l as [|[| |]]; simpl; try lia. destruct (Z.even m); lia.
Qed.

(** Rounding a mantissa that is not negative gives a zero, a finite
    number or an infinity of the sign asked for. *)
Lemma binary_round_aux_sign sx mx ex lx :
  0 <= mx ->
  match binary_round_aux prec emax sx mx ex lx with
  | S754_zero s | S754_infinity s | S754_finite s _ _ => s = sx
  | S754_nan => False
  end.
Proof.
  intros Hm. unfold binary_round_aux.
  pose proof (shr_fexp_nonneg mx ex lx Hm) as H1.
  destruct (shr_fexp prec emax mx ex lx) as [mrs' e']. simpl in H1.
  pose proof (round_nearest_even_nonneg _ (loc_of_shr_record mrs') H1) as H3.
  pose proof (shr_fexp_nonneg _ e' loc_Exact H3) as H4.
  destruct (shr_fexp prec emax _ e' loc_Exact) as [mrs'' e'']. simpl in H4.
  destruct (shr_m mrs'') as [|q|q]; try lia; [reflexivity|].
  destruct (e'' <=? emax - prec); reflexivity.
Qed.

Lemma SFdiv_core_nonneg m1 e1 m2 e2 :
  0 <= fst (fst (SFdiv_core_binary prec emax (Z.pos m1) e1 (Z.pos m2) e2)).
Proof.
  unfold SFdiv_core_binary.
  set (s := _ - _ - _).
  set (m' := match s with Z.pos _ => Z.shiftl (Z.pos m1) s | 0 => Z.pos m1 | _ => 0 end).
  assert (Hm' : 0 <= m').
  { unfold m'. destruct s; try lia. apply Z.shiftl_nonneg. lia. }
  pose proof (Z_div_mod m' (Z.pos m2) ltac:(lia)) as H.
  destruct (Z.div_eucl m' (Z.pos m2)) as [q r]. simpl.
  destruct H as [H1 H2]. nia.
Qed.

End RoundingSign.

(** The quotient of a positive number by a positive number is a zero or
    a positive number, which adding zero on the left does not change. *)
Lemma add_zero_div_pos (x y : float) :
  (0 <? x)%float = true -> (0 <? y)%float = true ->
  (0 + x / y)%float = (x / y)%float.
Proof.
  intros Hx Hy. apply Prim2SF_inj. revert Hx Hy.
  rewrite FloatAxioms.add_spec, FloatAxioms.div_spec, !FloatAxioms.ltb_spec.
  change (Prim2SF 0) with (S754_zero false). unfold SF64add, SF64div.
  destruct (Prim2SF x) as [sx|sx| |sx mx ex]; try discriminate;
    destruct sx; try discriminate;
    destruct (Prim2SF y) as [sy|sy| |sy my ey]; try discriminate;
    destruct sy; try discriminate; intros _ _; try reflexivity.
  unfold SFdiv.
  pose proof (SFdiv_core_nonneg mx ex my ey) as Hq.
  destruct (SFdiv_core_binary prec emax (Z.pos mx) ex (Z.pos my) ey) as [[mz ez] lz].
  simpl in Hq. pose proof (binary_round_aux_sign (xorb false false) mz ez lz Hq) as Hs.
  destruct (binary_round_aux prec emax (xorb false false) mz ez lz) as [s|s| |s m e];
    simpl in Hs; try contradiction; subst s; reflexivity.
Qed.

Lemma monthlyBudgetTarget_snoc (gs : list Goal) (g : Goal) :
  monthlyBudgetTarget (gs ++ [g])
  = (monthlyBudgetTarget gs + JS.or_num (target g) 0 / 12)%float.
Proof. unfold monthlyBudgetTarget. now rewrite fold_left_app. Qed.

Lemma monthlyBudgetTarget_single (g : Goal) :
  (0 <=? target g)%float = true ->
  monthlyBudgetTarget [g] = monthly_target_spec [g].
Proof.
  intros Ht. unfold monthlyBudgetTarget, monthly_target_spec, sum_targets. simpl.
  unfold JS.or_num. destruct (JS.truthy_num (target g)) eqn:Etr.
  - assert (Hpos : (0 <? target g)%float = true).
    { revert Ht Etr. unfold JS.truthy_num.
      rewrite FloatAxioms.leb_spec, FloatAxioms.ltb_spec, !FloatAxioms.eqb_spec.
      change (Prim2SF 0) with (S754_zero false). unfold SFleb, SFltb, SFeqb.
      destruct (Prim2SF (target g)) as [s|s| |s m e]; simpl; try discriminate;
        destruct s; try discriminate; reflexivity. }
    rewrite (add_zero_pos _ Hpos). now apply add_zero_div_pos.
  - assert (E : (0 + target g)%float = 0%float).
    { apply Prim2SF_inj. revert Ht Etr. unfold JS.truthy_num.
      rewrite FloatAxioms.add_spec, FloatAxioms.leb_spec, !FloatAxioms.eqb_spec.
      change (Prim2SF 0) with (S754_zero false). unfold SFleb, SFeqb.
      destruct (Prim2SF (target g)) as [s|s| |s m e]; simpl; try discriminate.
      - destruct s; reflexivity.
      - destruct s; discriminate.
      - destruct s; try discriminate.
        rewrite Z.compare_refl, Pos.compare_cont_refl. discriminate. }
    rewrite E. reflexivity.
Qed.

Lemma zero_add_truthy (x : float) :
  JS.truthy_num x = true -> (0 + x)%float = x.
Proof.
  intros H. apply Prim2SF_inj. revert H. unfold JS.truthy_num.
  rewrite FloatAxioms.add_spec, !FloatAxioms.eqb_spec.
  change (Prim2SF 0) with (S754_zero false). unfold SF64add. rewrite SFadd_zero_l.
  destruct (Prim2SF x) as [s|s| |s m e]; simpl; try discriminate; reflexivity.
Qed.

Lemma zero_add_falsy (x : float) :
  JS.isNaN x = false -> JS.truthy_num x = false -> (0 + x)%float = 0%float.
Proof.
  intros Hn H. apply Prim2SF_inj. revert Hn H. unfold JS.truthy_num, JS.isNaN.
  rewrite FloatAxioms.add_spec, !FloatAxioms.eqb_spec.
  change (Prim2SF 0) with (S754_zero false). unfold SF64add. rewrite SFadd_zero_l.
  unfold SFeqb.
  destruct (Prim2SF x) as [s|s| |s m e]; simpl; try discriminate; try reflexivity.
  - destruct s; discriminate.
  - destruct s; rewrite Z.compare_refl, Pos.compare_cont_refl; discriminate.
Qed.

Lemma zero_add_eqb (x : float) :
  JS.isNaN x = false -> (0 + x =? x)%float = true.
Proof.
  unfold JS.isNaN. rewrite !FloatAxioms.eqb_spec, FloatAxioms.add_spec.
  change (Prim2SF 0) with (S754_zero false). unfold SF64add. rewrite SFadd_zero_l.
  destruct (Prim2SF x) as [s|s| |s m e]; simpl; try discriminate; try reflexivity;
    intros H; apply negb_false_iff in H; exact H.
Qed.

Lemma div_finite_not_nan (x y : float) (sy : bool) (my : positive) (ey : Z) :
  JS.isNaN x = false -> Prim2SF y = S754_finite sy my ey ->
  JS.isNaN (x / y)%float = false.
Proof.
  unfold JS.isNaN. intros Hx Hy. apply negb_false_iff in Hx. apply negb_false_iff.
  revert Hx. rewrite !FloatAxioms.eqb_spec, FloatAxioms.div_spec, Hy.
  unfold SF64div.
  destruct (Prim2SF x) as [sx|sx| |sx mx ex]; try discriminate; intros _.
  - reflexivity.
  - simpl. now destruct (xorb sx sy).
  - unfold SFdiv.
    pose proof (SFdiv_core_nonneg mx ex my ey) as Hq.
    destruct (SFdiv_core_binary prec emax (Z.pos mx) ex (Z.pos my) ey) as [[mz ez] lz].
    simpl in Hq. pose proof (binary_round_aux_sign (xorb sx sy) mz ez lz Hq) as Hs.
    destruct (binary_round_aux prec emax (xorb sx sy) mz ez lz) as [s|s| |s m e];
      simpl in Hs; try contradiction; unfold SFeqb; simpl.
    + reflexivity.
    + now destruct s.
    + destruct s; now rewrite Z.compare_refl, Pos.compare_cont_refl.
Qed.

(** One goal whose target is a number: the implied monthly target is
    [target / 12] as a number. *)
Lemma monthlyBudgetTarget_single_number (g : Goal) :
  JS.isNaN (target g) = false ->
  same_number (monthlyBudgetTarget [g]) (monthly_target_spec [g]) = true.
Proof.
  intros Hn. unfold monthlyBudgetTarget, monthly_target_spec, sum_targets.
  cbn [fold_left]. unfold JS.or_num.
  destruct (JS.truthy_num (target g)) eqn:Etr.
  - rewrite (zero_add_truthy _ Etr). unfold same_number.
    rewrite zero_add_eqb; [reflexivity|].
    eapply div_finite_not_nan; [exact Hn|]. vm_compute. reflexivity.
  - rewrite (zero_add_falsy _ Hn Etr). reflexivity.
Qed.

(** C7: the implied monthly target is the sum, taken in the order of
    the list from zero, of the twelfth of each goal's target (a target
    that is zero or no number counting as zero); setting a filter does
    not change it; for one goal with a target that is not negative it
    is [sum(target) / 12], for one goal with any target that is a
    number it is so as a number (up to the sign of zero), and for two
    goals it is the same in either order. *)
Theorem monthlyBudgetTarget_in_list_order :
  monthlyBudgetTarget [] = 0%float /\
  (forall gs g, monthlyBudgetTarget (gs ++ [g])
                = (monthlyBudgetTarget gs + JS.or_num (target g) 0 / 12)%float) /\
  (forall st m c,
     monthlyBudgetTarget (goals (App.setFilterMonth m st))
     = monthlyBudgetTarget (goals st) /\
     monthlyBudgetTarget (goals (App.setFilterCategory c st))
     = monthlyBudgetTarget (goals st)) /\
  (forall g, (0 <=? target g)%float = true ->
             monthlyBudgetTarget [g] = monthly_target_spec [g]) /\
  (forall g1 g2, monthlyBudgetTarget [g1; g2] = monthlyBudgetTarget [g2; g1]) /\
  (forall g, JS.isNaN (target g) = false ->
             same_number (monthlyBudgetTarget [g]) (monthly_target_spec [g]) = true).
Proof.
  split; [reflexivity|]. split; [apply monthlyBudgetTarget_snoc|].
  split; [intros; split; reflexivity|].
  split; [apply monthlyBudgetTarget_single|].
  split; [|apply monthlyBudgetTarget_single_number].
  intros g1 g2. unfold monthlyBudgetTarget. simpl. apply add_two_from_zero.
Qed.

Lemma monthlyBudgetTarget_in_list_order_witness :
  monthlyBudgetTarget [sample_goal] = monthly_target_spec [sample_goal] /\
  same_number (monthlyBudgetTarget [goal_of_target "d" (-600)])
              (monthly_target_spec [goal_of_target "d" (-600)]) = true.
Proof.
  destruct monthlyBudgetTarget_in_list_order as (_ & _ & _ & H4 & _ & H6).
  split; [apply H4; reflexivity|apply H6; reflexivity].
Defined.

(** A target that is no number counts as nothing, where
    [sum(target) / 12] is no number. *)
Example monthlyBudgetTarget_nan_target :
  monthlyBudgetTarget [goal_of_target "n" nan] = 0%float /\
  JS.isNaN (monthly_target_spec [goal_of_target "n" nan]) = true.
Proof. split; reflexivity. Qed.

(** Three goals of 300, 200 and 100: taken in this order the implied
    monthly target is not [sum(target) / 12 = 50], and it is not what
    the same goals give in the reverse order. *)
Lemma monthlyBudgetTarget_depends_on_order :
  three_goals <> [] /\
  Permutation three_goals three_goals_reversed /\
  monthly_target_spec three_goals = 50%float /\
  monthlyBudgetTarget three_goals_reversed = 50%float /\
  (monthlyBudgetTarget three_goals =? monthly_target_spec three_goals)%float = false /\
  (monthlyBudgetTarget three_goals =? monthlyBudgetTarget three_goals_reversed)%float
  = false.
Proof.
  split; [discriminate|]. split.
  - unfold three_goals, three_goals_reversed.
    apply Permutation_sym, (Permutation_rev [_; _; _]).
  - repeat split; reflexivity.
Qed.

(** ** Categories of transactions and the registry *)

Lemma or_str_nonempty (v : option string) (d : string) :
  d <> EmptyString -> JS.or_str v d <> EmptyString.
Proof.
  intros Hd. destruct v as [[|c s]|]; simpl; auto. discriminate.
Qed.

Lemma parseCSV_categories (uuids : nat -> string) (text : string) :
  Forall (fun t => category t <> EmptyString) (App.parseCSV uuids text).
Proof.
  unfold App.parseCSV.
  destruct (JS.filter_Boolean (JS.split_lines text)) as [|first rest]; [constructor|].
  generalize (if App.hasHeader (App.header_cols first) then rest else first :: rest).
  intros rows. generalize 0%nat.
  induction rows as [|r rows IH]; intros i; simpl; constructor; auto.
  apply or_str_nonempty. discriminate.
Qed.

Lemma category_ok_grow (st st' : State) (c : string) :
  (forall x, In x (categories st) -> In x (categories st')) ->
  category_ok st c -> category_ok st' c.
Proof. unfold category_ok. intros H [H1|H1]; auto. Qed.

Lemma keeps_registry_step (st : State) (a : App.Action) :
  categories_registered st -> keeps_registry st a ->
  categories_registered (App.step st a).
Proof.
  intros Hinv Hok. destruct a as [u tx|i|u g|i|nm|us text|b|m|c]; simpl in *.
  - intros t [<-|Ht]; [exact Hok | now apply Hinv].
  - intros t Ht. apply filter_In in Ht. now apply Hinv.
  - exact Hinv.
  - exact Hinv.
  - unfold App.addCategory.
    destruct (negb (JS.truthy_str (JS.trim nm))); [exact Hinv|].
    destruct (negb (JS.includes (categories st) (JS.trim nm))); [|exact Hinv].
    intros t Ht. apply (category_ok_grow st); [|now apply Hinv].
    simpl. intros x Hx. apply in_app_iff. now left.
  - contradiction.
  - destruct b; [intros t []|exact Hinv].
  - exact Hinv.
  - exact Hinv.
Qed.

(** C9: from a fresh ledger, every run of calls that keep to the
    registry (any call but a CSV import, a new transaction carrying a
    registered or default category) ends in a state where each
    transaction's category is registered or is [Other] or
    [Uncategorized]; a CSV import gives each row a category that is not
    empty, without looking at the registry, which it leaves as it is. *)
Theorem categories_registered_without_import
    (month : string) (l : list App.Action) :
  all_keep_registry (App.initial month) l ->
  categories_registered (App.run (App.initial month) l) /\
  (forall uuids text st,
     Forall (fun t => category t <> EmptyString) (App.parseCSV uuids text) /\
     categories (App.importCSV uuids text st) = categories st).
Proof.
  intros H. split.
  - assert (Hinit : categories_registered (App.initial month)) by (intros t []).
    revert Hinit H. generalize (App.initial month). unfold App.run.
    induction l as [|a l IH]; intros st Hinv Hall; simpl; [exact Hinv|].
    inversion Hall as [|? ? ? Hok Hrest]; subst.
    apply IH; [now apply keeps_registry_step | exact Hrest].
  - intros uuids text st. split; [apply parseCSV_categories|].
    unfold App.importCSV.
    destruct (JS.filter_Boolean (JS.split_lines text)); reflexivity.
Qed.

Lemma categories_registered_without_import_witness :
  categories_registered
    (App.run (App.initial "2024-01")
       [App.AddCategory "Salary";
        App.AddTransaction "t1" (mkTxFields "2024-01-05" "Paycheck" 1500 "Salary");
        App.RemoveTransaction "t0"]).
Proof.
  apply categories_registered_without_import.
  apply akr_cons; [exact I|].
  apply akr_cons; [left; simpl; tauto|].
  apply akr_cons; [exact I|]. apply akr_nil.
Defined.

(** Importing one row whose category the registry does not have gives
    a reachable state that breaks the invariant. *)
Lemma import_breaks_category_invariant :
  ~ categories_registered
      (App.run (App.initial "2024-01") [App.ImportCSV sample_uuids salary_line]).
Proof.
  intros H.
  specialize (H (mkTransaction "uuid-0" "2024-01-05" "Paycheck" 1500 "Salary")
                (or_introl eq_refl)).
  unfold category_ok in H. simpl in H. intuition discriminate.
Qed.

(** ** Strings: characters, splitting and joining *)

Section StringFacts.

Local Open Scope string_scope.

Lemma mem_char_app (c : ascii) (a b : string) :
  mem_char c (a ++ b) = mem_char c a || mem_char c b.
Proof.
  induction a as [|d a IH]; simpl; [reflexivity|]. now rewrite IH, orb_assoc.
Qed.

Lemma all_chars_app (P : ascii -> bool) (a b : string) :
  all_chars P (a ++ b) = all_chars P a && all_chars P b.
Proof.
  induction a as [|d a IH]; simpl; [reflexivity|]. now rewrite IH, andb_assoc.
Qed.

Lemma all_chars_slice0 (P : ascii -> bool) (n : nat) (s : string) :
  all_chars P s = true -> all_chars P (JS.slice0 n s) = true.
Proof.
  revert s. induction n as [|n IH]; intros [|d s]; simpl; auto.
  intros H. apply andb_true_iff in H. destruct H as [-> H]. now apply IH.
Qed.

Lemma all_chars_substring (P : ascii -> bool) (n m : nat) (s : string) :
  all_chars P s = true -> all_chars P (String.substring n m s) = true.
Proof.
  revert n m. induction s as [|d s IH]; intros [|n] [|m]; simpl; auto.
  - intros H. apply andb_true_iff in H. destruct H as [-> H]. now apply IH.
  - intros H. apply andb_true_iff in H. destruct H as [_ H]. now apply IH.
  - intros H. apply andb_true_iff in H. destruct H as [_ H]. now apply IH.
Qed.

Lemma all_chars_not_mem (P : ascii -> bool) (c : ascii) (s : string) :
  P c = false -> all_chars P s = true -> mem_char c s = false.
Proof.
  intros Hc. induction s as [|d s IH]; simpl; [reflexivity|].
  intros H. apply andb_true_iff in H. destruct H as [Hd H].
  rewrite (IH H), orb_false_r.
  destruct (Ascii.eqb_spec d c) as [->|_]; [congruence|reflexivity].
Qed.

Lemma test_class_mem (cs : list ascii) (s : string) (c : ascii) :
  JS.test_class cs s = false -> In c cs -> mem_char c s = false.
Proof.
  intros H Hc. induction s as [|d s IH]; simpl in *; [reflexivity|].
  apply orb_false_iff in H. destruct H as [H1 H2]. rewrite (IH H2), orb_false_r.
  destruct (Ascii.eqb_spec d c) as [->|_]; [|reflexivity].
  rewrite <- H1. symmetry. apply existsb_exists. exists c. split; [exact Hc|].
  apply Ascii.eqb_refl.
Qed.

(** A field without the separator is one part of a split. *)
Lemma split_field (sep : ascii) (f rest : string) :
  mem_char sep f = false ->
  JS.split sep (f ++ String sep rest) = f :: JS.split sep rest.
Proof.
  induction f as [|d f IH]; simpl.
  - intros _. now rewrite Ascii.eqb_refl.
  - intros H. apply orb_false_iff in H. destruct H as [Hd Hf].
    rewrite Hd, (IH Hf). reflexivity.
Qed.

Lemma split_last (sep : ascii) (f : string) :
  mem_char sep f = false -> JS.split sep f = [f].
Proof.
  induction f as [|d f IH]; simpl; [reflexivity|].
  intros H. apply orb_false_iff in H. destruct H as [Hd Hf].
  rewrite Hd, (IH Hf). reflexivity.
Qed.

Lemma ends_with_CR_app (a b : string) :
  b <> EmptyString -> ends_with_CR (a ++ b) = ends_with_CR b.
Proof.
  intros Hb. induction a as [|c a IH]; simpl; [reflexivity|].
  destruct (a ++ b) eqn:E; [|exact IH].
  destruct a; simpl in E; [contradiction|discriminate].
Qed.

(** A line without a line feed that does not end in a carriage return
    is one part of the split into lines. *)
Lemma split_lines_line (a rest : string) :
  mem_char JS.LF a = false -> ends_with_CR a = false ->
  JS.split_lines (a ++ String JS.LF rest) = a :: JS.split_lines rest.
Proof.
  induction a as [|c a IH]; intros Hlf Hcr.
  - reflexivity.
  - simpl in Hlf. apply orb_false_iff in Hlf. destruct Hlf as [Hc Ha].
    change (String c a ++ String JS.LF rest)
      with (String c (a ++ String JS.LF rest)).
    cbn [JS.split_lines]. rewrite Hc.
    destruct a as [|d a'].
    + simpl in Hcr. simpl. rewrite Hcr. reflexivity.
    + change (String d a' ++ String JS.LF rest)
        with (String d (a' ++ String JS.LF rest)).
      simpl in Ha. apply orb_false_iff in Ha. destruct Ha as [Hd Ha'].
      rewrite Hd, andb_false_r.
      change (String d (a' ++ String JS.LF rest))
        with (String d a' ++ String JS.LF rest).
      rewrite IH; [reflexivity| simpl; now rewrite Hd | exact Hcr].
Qed.

Lemma split_lines_last (a : string) :
  mem_char JS.LF a = false -> JS.split_lines a = [a].
Proof.
  induction a as [|c a IH]; intros Hlf; [reflexivity|].
  simpl in Hlf. apply orb_false_iff in Hlf. destruct Hlf as [Hc Ha].
  cbn [JS.split_lines]. rewrite Hc. destruct a as [|d a']; [reflexivity|].
  pose proof Ha as Ha2. simpl in Ha2. apply orb_false_iff in Ha2.
  destruct Ha2 as [Hd _]. rewrite Hd, andb_false_r. now rewrite (IH Ha).
Qed.

Lemma split_lines_join (rows : list string) :
  Forall line_ok rows -> rows <> [] ->
  JS.split_lines (JS.join (String JS.LF EmptyString) rows) = rows.
Proof.
  induction 1 as [|a rows [Hlf [Hcr Hne]] Hall IH]; [congruence|]. intros _.
  destruct rows as [|b rows].
  - simpl. now apply split_lines_last.
  - change (JS.join (String JS.LF EmptyString) (a :: b :: rows))
      with (a ++ String JS.LF (JS.join (String JS.LF EmptyString) (b :: rows))).
    rewrite split_lines_line by assumption. f_equal. apply IH. discriminate.
Qed.

Lemma filter_Boolean_lines (rows : list string) :
  Forall line_ok rows -> JS.filter_Boolean rows = rows.
Proof.
  intros H. apply filter_id. intros x Hx.
  rewrite Forall_forall in H. destruct (H x Hx) as (_ & _ & Hne).
  destruct x; [contradiction|reflexivity].
Qed.

(** Trimming a string that has no white space at either end. *)
Lemma trim_plain (s : string) :
  all_chars (fun c => negb (JS.is_white c)) s = true -> JS.trim s = s.
Proof.
  unfold JS.trim. intros H.
  assert (H1 : JS.trimStart s = s).
  { destruct s as [|c s]; [reflexivity|]. simpl in *.
    apply andb_true_iff in H. destruct H as [Hc _].
    apply negb_true_iff in Hc. now rewrite Hc. }
  rewrite H1. clear H1. induction s as [|c s IH]; [reflexivity|].
  simpl in *. apply andb_true_iff in H. destruct H as [Hc H].
  apply negb_true_iff in Hc. rewrite (IH H), Hc. destruct s; reflexivity.
Qed.

(** *** The characters of the text of a number *)

Lemma digit_char_num (d : Z) :
  (0 <= d < 10)%Z -> num_char (JS.digit_char d) = true.
Proof.
  intros H. unfold JS.digit_char.
  assert (Hn : (Z.to_nat d < 10)%nat) by lia.
  remember (Z.to_nat d) as k eqn:Ek. clear Ek H.
  repeat (destruct k as [|k]; [reflexivity|]). lia.
Qed.

Lemma digits_of_num (fuel : nat) (n : Z) (acc : string) :
  all_chars num_char acc = true ->
  all_chars num_char (JS.digits_of fuel n acc) = true.
Proof.
  revert n acc. induction fuel as [|f IH]; intros n acc H; simpl; [exact H|].
  assert (Hacc : all_chars num_char (String (JS.digit_char (n mod 10)) acc) = true).
  { cbn [all_chars]. rewrite H, andb_true_r. apply digit_char_num.
    apply Z.mod_pos_bound. lia. }
  destruct (n <? 10)%Z; [exact Hacc|]. now apply IH.
Qed.

Lemma Z_to_string_num (n : Z) : all_chars num_char (JS.Z_to_string n) = true.
Proof. unfold JS.Z_to_string. now apply digits_of_num. Qed.

Lemma zeros_num (n : nat) : all_chars num_char (JS.zeros n) = true.
Proof. induction n; simpl; auto. Qed.

Lemma format_decimal_num (s n k : Z) :
  all_chars num_char (JS.format_decimal s n k) = true.
Proof.
  unfold JS.format_decimal.
  pose proof (Z_to_string_num s) as Hs.
  repeat match goal with
         | |- context [if ?b then _ else _] => destruct b
         end;
    repeat (rewrite all_chars_app; apply andb_true_iff; split);
    auto using zeros_num, Z_to_string_num, all_chars_slice0, all_chars_substring.
Qed.

(** The text of a number is made of digits, a point, an exponent mark,
    signs and the letters of [Infinity] and [NaN]. *)
Lemma Number_toString_num (x : float) :
  all_chars num_char (JS.Number_toString x) = true.
Proof.
  unfold JS.Number_toString.
  destruct (Prim2SF x) as [s|s| |sg m e]; try reflexivity.
  - destruct s; reflexivity.
  - destruct (JS.shortest _ _ _ _ _ _) as [[s n'] k].
    rewrite all_chars_app, format_decimal_num, andb_true_r.
    destruct sg; reflexivity.
Qed.

Lemma all_chars_impl (P Q : ascii -> bool) (s : string) :
  (forall c, P c = true -> Q c = true) ->
  all_chars P s = true -> all_chars Q s = true.
Proof.
  intros HPQ. induction s as [|c s IH]; simpl; [reflexivity|].
  intros H. apply andb_true_iff in H. destruct H as [Hc H].
  now rewrite (HPQ c Hc), IH.
Qed.

Lemma num_char_not_white (c : ascii) :
  num_char c = true -> negb (JS.is_white c) = true.
Proof.
  destruct c as [[] [] [] [] [] [] [] []]; try reflexivity; discriminate.
Qed.

Lemma Number_toString_trim (x : float) :
  JS.trim (JS.Number_toString x) = JS.Number_toString x.
Proof.
  apply trim_plain.
  apply (all_chars_impl num_char); [apply num_char_not_white|].
  apply Number_toString_num.
Qed.

Lemma Number_toString_no (c : ascii) (x : float) :
  num_char c = false -> mem_char c (JS.Number_toString x) = false.
Proof.
  intros H. apply (all_chars_not_mem num_char); [exact H|].
  apply Number_toString_num.
Qed.

End StringFacts.

(** ** The CSV round trip *)

Section RoundTrip.

Local Open Scope string_scope.

Lemma header_cols5 : App.header_cols header5 = cols5.
Proof. reflexivity. Qed.

Lemma replaceAll_absent (c : ascii) (r s : string) :
  mem_char c s = false -> JS.replaceAll c r s = s.
Proof.
  induction s as [|d s IH]; simpl; [reflexivity|].
  intros H. apply orb_false_iff in H. destruct H as [Hd Hs].
  now rewrite Hd, (IH Hs).
Qed.

Lemma cleanCSV_safe (s : string) :
  JS.test_class [DQUOTE; ","%char; JS.LF] s = false -> cleanCSV s = s.
Proof.
  intros H. unfold cleanCSV. rewrite H. apply replaceAll_absent.
  apply (test_class_mem _ _ _ H). now left.
Qed.

Lemma export_row_safe (t : Transaction) :
  csv_safe t ->
  App.export_row t =
  date t ++ String "," (description t ++ String "," (JS.Number_toString (amount t)
    ++ String "," (category t ++ String "," (type_of (amount t))))).
Proof.
  intros (_ & _ & [Hd _] & [Hc _] & _). unfold App.export_row.
  rewrite (cleanCSV_safe _ Hd), (cleanCSV_safe _ Hc). reflexivity.
Qed.

Lemma field_no (c : ascii) (s : string) :
  field_safe s -> In c [DQUOTE; ","%char; JS.LF] -> mem_char c s = false.
Proof. intros [H _] Hc. exact (test_class_mem _ _ _ H Hc). Qed.

Lemma date_no (c : ascii) (s : string) :
  date_safe s -> In c [","%char; JS.LF] -> mem_char c s = false.
Proof. intros [H _] Hc. exact (test_class_mem _ _ _ H Hc). Qed.

Lemma split_export_row (t : Transaction) :
  csv_safe t ->
  map JS.trim (JS.split "," (App.export_row t)) =
  [date t; description t; JS.Number_toString (amount t); category t;
   type_of (amount t)].
Proof.
  intros Hs. rewrite (export_row_safe _ Hs).
  destruct Hs as (Hdt & _ & Hd & Hc & _).
  assert (Hin : In ","%char [DQUOTE; ","%char; JS.LF]) by (right; now left).
  rewrite split_field by (apply (date_no _ _ Hdt); now left).
  rewrite split_field by (exact (field_no _ _ Hd Hin)).
  rewrite split_field by (apply Number_toString_no; reflexivity).
  rewrite split_field by (exact (field_no _ _ Hc Hin)).
  rewrite split_last by (unfold type_of; destruct (amount t <? 0)%float; reflexivity).
  simpl. rewrite (proj2 Hdt), (proj2 Hd), (proj2 Hc), Number_toString_trim.
  unfold type_of. destruct (amount t <? 0)%float; reflexivity.
Qed.

Lemma mem_char_sep (c sep : ascii) (f rest : string) :
  mem_char c (f ++ String sep rest)
  = mem_char c f || (Ascii.eqb sep c || mem_char c rest).
Proof. now rewrite mem_char_app. Qed.

Lemma ends_with_CR_sep (sep : ascii) (f rest : string) :
  rest <> EmptyString -> ends_with_CR (f ++ String sep rest) = ends_with_CR rest.
Proof.
  intros H. rewrite ends_with_CR_app by discriminate.
  destruct rest; [contradiction|reflexivity].
Qed.

Lemma line_ok_export_row (t : Transaction) : csv_safe t -> line_ok (App.export_row t).
Proof.
  intros Hs. rewrite (export_row_safe _ Hs).
  destruct Hs as (Hdt & _ & Hd & Hc & _).
  assert (Hin : In JS.LF [DQUOTE; ","%char; JS.LF]) by (right; right; now left).
  assert (Hty : mem_char JS.LF (type_of (amount t)) = false)
    by (unfold type_of; destruct (amount t <? 0)%float; reflexivity).
  split; [|split].
  - rewrite !mem_char_sep.
    rewrite (date_no _ _ Hdt (or_intror (or_introl eq_refl))).
    rewrite (field_no _ _ Hd Hin), (field_no _ _ Hc Hin), Hty.
    rewrite (Number_toString_no JS.LF) by reflexivity. reflexivity.
  - assert (Hne : forall f rest, f ++ String ","%char rest <> EmptyString)
      by (intros [|] ?; discriminate).
    assert (Hty' : type_of (amount t) <> EmptyString)
      by (unfold type_of; destruct (amount t <? 0)%float; discriminate).
    rewrite !ends_with_CR_sep by auto.
    unfold type_of. destruct (amount t <? 0)%float; reflexivity.
  - destruct (date t); discriminate.
Qed.

(** Two numbers that are equal as numbers are the same number, or
    are two zeros. *)
Lemma eqb_true_cases (p a : float) :
  (p =? a)%float = true ->
  p = a \/ (exists s s', Prim2SF p = S754_zero s /\ Prim2SF a = S754_zero s').
Proof.
  rewrite FloatAxioms.eqb_spec. unfold SFeqb. intros H.
  destruct (Prim2SF p) as [sp|sp| |sp mp ep] eqn:Ep,
           (Prim2SF a) as [sa|sa| |sa ma ea] eqn:Ea;
    simpl in H; try discriminate H;
    try (destruct sp; discriminate H); try (destruct sa; discriminate H).
  - right. eauto.
  - left. apply Prim2SF_inj. rewrite Ep, Ea. destruct sp, sa; try discriminate H; reflexivity.
  - left. apply Prim2SF_inj. rewrite Ep, Ea.
    destruct sp, sa; try discriminate H;
      destruct (ep ?= ea)%Z eqn:Ez; try discriminate H;
      apply Z.compare_eq in Ez; subst ea;
      destruct (Pos.compare_cont Eq mp ma) eqn:Em; try discriminate H;
      apply Pos.compare_eq in Em; subst ma; reflexivity.
Qed.

Lemma Number_toString_zero (x : float) (s : bool) :
  Prim2SF x = S754_zero s -> JS.Number_toString x = "0".
Proof. intros H. unfold JS.Number_toString. now rewrite H. Qed.

(** What the import makes of an exported amount has the text and the
    type of the amount that was exported. *)
Lemma reimported_amount (a : float) :
  (JS.parseFloat (JS.Number_toString a) =? a)%float = true ->
  let amt := JS.or_num (JS.parseFloat (JS.Number_toString a)) 0 in
  let a' := if JS.startsWith "exp" (JS.toLowerCase (type_of a))
            then (- JS.Math_abs amt)%float else JS.Math_abs amt in
  JS.Number_toString a' = JS.Number_toString a /\ type_of a' = type_of a.
Proof.
  intros H amt a'. subst amt a'.
  assert (Hta : type_of a = if (a <? 0)%float then "expense" else "income")
    by reflexivity.
  destruct (a <? 0)%float eqn:Hneg; rewrite !Hta.
  - change (JS.startsWith "exp" (JS.toLowerCase "expense")) with true. cbv iota.
    destruct (eqb_true_cases _ _ H) as [E|(s & s' & _ & Ea)].
    + rewrite E, (or_num_neg _ _ Hneg), (opp_abs_of_neg _ Hneg). auto.
    + exfalso. revert Hneg. rewrite FloatAxioms.ltb_spec, Ea. discriminate.
  - change (JS.startsWith "exp" (JS.toLowerCase "income")) with false. cbv iota.
    destruct (eqb_true_cases _ _ H) as [E|(s & s' & Ep & Ea)].
    + rewrite E. unfold JS.or_num. destruct (JS.truthy_num a) eqn:Etr.
      * assert (Hpos : (0 <? a)%float = true).
        { revert Hneg Etr. unfold JS.truthy_num.
          rewrite !FloatAxioms.ltb_spec, !FloatAxioms.eqb_spec.
          change (Prim2SF 0) with (S754_zero false). unfold SFltb, SFeqb.
          destruct (Prim2SF a) as [sa|sa| |sa ma ea]; simpl; try discriminate;
            destruct sa; try discriminate; reflexivity. }
        rewrite (abs_of_pos _ Hpos). auto.
      * assert (exists s, Prim2SF a = S754_zero s) as [s Hs].
        { revert H Etr. rewrite E. unfold JS.truthy_num.
          rewrite !FloatAxioms.eqb_spec.
          change (Prim2SF 0) with (S754_zero false). unfold SFeqb.
          destruct (Prim2SF a) as [sa|sa| |sa ma ea]; simpl; try discriminate.
          - eauto.
          - destruct sa; discriminate.
          - destruct sa; rewrite Z.compare_refl, Pos.compare_cont_refl; discriminate. }
        rewrite (Number_toString_zero _ _ Hs). split; reflexivity.
    + assert (Ez : JS.or_num (JS.parseFloat (JS.Number_toString a)) 0 = 0%float).
      { unfold JS.or_num, JS.truthy_num. rewrite !FloatAxioms.eqb_spec, Ep. reflexivity. }
      rewrite Ez, (Number_toString_zero _ _ Ea). split; reflexivity.
Qed.

Lemma amount_field_default (s : string) :
  JS.or_num (JS.parseFloat (JS.or_str (Some s) "0")) 0
  = JS.or_num (JS.parseFloat s) 0.
Proof. destruct s; reflexivity. Qed.

Lemma or_str_self (s d : string) : s <> EmptyString -> JS.or_str (Some s) d = s.
Proof. destruct s; [contradiction|reflexivity]. Qed.

Lemma or_str_empty_default (s : string) : JS.or_str (Some s) EmptyString = s.
Proof. destruct s; reflexivity. Qed.

(** A row of the export, read under the header of the export, gives a
    transaction that exports to the same row. *)
Lemma parse_export_row (u : string) (t : Transaction) :
  csv_safe t ->
  App.export_row (App.parse_row cols5 u (App.export_row t)) = App.export_row t.
Proof.
  intros Hs. pose proof (split_export_row _ Hs) as Hsplit.
  pose proof Hs as (Hdt & Hlen & Hd & Hc & Hne & Ha).
  destruct (reimported_amount _ Ha) as [Htxt Hty].
  unfold App.parse_row. rewrite Hsplit.
  change (App.hasHeader cols5) with true. change (App.hasType cols5) with true.
  cbv iota.
  change (JS.indexOf cols5 "date") with 0%Z.
  change (JS.indexOf cols5 "description") with 1%Z.
  change (JS.indexOf cols5 "amount") with 2%Z.
  change (JS.indexOf cols5 "category") with 3%Z.
  change (JS.indexOf cols5 "type") with 4%Z.
  cbv beta iota zeta delta [JS.get nth_error Z.to_nat Pos.to_nat Pos.iter_op
                            Z.ltb Z.compare Nat.add].
  rewrite !or_str_empty_default, amount_field_default, (or_str_self _ _ Hne), Hlen.
  unfold App.export_row. cbn [date description amount category].
  fold (type_of (amount t)).
  match goal with
  | |- context [JS.Number_toString ?x] =>
      match x with
      | amount t => fail 1
      | _ => set (a' := x)
      end
  end.
  fold (type_of a').
  change (JS.Number_toString a' = JS.Number_toString (amount t)) in Htxt.
  change (type_of a' = type_of (amount t)) in Hty.
  now rewrite Htxt, Hty.
Qed.

Lemma reexport_rows (uuids : nat -> string) (txs : list Transaction) :
  Forall csv_safe txs ->
  forall i,
    map App.export_row
        (map_with_uuid uuids (App.parse_row cols5) i (map App.export_row txs))
    = map App.export_row txs.
Proof.
  induction 1 as [|t txs Ht _ IH]; intros i; simpl; [reflexivity|].
  now rewrite (parse_export_row _ _ Ht), IH.
Qed.

Lemma lines_of_export (txs : list Transaction) :
  Forall csv_safe txs ->
  JS.filter_Boolean (JS.split_lines (App.exportCSV txs))
  = header5 :: map App.export_row txs.
Proof.
  intros Hs. unfold App.exportCSV.
  change ("date,description,amount,category,type" ++ String JS.LF EmptyString ++ ?x)
    with (header5 ++ String JS.LF x).
  rewrite split_lines_line by reflexivity.
  assert (Hrows : Forall line_ok (map App.export_row txs)).
  { apply Forall_forall. intros r Hr. apply in_map_iff in Hr.
    destruct Hr as (t & <- & Ht). apply line_ok_export_row.
    rewrite Forall_forall in Hs. now apply Hs. }
  destruct txs as [|t txs]; [reflexivity|].
  rewrite split_lines_join; [|exact Hrows|discriminate].
  unfold JS.filter_Boolean. cbn [filter JS.truthy_str header5]. f_equal.
  now apply filter_Boolean_lines.
Qed.

End RoundTrip.

(** C3: for transactions whose date, description and category have no
    double quote, comma or line feed and no white space at either end,
    with a date of at most ten characters, a category that is not
    empty and an amount that its decimal text reads back to, exporting,
    importing the text and exporting again gives the text of the first
    export. *)
Theorem export_import_export
    (uuids : nat -> string) (txs : list Transaction) :
  Forall csv_safe txs ->
  App.exportCSV (App.parseCSV uuids (App.exportCSV txs)) = App.exportCSV txs.
Proof.
  intros Hs. unfold App.parseCSV. rewrite (lines_of_export _ Hs).
  cbv zeta. rewrite header_cols5.
  change (App.hasHeader cols5) with true. cbv iota.
  unfold App.exportCSV. now rewrite reexport_rows.
Qed.

Lemma export_import_export_witness :
  App.exportCSV (App.parseCSV sample_uuids (App.exportCSV safe_txs))
  = App.exportCSV safe_txs.
Proof.
  apply (export_import_export sample_uuids safe_txs).
  repeat constructor; try reflexivity; try discriminate.
Defined.

(** A description with a leading space, and no comma, double quote or
    line feed: the import trims it, and the second export differs from
    the first. *)
Lemma export_import_export_trims :
  JS.test_class [DQUOTE; ","%char; JS.LF] " Coffee" = false /\
  JS.test_class [DQUOTE; ","%char; JS.LF] "Dining Out" = false /\
  App.exportCSV (App.parseCSV sample_uuids (App.exportCSV padded_txs))
  <> App.exportCSV padded_txs.
Proof.
  split; [reflexivity|]. split; [reflexivity|]. vm_compute. discriminate.
Qed.

(** The other conditions of the safe subset are needed as well: a
    blank category comes back as [Other], a date is cut after ten
    characters, an amount that is no number comes back as [0], a comma
    or a line feed in the date moves the fields, the date is trimmed
    like the other fields, and a double quote in the description is
    doubled at every export. *)
Example export_import_export_other_conditions :
  App.exportCSV (App.parseCSV sample_uuids (App.exportCSV blank_category_txs))
  <> App.exportCSV blank_category_txs /\
  App.exportCSV (App.parseCSV sample_uuids (App.exportCSV long_date_txs))
  <> App.exportCSV long_date_txs /\
  App.exportCSV (App.parseCSV sample_uuids (App.exportCSV nan_amount_txs))
  <> App.exportCSV nan_amount_txs /\
  App.exportCSV (App.parseCSV sample_uuids (App.exportCSV comma_date_txs))
  <> App.exportCSV comma_date_txs /\
  App.exportCSV (App.parseCSV sample_uuids (App.exportCSV line_feed_date_txs))
  <> App.exportCSV line_feed_date_txs /\
  App.exportCSV (App.parseCSV sample_uuids (App.exportCSV padded_date_txs))
  <> App.exportCSV padded_date_txs /\
  App.exportCSV (App.parseCSV sample_uuids (App.exportCSV quoted_description_txs))
  <> App.exportCSV quoted_description_txs.
Proof. repeat split; vm_compute; discriminate. Qed.

(** A double quote in the date does no harm, as the date is written
    and read as it is. *)
Example export_import_export_quoted_date :
  App.exportCSV (App.parseCSV sample_uuids (App.exportCSV quoted_date_txs))
  = App.exportCSV quoted_date_txs.
Proof. vm_compute. reflexivity. Qed.

(** * Further properties of the component *)

(** ** The category registry *)

Section TrimFacts.

Local Open Scope string_scope.

Lemma trimEnd_cons (c : ascii) (s : string) :
  JS.trimEnd (String c s) =
  match JS.trimEnd s with
  | EmptyString => if JS.is_white c then EmptyString else String c EmptyString
  | r => String c r
  end.
Proof. reflexivity. Qed.

Lemma trimEnd_idem (s : string) : JS.trimEnd (JS.trimEnd s) = JS.trimEnd s.
Proof.
  induction s as [|c s IH]; [reflexivity|].
  rewrite trimEnd_cons. destruct (JS.trimEnd s) as [|d r] eqn:E.
  - destruct (JS.is_white c) eqn:Ec; [reflexivity|].
    rewrite trimEnd_cons. cbn [JS.trimEnd]. now rewrite Ec.
  - rewrite trimEnd_cons, IH. reflexivity.
Qed.

Lemma trimStart_head (s : string) :
  match JS.trimStart s with
  | EmptyString => True
  | String c _ => JS.is_white c = false
  end.
Proof.
  induction s as [|c s IH]; simpl; [exact I|].
  destruct (JS.is_white c) eqn:Ec; [exact IH|exact Ec].
Qed.

Lemma trimEnd_head (c : ascii) (s : string) :
  JS.trimEnd (String c s) = EmptyString \/
  exists r, JS.trimEnd (String c s) = String c r.
Proof.
  rewrite trimEnd_cons. destruct (JS.trimEnd s).
  - destruct (JS.is_white c); eauto.
  - eauto.
Qed.

(** Trimming a second time changes nothing. *)
Lemma trim_idem (s : string) : JS.trim (JS.trim s) = JS.trim s.
Proof.
  unfold JS.trim. pose proof (trimStart_head s) as Hh.
  destruct (JS.trimStart s) as [|c r] eqn:E; [reflexivity|].
  destruct (trimEnd_head c r) as [H|[r' H]]; rewrite H.
  - reflexivity.
  - cbn [JS.trimStart]. rewrite Hh, <- H. apply trimEnd_idem.
Qed.

End TrimFacts.

Lemma truthy_str_nonempty (s : string) :
  JS.truthy_str s = true <-> s <> EmptyString.
Proof. destruct s; simpl; split; congruence. Qed.

Lemma addCategory_registry_ok (nm : string) (st : State) :
  registry_ok (categories st) -> registry_ok (categories (App.addCategory nm st)).
Proof.
  intros (Hnd & Hall & Hdef). unfold App.addCategory.
  destruct (JS.truthy_str (JS.trim nm)) eqn:Et; simpl; [|now repeat split].
  destruct (JS.includes (categories st) (JS.trim nm)) eqn:Ei; simpl;
    [now repeat split|].
  apply includes_false in Ei. apply truthy_str_nonempty in Et.
  split; [now apply NoDup_snoc|]. split.
  - apply Forall_app. split; [exact Hall|].
    constructor; [|constructor]. split; [exact Et|apply trim_idem].
  - intros x Hx. apply in_app_iff. left. now apply Hdef.
Qed.

Lemma default_registry_ok : registry_ok App.DEFAULT_CATEGORIES.
Proof.
  split; [|split].
  - unfold App.DEFAULT_CATEGORIES.
    repeat (constructor; [simpl; intuition discriminate|]). constructor.
  - unfold App.DEFAULT_CATEGORIES.
    repeat (constructor; [split; [discriminate|reflexivity]|]). constructor.
  - apply incl_refl.
Qed.

(** X1: in every state reached from a fresh ledger, by any calls, the
    registry has no name twice, no blank name, only trimmed names, and
    all the default names. *)
Theorem registry_always_ok (month : string) (l : list App.Action) :
  registry_ok (categories (App.run (App.initial month) l)).
Proof.
  assert (H0 : registry_ok (categories (App.initial month)))
    by apply default_registry_ok.
  revert H0. generalize (App.initial month). unfold App.run.
  induction l as [|a l IH]; intros st Hst; simpl; [exact Hst|].
  apply IH. destruct a as [u tx|i|u g|i|nm|us text|b|m|c]; simpl; try exact Hst.
  - now apply addCategory_registry_ok.
  - unfold App.importCSV.
    destruct (JS.filter_Boolean (JS.split_lines text)); exact Hst.
  - destruct b; [apply default_registry_ok|exact Hst].
Qed.

(** X2: adding a category whose name is not blank puts its trimmed name
    in the registry; names that differ only by white space around them
    are the same category, adding a name a second time changes
    nothing, and a blank name changes nothing. *)
Theorem addCategory_trims_and_is_idempotent (nm : string) (st : State) :
  (JS.trim nm <> EmptyString ->
   In (JS.trim nm) (categories (App.addCategory nm st))) /\
  App.addCategory (JS.trim nm) st = App.addCategory nm st /\
  App.addCategory nm (App.addCategory nm st) = App.addCategory nm st /\
  (JS.trim nm = EmptyString -> App.addCategory nm st = st).
Proof.
  split; [|split; [|split]].
  - intros Hne. unfold App.addCategory.
    apply truthy_str_nonempty in Hne. rewrite Hne. simpl.
    destruct (JS.includes (categories st) (JS.trim nm)) eqn:Ei; simpl.
    + now apply includes_In.
    + apply in_app_iff. right. now left.
  - unfold App.addCategory. now rewrite trim_idem.
  - destruct (JS.truthy_str (JS.trim nm)) eqn:Et.
    + destruct (JS.includes (categories st) (JS.trim nm)) eqn:Ei.
      * assert (E : App.addCategory nm st = st)
          by (unfold App.addCategory; now rewrite Et, Ei).
        now rewrite !E.
      * assert (E : App.addCategory nm st
                    = App.set_categories st (categories st ++ [JS.trim nm]))
          by (unfold App.addCategory; now rewrite Et, Ei).
        rewrite E. unfold App.addCategory at 1. rewrite Et. simpl.
        assert (Hin : JS.includes (categories st ++ [JS.trim nm]) (JS.trim nm) = true).
        { apply includes_In, in_app_iff. right. now left. }
        now rewrite Hin.
    + assert (E : App.addCategory nm st = st)
        by (unfold App.addCategory; now rewrite Et).
      now rewrite !E.
  - intros He. unfold App.addCategory. now rewrite He.
Qed.

Lemma addCategory_trims_and_is_idempotent_witness :
  In "Salary" (categories (App.addCategory "  Salary " sample_state)).
Proof.
  apply (addCategory_trims_and_is_idempotent "  Salary " sample_state).
  discriminate.
Defined.

(** A name of no-break spaces is blank. *)
Example addCategory_no_break_space (st : State) :
  App.addCategory (NBSP ++ NBSP)%string st = st.
Proof. reflexivity. Qed.

(** ** Adding and removing *)

(** X3: removing the transaction that was just added, under an
    identifier no other transaction has, gives back the state before
    the addition; the same holds for goals, and removing a goal
    identifier that no goal has changes nothing. *)
Theorem add_then_remove_undoes
    (u : string) (tx : TxFields) (g : GoalFields) (st : State) :
  (~ In u (map id (transactions st)) ->
   App.removeTransaction u (App.addTransaction u tx st) = st) /\
  (~ In u (map goal_id (goals st)) ->
   App.removeGoal u (App.addGoal u g st) = st /\ App.removeGoal u st = st).
Proof.
  split.
  - intros H. unfold App.removeTransaction, App.addTransaction, App.set_transactions.
    simpl. rewrite String.eqb_refl. simpl.
    rewrite filter_id; [now destruct st|].
    intros t Ht. apply negb_true_iff, String.eqb_neq. intros E.
    apply H. rewrite <- E. now apply in_map.
  - intros H.
    assert (Hf : filter (fun g0 => negb (String.eqb (goal_id g0) u)) (goals st)
                 = goals st).
    { apply filter_id. intros g0 Hg. apply negb_true_iff, String.eqb_neq.
      intros E. apply H. rewrite <- E. now apply in_map. }
    unfold App.removeGoal, App.addGoal, App.set_goals. simpl.
    rewrite String.eqb_refl. simpl. rewrite Hf. now destruct st.
Qed.

Lemma add_then_remove_undoes_witness :
  App.removeTransaction "t9" (App.addTransaction "t9" sample_fields sample_state)
  = sample_state /\
  App.removeGoal "g9" (App.addGoal "g9" sample_goal_fields sample_state)
  = sample_state.
Proof.
  destruct (add_then_remove_undoes "t9" sample_fields sample_goal_fields sample_state)
    as [H1 _].
  destruct (add_then_remove_undoes "g9" sample_fields sample_goal_fields sample_state)
    as [_ H2].
  split.
  - apply H1. simpl. intuition discriminate.
  - apply H2. simpl. tauto.
Defined.

(** ** Identifiers *)

Lemma map_with_uuid_ids {A : Type} (uuids : nat -> string)
    (f : string -> A -> Transaction) (l : list A) :
  (forall u x, id (f u x) = u) ->
  forall i, map id (map_with_uuid uuids f i l) = map uuids (seq i (List.length l)).
Proof.
  intros Hf. induction l as [|x l IH]; intros i; simpl; [reflexivity|].
  now rewrite Hf, IH.
Qed.

Lemma parseCSV_ids (uuids : nat -> string) (text : string) :
  map id (App.parseCSV uuids text)
  = map uuids (seq 0 (List.length (App.parseCSV uuids text))).
Proof.
  unfold App.parseCSV.
  destruct (JS.filter_Boolean (JS.split_lines text)) as [|first rest]; [reflexivity|].
  cbv zeta.
  generalize (if App.hasHeader (App.header_cols first) then rest else first :: rest).
  intros rows.
  assert (Hlen : forall i, List.length (map_with_uuid uuids
                   (App.parse_row (App.header_cols first)) i rows) = List.length rows).
  { induction rows as [|r rows IH]; intros i; simpl; auto. }
  rewrite Hlen. apply map_with_uuid_ids. reflexivity.
Qed.

Lemma NoDup_map_injective {A B : Type} (f : A -> B) (l : list A) :
  (forall x y, f x = f y -> x = y) -> NoDup l -> NoDup (map f l).
Proof.
  intros Hf. induction 1 as [|x l Hx Hl IH]; simpl; constructor; [|exact IH].
  intros Hin. apply in_map_iff in Hin. destruct Hin as (y & E & Hy).
  apply Hf in E. now subst.
Qed.

Lemma ids_distinct_after_filter (keep : Transaction -> bool) (txs : list Transaction) :
  NoDup (map id txs) -> NoDup (map id (filter keep txs)).
Proof.
  induction txs as [|t txs IH]; simpl; intros H; [constructor|].
  inversion H as [|? ? Hn Hl]; subst.
  destruct (keep t); simpl; [|now apply IH].
  constructor; [|now apply IH].
  intros Hin. apply Hn. apply in_map_iff in Hin.
  destruct Hin as (y & E & Hy). apply filter_In in Hy.
  apply in_map_iff. exists y. tauto.
Qed.

(** X4: when [crypto.randomUUID] never repeats itself and never returns
    an identifier already in use, the identifiers of the transactions
    stay pairwise distinct through [addTransaction], [importCSV] and
    [removeTransaction]. *)
Theorem transaction_ids_stay_distinct
    (uuids : nat -> string) (text : string) (tx : TxFields) (i : string)
    (st : State) :
  NoDup (map id (transactions st)) ->
  (forall m n, uuids m = uuids n -> m = n) ->
  (forall n, ~ In (uuids n) (map id (transactions st))) ->
  NoDup (map id (transactions (App.addTransaction (uuids 0) tx st))) /\
  NoDup (map id (transactions (App.importCSV uuids text st))) /\
  NoDup (map id (transactions (App.removeTransaction i st))).
Proof.
  intros Hnd Hinj Hfresh. split; [|split].
  - simpl. constructor; [apply Hfresh|exact Hnd].
  - unfold App.importCSV.
    destruct (JS.filter_Boolean (JS.split_lines text)) eqn:El; [exact Hnd|].
    simpl. rewrite map_app, parseCSV_ids.
    apply NoDup_app.
    + apply NoDup_map_injective; [exact Hinj|apply seq_NoDup].
    + exact Hnd.
    + intros a Ha Hb. apply in_map_iff in Ha. destruct Ha as (n & <- & _).
      exact (Hfresh n Hb).
  - simpl. now apply ids_distinct_after_filter.
Qed.

Lemma marks_inj (m n : nat) : marks m = marks n -> m = n.
Proof.
  revert n. induction m as [|m IH]; intros [|n]; simpl; try discriminate; auto.
  intros H. f_equal. apply IH. now inversion H.
Qed.

Lemma transaction_ids_stay_distinct_witness :
  NoDup (map id (transactions (App.importCSV fresh_uuids sample_csv sample_state))).
Proof.
  apply (transaction_ids_stay_distinct fresh_uuids sample_csv sample_fields "t1"
           sample_state).
  - simpl. repeat (constructor; [simpl; intuition discriminate|]). constructor.
  - intros m n H. unfold fresh_uuids in H. apply marks_inj in H. now inversion H.
  - intros n. unfold fresh_uuids. simpl. intuition discriminate.
Defined.

Lemma filter_other_ids (i : string) (l : list Transaction) :
  ~ In i (map id l) -> filter (fun t => negb (String.eqb (id t) i)) l = l.
Proof.
  intros Hn. apply filter_id. intros y Hy. apply negb_true_iff, String.eqb_neq.
  intros E. apply Hn. rewrite <- E. now apply in_map.
Qed.

(** X5: when identifiers are pairwise distinct, removing the identifier
    of a transaction of the collection removes that transaction and no
    other: the transactions before it and after it stay, in their
    order, and nothing else of the state changes; so the collection is
    one shorter, and what is left are the other transactions. *)
Theorem removeTransaction_removes_exactly_one (t : Transaction) (st : State) :
  NoDup (map id (transactions st)) ->
  In t (transactions st) ->
  (exists before after,
     transactions st = before ++ t :: after /\
     App.removeTransaction (id t) st = App.set_transactions st (before ++ after)) /\
  S (List.length (transactions (App.removeTransaction (id t) st)))
  = List.length (transactions st) /\
  (forall t', In t' (transactions (App.removeTransaction (id t) st)) <->
              In t' (transactions st) /\ t' <> t).
Proof.
  intros Hnd Hin.
  assert (Hsplit : exists before after,
            transactions st = before ++ t :: after /\
            filter (fun t0 => negb (String.eqb (id t0) (id t))) (transactions st)
            = before ++ after).
  { destruct (in_split _ _ Hin) as (before & after & E).
    exists before, after. split; [exact E|].
    rewrite E in Hnd |- *. rewrite map_app in Hnd. simpl in Hnd.
    apply NoDup_remove_2 in Hnd.
    rewrite filter_app. simpl. rewrite String.eqb_refl. simpl.
    rewrite !filter_other_ids; [reflexivity| |];
      intros H; apply Hnd, in_or_app; auto. }
  destruct Hsplit as (before & after & E & Ef).
  unfold App.removeTransaction. cbn [transactions App.set_transactions].
  rewrite Ef. split; [|split].
  - exists before, after. split; [exact E|reflexivity].
  - rewrite E, !length_app. simpl. lia.
  - intros t'. rewrite E. rewrite !in_app_iff. simpl. split.
    + intros H. split; [tauto|]. intros ->.
      rewrite E, map_app in Hnd. simpl in Hnd. apply NoDup_remove_2 in Hnd.
      apply Hnd, in_or_app. destruct H as [H|H]; [left|right]; now apply in_map.
    + intros [[H|[H|H]] Hne]; [now left|congruence|now right].
Qed.

Lemma removeTransaction_removes_exactly_one_witness :
  exists before after,
    transactions three_month_state
    = before ++ mkTransaction "t1" "2024-01-05" "Paycheck" 1500 "Income" :: after /\
    App.removeTransaction "t1" three_month_state
    = App.set_transactions three_month_state (before ++ after).
Proof.
  apply (proj1 (removeTransaction_removes_exactly_one
                  (mkTransaction "t1" "2024-01-05" "Paycheck" 1500 "Income")
                  three_month_state
                  ltac:(simpl; repeat (constructor; [simpl; intuition discriminate|]);
                        constructor)
                  ltac:(simpl; auto))).
Defined.

(** The fourth of five transactions removed: the three before it and
    the one after it stay, in their order. *)
Example removeTransaction_keeps_order :
  map id (transactions (App.removeTransaction "t1" three_month_state))
  = ["t4"; "t3"; "t2"; "t0"].
Proof. reflexivity. Qed.

(** ** CSV import: blank input, header-only input, one row per line *)

Lemma map_with_uuid_length {A B : Type} (uuids : nat -> string)
    (f : string -> A -> B) (l : list A) :
  forall i, List.length (map_with_uuid uuids f i l) = List.length l.
Proof. induction l as [|x l IH]; intros i; simpl; auto. Qed.

Lemma split_lines_head_cons (c : ascii) (s : string) :
  Ascii.eqb c JS.LF = false ->
  (forall d s'', s = String d s'' -> Ascii.eqb c JS.CR && Ascii.eqb d JS.LF = false) ->
  exists h t, JS.split_lines (String c s) = String c h :: t.
Proof.
  intros Hc Hcr. cbn [JS.split_lines]. rewrite Hc.
  destruct s as [|d s'']; [now exists EmptyString, []|].
  rewrite (Hcr d s'' eq_refl).
  destruct (JS.split_lines (String d s'')) as [|h t]; eauto.
Qed.

(** No line of a text is other than empty exactly when the text is
    made of line ends alone. *)
Lemma no_line_iff (s : string) :
  (JS.filter_Boolean (JS.split_lines s) = [] <-> only_line_ends s = true) /\
  (forall c, JS.filter_Boolean (JS.split_lines (String c s)) = [] <->
             only_line_ends (String c s) = true).
Proof.
  induction s as [|d s'' [IH1 IH2]].
  - split; [split; reflexivity|]. intros c.
    cbn [JS.split_lines only_line_ends].
    destruct (Ascii.eqb c JS.LF); [split; reflexivity|].
    destruct (Ascii.eqb c JS.CR); split; discriminate.
  - split; [apply IH2|]. intros c.
    destruct (Ascii.eqb c JS.LF) eqn:Hc.
    + cbn [JS.split_lines only_line_ends]. rewrite Hc.
      change (JS.filter_Boolean (EmptyString :: ?l)) with (JS.filter_Boolean l).
      apply IH2.
    + destruct (Ascii.eqb c JS.CR && Ascii.eqb d JS.LF) eqn:Hcr.
      * apply andb_prop in Hcr. destruct Hcr as [Hcr Hd].
        cbn [JS.split_lines only_line_ends]. rewrite Hc, Hcr, Hd.
        cbn [andb].
        change (JS.filter_Boolean (EmptyString :: ?l)) with (JS.filter_Boolean l).
        exact IH1.
      * destruct (split_lines_head_cons c (String d s'') Hc) as (h & t & E).
        { intros d' s' E. inversion E; subst. exact Hcr. }
        rewrite E. cbn [only_line_ends]. rewrite Hc.
        destruct (Ascii.eqb c JS.CR); [|split; discriminate].
        cbn [andb] in Hcr. rewrite Hcr. split; discriminate.
Qed.

(** X6: the texts without a line other than empty ones are those made
    of line ends alone (line feeds, with or without a carriage return
    before them), and importing one changes nothing; nor does a header
    line alone. Otherwise each line that is not empty, be it of spaces
    only, gives one transaction, except the first line when it is a
    header; the new transactions stand in front of the stored ones,
    and nothing else of the state changes. *)
Theorem importCSV_blank_and_row_count
    (uuids : nat -> string) (text : string) (st : State) :
  (JS.filter_Boolean (JS.split_lines text) = [] <-> only_line_ends text = true) /\
  (only_line_ends text = true -> App.importCSV uuids text st = st) /\
  App.importCSV uuids text st
  = App.set_transactions st (App.parseCSV uuids text ++ transactions st) /\
  (forall first rest,
     JS.filter_Boolean (JS.split_lines text) = first :: rest ->
     List.length (App.parseCSV uuids text)
     = (if App.hasHeader (App.header_cols first) then List.length rest
        else S (List.length rest)) /\
     (rest = [] -> App.hasHeader (App.header_cols first) = true ->
      App.importCSV uuids text st = st)).
Proof.
  pose proof (proj1 (no_line_iff text)) as Hiff.
  split; [exact Hiff|]. split; [|split].
  - intros H. apply Hiff in H. unfold App.importCSV. now rewrite H.
  - unfold App.importCSV, App.parseCSV.
    destruct (JS.filter_Boolean (JS.split_lines text)); [now destruct st|reflexivity].
  - intros first rest Hl. unfold App.importCSV, App.parseCSV. rewrite Hl. cbv zeta.
    rewrite map_with_uuid_length. split.
    + destruct (App.hasHeader (App.header_cols first)); reflexivity.
    + intros -> Hh. rewrite Hh. simpl. now destruct st.
Qed.

Lemma importCSV_blank_and_row_count_witness :
  App.importCSV sample_uuids blank_crlf_csv sample_state = sample_state /\
  App.importCSV sample_uuids header_only_csv sample_state = sample_state /\
  List.length (App.parseCSV sample_uuids sample_csv) = 2 /\
  List.length (App.parseCSV sample_uuids spaces_csv) = 1.
Proof.
  split; [|split; [|split]].
  - apply (proj1 (proj2 (importCSV_blank_and_row_count sample_uuids blank_crlf_csv
                           sample_state))).
    reflexivity.
  - apply (proj2 (proj2 (proj2 (importCSV_blank_and_row_count sample_uuids
                                  header_only_csv sample_state)))
             header_only_csv []); reflexivity.
  - apply (proj2 (proj2 (proj2 (importCSV_blank_and_row_count sample_uuids sample_csv
                                  sample_state)))
             sample_line1 [sample_line2]). reflexivity.
  - apply (proj2 (proj2 (proj2 (importCSV_blank_and_row_count sample_uuids spaces_csv
                                  sample_state)))
             spaces_csv []). reflexivity.
Defined.

(** A line of spaces gives a transaction of defaults. *)
Example importCSV_spaces :
  App.parseCSV sample_uuids spaces_csv
  = [mkTransaction "uuid-0" EmptyString EmptyString 0 "Other"].
Proof. reflexivity. Qed.

(** ** CSV import: what an imported transaction is like *)

Lemma or_num_not_nan (x : float) : JS.isNaN (JS.or_num x 0) = false.
Proof.
  unfold JS.or_num, JS.truthy_num, JS.isNaN.
  destruct (x =? 0)%float; simpl; [reflexivity|].
  destruct (x =? x)%float eqn:E; [now rewrite E|reflexivity].
Qed.

Lemma abs_not_nan (x : float) :
  JS.isNaN x = false -> JS.isNaN (JS.Math_abs x) = false.
Proof.
  unfold JS.isNaN, JS.Math_abs.
  rewrite !FloatAxioms.eqb_spec, FloatAxioms.abs_spec. unfold SFeqb.
  destruct (Prim2SF x) as [s|s| |s m e]; simpl; try discriminate; auto.
  intros _. now rewrite Z.compare_refl, Pos.compare_cont_refl.
Qed.

Lemma opp_not_nan (x : float) :
  JS.isNaN x = false -> JS.isNaN (- x)%float = false.
Proof.
  unfold JS.isNaN.
  rewrite !FloatAxioms.eqb_spec, FloatAxioms.opp_spec. unfold SFeqb.
  destruct (Prim2SF x) as [s|s| |s m e]; simpl; try discriminate; auto.
  - destruct s; reflexivity.
  - intros _. destruct s; simpl;
      now rewrite Z.compare_refl, Pos.compare_cont_refl.
Qed.

Section FieldFacts.

Local Open Scope string_scope.

Lemma split_no_sep (sep : ascii) (s p : string) :
  In p (JS.split sep s) -> mem_char sep p = false.
Proof.
  revert p. induction s as [|c s IH]; intros p; simpl.
  - intros [<-|[]]. reflexivity.
  - destruct (Ascii.eqb c sep) eqn:Ec.
    + intros [<-|H]; [reflexivity|now apply IH].
    + destruct (JS.split sep s) as [|h t] eqn:Es.
      * intros [<-|[]]. simpl. now rewrite Ec.
      * intros [<-|H].
        -- simpl. rewrite Ec. apply IH. now left.
        -- apply IH. now right.
Qed.

Lemma mem_char_trimStart (c : ascii) (s : string) :
  mem_char c s = false -> mem_char c (JS.trimStart s) = false.
Proof.
  induction s as [|d s IH]; simpl; [reflexivity|].
  intros H. destruct (JS.is_white d); [|exact H].
  apply orb_false_iff in H. now apply IH.
Qed.

Lemma mem_char_trimEnd (c : ascii) (s : string) :
  mem_char c s = false -> mem_char c (JS.trimEnd s) = false.
Proof.
  induction s as [|d s IH]; [reflexivity|].
  intros H. simpl in H. apply orb_false_iff in H. destruct H as [Hd Hs].
  rewrite trimEnd_cons. specialize (IH Hs). destruct (JS.trimEnd s).
  - destruct (JS.is_white d); simpl; [reflexivity|]. now rewrite Hd.
  - change (mem_char c (String d (String a s0)))
      with (Ascii.eqb d c || mem_char c (String a s0)).
    now rewrite Hd, IH.
Qed.

Lemma mem_char_slice0 (c : ascii) (n : nat) (s : string) :
  mem_char c s = false -> mem_char c (JS.slice0 n s) = false.
Proof.
  revert s. induction n as [|n IH]; intros [|d s]; simpl; auto.
  intros H. apply orb_false_iff in H. destruct H as [-> H]. now apply IH.
Qed.

Lemma slice0_length (n : nat) (s : string) : String.length (JS.slice0 n s) <= n.
Proof.
  revert s. induction n as [|n IH]; intros [|d s]; simpl; try lia.
  specialize (IH s). lia.
Qed.

(** A field of a line, or its default, is trimmed and has no comma. *)
Lemma field_of_line (line d : string) (i : Z) :
  JS.trim d = d -> mem_char "," d = false ->
  let f := JS.or_str (JS.get (map JS.trim (JS.split "," line)) i) d in
  JS.trim f = f /\ mem_char "," f = false.
Proof.
  intros Hd1 Hd2. unfold JS.or_str, JS.get.
  destruct (i <? 0)%Z; [now split|].
  destruct (nth_error (map JS.trim (JS.split "," line)) (Z.to_nat i)) as [p|] eqn:E;
    [|now split].
  destruct (JS.truthy_str p); [|now split].
  apply nth_error_In, in_map_iff in E. destruct E as (q & <- & Hq).
  split; [apply trim_idem|].
  unfold JS.trim. apply mem_char_trimEnd, mem_char_trimStart.
  exact (split_no_sep _ _ _ Hq).
Qed.

End FieldFacts.

Lemma parse_row_ok (cols : list string) (u line : string) :
  imported_ok (App.parse_row cols u line).
Proof.
  unfold imported_ok, App.parse_row. cbn [amount date category description].
  pose proof (field_of_line line EmptyString
                (if App.hasHeader cols then JS.indexOf cols "date" else 0%Z)
                eq_refl eq_refl) as [_ Hdate].
  pose proof (field_of_line line EmptyString
                (if App.hasHeader cols then JS.indexOf cols "description" else 1%Z)
                eq_refl eq_refl) as [Hd1 Hd2].
  pose proof (field_of_line line "Other"
                (if App.hasHeader cols then JS.indexOf cols "category" else 3%Z)
                eq_refl eq_refl) as [Hc1 Hc2].
  repeat split; auto.
  - destruct (App.hasType cols); [|apply or_num_not_nan].
    destruct (JS.startsWith _ _).
    + apply opp_not_nan, abs_not_nan, or_num_not_nan.
    + apply abs_not_nan, or_num_not_nan.
  - apply slice0_length.
  - apply or_str_nonempty. discriminate.
  - now apply mem_char_slice0.
Qed.

Lemma spend_only_parse_row_ok (u line : string) :
  imported_ok (SpendOnly.parse_row u line) /\
  (0 <=? amount (SpendOnly.parse_row u line))%float = true.
Proof.
  unfold imported_ok, SpendOnly.parse_row. cbn [amount date category description].
  pose proof (field_of_line line EmptyString 0%Z eq_refl eq_refl) as [_ Hdate].
  pose proof (field_of_line line EmptyString 1%Z eq_refl eq_refl) as [Hd1 Hd2].
  pose proof (field_of_line line "Other" 3%Z eq_refl eq_refl) as [Hc1 Hc2].
  repeat split; auto.
  - apply or_num_not_nan.
  - apply slice0_length.
  - apply or_str_nonempty. discriminate.
  - now apply mem_char_slice0.
  - unfold JS.or_num, JS.truthy_num, JS.Math_abs.
    rewrite !FloatAxioms.eqb_spec, FloatAxioms.abs_spec.
    change (Prim2SF 0) with (S754_zero false). unfold SFeqb.
    destruct (Prim2SF (JS.parseFloat _)) as [s|s| |s m e] eqn:E; simpl;
      try reflexivity.
    + rewrite FloatAxioms.leb_spec, FloatAxioms.abs_spec, E. reflexivity.
    + rewrite Z.compare_refl, Pos.compare_cont_refl. simpl.
      rewrite FloatAxioms.leb_spec, FloatAxioms.abs_spec, E. reflexivity.
Qed.

Lemma map_with_uuid_Forall {A B : Type} (P : B -> Prop)
    (uuids : nat -> string) (f : string -> A -> B) (l : list A) :
  (forall u x, P (f u x)) -> forall i, Forall P (map_with_uuid uuids f i l).
Proof.
  intros H. induction l as [|x l IH]; intros i; simpl; constructor; auto.
Qed.

(** X7: whatever the text, every transaction that [importCSV] of the
    sign-aware ledger creates has an amount that is a number (never
    [NaN]), a date of at most ten characters, a category that is not
    empty, a trimmed description and category, and no comma in its
    text fields; what was in the collection before stays behind the
    new transactions, in its order. *)
Theorem importCSV_rows_well_formed
    (uuids : nat -> string) (text : string) (st : State) :
  Forall imported_ok (App.parseCSV uuids text) /\
  exists new, transactions (App.importCSV uuids text st) = new ++ transactions st /\
              Forall imported_ok new.
Proof.
  assert (H : Forall imported_ok (App.parseCSV uuids text)).
  { unfold App.parseCSV.
    destruct (JS.filter_Boolean (JS.split_lines text)) as [|first rest];
      [constructor|].
    apply map_with_uuid_Forall. intros u x. apply parse_row_ok. }
  split; [exact H|]. unfold App.importCSV.
  destruct (JS.filter_Boolean (JS.split_lines text)) eqn:El.
  - exists []. split; [reflexivity|constructor].
  - exists (App.parseCSV uuids text). split; [reflexivity|exact H].
Qed.

(** A file with an unknown header and a ragged row: the header line is
    read as a row, fields that are missing take their defaults, a text
    that is no number counts as zero. *)
Example importCSV_messy :
  map (fun t => (date t, description t, amount t, category t))
      (App.parseCSV sample_uuids messy_csv)
  = [("when", "what", 0%float, "Other");
     ("2024-01-05", "Bus", 0%float, "Other")].
Proof. reflexivity. Qed.

(** X8: in the spend-only ledger every imported transaction is well
    formed in the same way, and its amount is never negative. *)
Theorem spend_only_import_well_formed (uuids : nat -> string) (text : string) :
  Forall (fun t => imported_ok t /\ (0 <=? amount t)%float = true)
         (SpendOnly.parseCSV uuids text).
Proof.
  unfold SpendOnly.parseCSV.
  destruct (JS.filter_Boolean (JS.split_lines text)) as [|first rest];
    [constructor|].
  apply map_with_uuid_Forall. intros u x. apply spend_only_parse_row_ok.
Qed.

(** ** CSV: what comes back from an export *)

Section RoundTripFields.

Local Open Scope string_scope.

Lemma parse_row_of_export (u : string) (t : Transaction) :
  csv_safe t ->
  App.parse_row cols5 u (App.export_row t)
  = mkTransaction u (date t) (description t) (reimported (amount t)) (category t).
Proof.
  intros Hs. pose proof (split_export_row _ Hs) as Hsplit.
  pose proof Hs as (Hdt & Hlen & Hd & Hc & Hne & Ha).
  unfold App.parse_row. rewrite Hsplit.
  change (App.hasHeader cols5) with true. change (App.hasType cols5) with true.
  cbv iota.
  change (JS.indexOf cols5 "date") with 0%Z.
  change (JS.indexOf cols5 "description") with 1%Z.
  change (JS.indexOf cols5 "amount") with 2%Z.
  change (JS.indexOf cols5 "category") with 3%Z.
  change (JS.indexOf cols5 "type") with 4%Z.
  cbv beta iota zeta delta [JS.get nth_error Z.to_nat Pos.to_nat Pos.iter_op
                            Z.ltb Z.compare Nat.add].
  rewrite !or_str_empty_default, amount_field_default, (or_str_self _ _ Hne), Hlen.
  reflexivity.
Qed.

Lemma eqb_self_of_eqb (p a : float) :
  (p =? a)%float = true -> (a =? a)%float = true.
Proof.
  rewrite !FloatAxioms.eqb_spec. unfold SFeqb.
  destruct (Prim2SF p) as [sp|sp| |sp mp ep], (Prim2SF a) as [sa|sa| |sa ma ea];
    simpl; try discriminate; intros _; try reflexivity;
    destruct sa; simpl; rewrite ?Z.compare_refl, ?Pos.compare_cont_refl;
    reflexivity.
Qed.

(** The amount that comes back equals, as a number, the one that went
    out. *)
Lemma reimported_eqb (a : float) :
  (JS.parseFloat (JS.Number_toString a) =? a)%float = true ->
  (reimported a =? a)%float = true.
Proof.
  intros H. pose proof (eqb_self_of_eqb _ _ H) as Haa. unfold reimported.
  assert (Hta : type_of a = if (a <? 0)%float then "expense" else "income")
    by reflexivity.
  destruct (a <? 0)%float eqn:Hneg; rewrite Hta.
  - change (JS.startsWith "exp" (JS.toLowerCase "expense")) with true. cbv iota.
    destruct (eqb_true_cases _ _ H) as [E|(s & s' & _ & Ea)].
    + now rewrite E, (or_num_neg _ _ Hneg), (opp_abs_of_neg _ Hneg).
    + exfalso. revert Hneg. rewrite FloatAxioms.ltb_spec, Ea. discriminate.
  - change (JS.startsWith "exp" (JS.toLowerCase "income")) with false. cbv iota.
    assert (Hz : forall s, Prim2SF a = S754_zero s -> (JS.Math_abs 0 =? a)%float = true).
    { intros s Hs. rewrite FloatAxioms.eqb_spec, Hs. reflexivity. }
    destruct (eqb_true_cases _ _ H) as [E|(s & s' & Ep & Ea)].
    + rewrite E. unfold JS.or_num. destruct (JS.truthy_num a) eqn:Etr.
      * assert (Hpos : (0 <? a)%float = true).
        { revert Hneg Etr. unfold JS.truthy_num.
          rewrite !FloatAxioms.ltb_spec, !FloatAxioms.eqb_spec.
          change (Prim2SF 0) with (S754_zero false). unfold SFltb, SFeqb.
          destruct (Prim2SF a) as [sa|sa| |sa ma ea]; simpl; try discriminate;
            destruct sa; try discriminate; reflexivity. }
        now rewrite (abs_of_pos _ Hpos).
      * assert (exists s, Prim2SF a = S754_zero s) as [s Hs].
        { revert Haa Etr. unfold JS.truthy_num.
          rewrite !FloatAxioms.eqb_spec.
          change (Prim2SF 0) with (S754_zero false). unfold SFeqb.
          destruct (Prim2SF a) as [sa|sa| |sa ma ea]; simpl; try discriminate.
          - eauto.
          - destruct sa; discriminate.
          - destruct sa; rewrite Z.compare_refl, Pos.compare_cont_refl; discriminate. }
        exact (Hz s Hs).
    + assert (Ez : JS.or_num (JS.parseFloat (JS.Number_toString a)) 0 = 0%float).
      { unfold JS.or_num, JS.truthy_num. rewrite !FloatAxioms.eqb_spec, Ep. reflexivity. }
      rewrite Ez. exact (Hz s' Ea).
Qed.

End RoundTripFields.

(** X9: for transactions of the safe subset, importing the text of an
    export gives back as many transactions, in the same order, each
    with the date, description and category of the one exported and an
    amount equal to its amount as a number; only the identifiers are
    new. *)
Theorem import_of_export_gives_back
    (uuids : nat -> string) (txs : list Transaction) :
  Forall csv_safe txs ->
  Forall2 (fun t t' =>
             date t' = date t /\ description t' = description t /\
             category t' = category t /\
             (amount t' =? amount t)%float = true)
          txs (App.parseCSV uuids (App.exportCSV txs)) /\
  map id (App.parseCSV uuids (App.exportCSV txs))
  = map uuids (seq 0 (List.length txs)).
Proof.
  intros Hs.
  assert (E : App.parseCSV uuids (App.exportCSV txs)
              = map_with_uuid uuids (App.parse_row cols5) 0 (map App.export_row txs)).
  { unfold App.parseCSV. rewrite (lines_of_export _ Hs).
    cbv zeta. rewrite header_cols5.
    change (App.hasHeader cols5) with true. reflexivity. }
  rewrite E. clear E. split.
  - generalize 0%nat. induction Hs as [|t txs Ht _ IH]; intros i.
    + constructor.
    + cbn [map map_with_uuid]. constructor; [|apply IH].
      rewrite (parse_row_of_export _ _ Ht). cbn [date description category amount].
      repeat split.
      apply reimported_eqb. now destruct Ht as (_ & _ & _ & _ & _ & Ha).
  - rewrite map_with_uuid_ids by reflexivity. now rewrite length_map.
Qed.

Lemma import_of_export_gives_back_witness :
  Forall2 (fun t t' =>
             date t' = date t /\ description t' = description t /\
             category t' = category t /\
             (amount t' =? amount t)%float = true)
          safe_txs (App.parseCSV sample_uuids (App.exportCSV safe_txs)) /\
  map id (App.parseCSV sample_uuids (App.exportCSV safe_txs))
  = map sample_uuids (seq 0 (List.length safe_txs)).
Proof.
  apply (import_of_export_gives_back sample_uuids safe_txs).
  repeat constructor; try reflexivity; try discriminate.
Defined.

(** ** [cleanCSV] *)

Section CleanCSV.

Local Open Scope string_scope.

Lemma replaceAll_quote_cons (d : ascii) (s : string) :
  JS.replaceAll DQUOTE DQ2 (String d s) =
  if Ascii.eqb d DQUOTE then String DQUOTE (String DQUOTE (JS.replaceAll DQUOTE DQ2 s))
  else String d (JS.replaceAll DQUOTE DQ2 s).
Proof. simpl. destruct (Ascii.eqb d DQUOTE); reflexivity. Qed.

(** Doubling the double quotes loses nothing, also when a closing
    quote follows. *)
Lemma escape_injective (s s' : string) :
  JS.replaceAll DQUOTE DQ2 s ++ String DQUOTE EmptyString
  = JS.replaceAll DQUOTE DQ2 s' ++ String DQUOTE EmptyString ->
  s = s'.
Proof.
  revert s'. induction s as [|c s IH]; intros [|c' s'].
  - reflexivity.
  - rewrite replaceAll_quote_cons. cbn [JS.replaceAll append].
    destruct (Ascii.eqb_spec c' DQUOTE) as [->|Hn]; cbn [append]; intros H.
    + inversion H.
    + inversion H. congruence.
  - rewrite replaceAll_quote_cons. cbn [JS.replaceAll append].
    destruct (Ascii.eqb_spec c DQUOTE) as [->|Hn]; cbn [append]; intros H.
    + inversion H.
    + inversion H. congruence.
  - rewrite !replaceAll_quote_cons.
    destruct (Ascii.eqb_spec c DQUOTE) as [->|Hn],
             (Ascii.eqb_spec c' DQUOTE) as [->|Hn']; cbn [append]; intros H.
    + inversion H as [H1]. f_equal. now apply IH.
    + inversion H as [[H1 H2]]. exfalso. apply Hn'. now symmetry.
    + inversion H as [[H1 H2]]. contradiction.
    + inversion H as [[H1 H2]]. f_equal. now apply IH.
Qed.

Lemma cleanCSV_quoted (s : string) :
  JS.test_class [DQUOTE; ","%char; JS.LF] s = true ->
  cleanCSV s = String DQUOTE (JS.replaceAll DQUOTE DQ2 s ++ String DQUOTE EmptyString).
Proof. intros H. unfold cleanCSV. now rewrite H. Qed.

Lemma no_quote_first (s r : string) :
  JS.test_class [DQUOTE; ","%char; JS.LF] s = false -> s <> String DQUOTE r.
Proof.
  intros H ->. cbn [JS.test_class existsb] in H.
  rewrite Ascii.eqb_refl in H. discriminate.
Qed.

End CleanCSV.

(** X10: [cleanCSV] writes different fields as different texts: a field
    without double quote, comma or line feed is written as it is, any
    other one between double quotes with its own quotes doubled, and
    the field can be told from what is written. *)
Theorem cleanCSV_injective (s s' : string) :
  cleanCSV s = cleanCSV s' -> s = s'.
Proof.
  destruct (JS.test_class [DQUOTE; ","%char; JS.LF] s) eqn:Hs,
           (JS.test_class [DQUOTE; ","%char; JS.LF] s') eqn:Hs'.
  - rewrite (cleanCSV_quoted _ Hs), (cleanCSV_quoted _ Hs'). intros H.
    inversion H as [H1]. now apply escape_injective.
  - rewrite (cleanCSV_quoted _ Hs), (cleanCSV_safe _ Hs'). intros H.
    symmetry in H. now apply no_quote_first in H.
  - rewrite (cleanCSV_safe _ Hs), (cleanCSV_quoted _ Hs'). intros H.
    now apply no_quote_first in H.
  - now rewrite (cleanCSV_safe _ Hs), (cleanCSV_safe _ Hs').
Qed.

Lemma cleanCSV_injective_witness :
  cleanCSV "Dining, out" = cleanCSV "Dining, out" /\
  "Dining, out"%string = "Dining, out"%string.
Proof.
  split; [reflexivity|].
  apply (cleanCSV_injective "Dining, out" "Dining, out"). reflexivity.
Defined.

(** ** Totals *)

Lemma pos_nonneg (x : float) : (0 <? x)%float = true -> nonneg x.
Proof. unfold nonneg. to_spec. spec_cases x. Qed.

Lemma zero_nonneg : nonneg 0.
Proof. reflexivity. Qed.

Lemma nonneg_not_nan (x : float) : nonneg x -> JS.isNaN x = false.
Proof. unfold nonneg. to_spec. spec_cases x. Qed.

Lemma nonneg_cases (x : float) :
  nonneg x -> (0 <? x)%float = true \/ exists s, Prim2SF x = S754_zero s.
Proof.
  unfold nonneg. rewrite FloatAxioms.leb_spec, FloatAxioms.ltb_spec.
  change (Prim2SF 0) with (S754_zero false). unfold SFleb, SFltb.
  destruct (Prim2SF x) as [s|s| |s m e]; simpl; try discriminate.
  - intros _. right. now exists s.
  - destruct s; [discriminate|]. now left.
  - destruct s; [discriminate|]. now left.
Qed.

Lemma add_nonneg (x y : float) : nonneg x -> nonneg y -> nonneg (x + y)%float.
Proof.
  intros Hx Hy.
  destruct (nonneg_cases _ Hx) as [Px|[sx Zx]], (nonneg_cases _ Hy) as [Py|[sy Zy]].
  - apply pos_nonneg. now apply add_pos_pos.
  - apply pos_nonneg. revert Px.
    rewrite !FloatAxioms.ltb_spec, FloatAxioms.add_spec, Zy.
    change (Prim2SF 0) with (S754_zero false).
    destruct (Prim2SF x) as [s|s| |s m e]; try discriminate; trivial.
  - apply pos_nonneg. revert Py.
    rewrite !FloatAxioms.ltb_spec, FloatAxioms.add_spec, Zx.
    change (Prim2SF 0) with (S754_zero false).
    destruct (Prim2SF y) as [s|s| |s m e]; try discriminate; trivial.
  - unfold nonneg. rewrite FloatAxioms.leb_spec, FloatAxioms.add_spec, Zx, Zy.
    destruct sx, sy; reflexivity.
Qed.

Lemma div_finite_nonneg (x y : float) (my : positive) (ey : Z) :
  (0 <? x)%float = true -> Prim2SF y = S754_finite false my ey ->
  nonneg (x / y)%float.
Proof.
  unfold nonneg. intros Hx Hy. revert Hx.
  rewrite FloatAxioms.leb_spec, FloatAxioms.div_spec, !FloatAxioms.ltb_spec, Hy.
  change (Prim2SF 0) with (S754_zero false). unfold SF64div.
  destruct (Prim2SF x) as [sx|sx| |sx mx ex]; try discriminate;
    destruct sx; try discriminate; intros _; try reflexivity.
  unfold SFdiv.
  pose proof (SFdiv_core_nonneg mx ex my ey) as Hq.
  destruct (SFdiv_core_binary prec emax (Z.pos mx) ex (Z.pos my) ey) as [[mz ez] lz].
  simpl in Hq. pose proof (binary_round_aux_sign (xorb false false) mz ez lz Hq) as Hs.
  destruct (binary_round_aux prec emax (xorb false false) mz ez lz) as [s|s| |s m e];
    simpl in Hs; try contradiction; subst s; reflexivity.
Qed.

Lemma div12_nonneg (x : float) : (0 <? x)%float = true -> nonneg (x / 12)%float.
Proof.
  intros Hx. eapply div_finite_nonneg; [exact Hx|]. vm_compute. reflexivity.
Qed.

Section Sums.

Context {T : Type} (f : T -> float).

Lemma sum_nonneg (l : list T) (s : float) :
  nonneg s -> Forall (fun t => nonneg (f t)) l ->
  nonneg (fold_left (fun s t => (s + f t)%float) l s).
Proof.
  intros Hs Hl. revert s Hs. induction Hl as [|t l Ht _ IH]; intros s Hs; simpl.
  - exact Hs.
  - apply IH. now apply add_nonneg.
Qed.

Lemma sum_pos_from (l : list T) (s : float) :
  (0 <? s)%float = true -> Forall (fun t => (0 <? f t)%float = true) l ->
  (0 <? fold_left (fun s t => (s + f t)%float) l s)%float = true.
Proof.
  intros Hs Hl. revert s Hs. induction Hl as [|t l Ht _ IH]; intros s Hs; simpl.
  - exact Hs.
  - apply IH. now apply add_pos_pos.
Qed.

Lemma sum_pos (l : list T) :
  l <> [] -> Forall (fun t => (0 <? f t)%float = true) l ->
  (0 <? fold_left (fun s t => (s + f t)%float) l 0)%float = true.
Proof.
  destruct l as [|t l]; [congruence|]. intros _ Hl.
  inversion Hl as [|? ? Ht Hl']; subst. simpl.
  apply sum_pos_from; [|exact Hl']. now rewrite add_zero_pos.
Qed.

(** The sum over the elements that pass a test which makes [f]
    positive: positive when there is such an element, [0] otherwise. *)
Lemma filtered_sum (p : T -> bool) (l : list T) :
  (forall t, p t = true -> (0 <? f t)%float = true) ->
  let s := fold_left (fun s t => (s + f t)%float) (filter p l) 0%float in
  nonneg s /\
  ((0 <? s)%float = true <-> exists t, In t l /\ p t = true).
Proof.
  intros Hp s. subst s.
  assert (Hall : Forall (fun t => (0 <? f t)%float = true) (filter p l)).
  { apply Forall_forall. intros t Ht. apply filter_In in Ht. apply Hp, Ht. }
  destruct (filter p l) as [|t l'] eqn:E.
  - simpl. split; [exact zero_nonneg|]. split; [discriminate|].
    intros (t & Hin & Ht).
    assert (Hf : In t (filter p l)) by (apply filter_In; auto).
    rewrite E in Hf. destruct Hf.
  - assert (Hpos : (0 <? fold_left (fun s t => (s + f t)%float) (t :: l') 0)%float = true)
      by (apply sum_pos; [discriminate|exact Hall]).
    split; [now apply pos_nonneg|]. split; [|intros _; exact Hpos].
    intros _. exists t.
    assert (Hf : In t (filter p l)) by (rewrite E; now left).
    apply filter_In in Hf. exact Hf.
Qed.

End Sums.

(** X11: the income and expense totals of the filtered transactions are
    never negative and never [NaN]; income is strictly positive exactly
    when a filtered transaction has a positive amount, expenses exactly
    when one has a negative amount. A transaction whose amount is zero
    or [NaN] counts in neither. *)
Theorem totals_income_and_expenses
    (localeCompare : string -> string -> comparison) (st : State) :
  let T := App.totals localeCompare st in
  nonneg (App.t_income T) /\ nonneg (App.t_expenses T) /\
  ((0 <? App.t_income T)%float = true <->
   exists t, In t (filteredTx st) /\ (0 <? amount t)%float = true) /\
  ((0 <? App.t_expenses T)%float = true <->
   exists t, In t (filteredTx st) /\ (amount t <? 0)%float = true).
Proof.
  cbv zeta. unfold App.totals. cbn [App.t_income App.t_expenses].
  pose proof (filtered_sum amount (fun t => (0 <? amount t)%float) (filteredTx st)
                (fun t H => H)) as [Hi1 Hi2].
  pose proof (filtered_sum (fun t => JS.Math_abs (amount t))
                (fun t => (amount t <? 0)%float) (filteredTx st)
                (fun t H => abs_neg_pos _ H)) as [He1 He2].
  repeat split; try assumption; try apply Hi2; try apply He2.
Qed.

Lemma NoDup_all_equal {A : Type} (a : A) (l : list A) :
  NoDup l -> (forall x, In x l -> x = a) -> (List.length l <= 1)%nat.
Proof.
  intros Hn Hall. destruct l as [|x [|y l]]; simpl; auto.
  exfalso. inversion Hn as [|? ? Hx _]; subst. apply Hx.
  rewrite (Hall x), (Hall y); simpl; auto.
Qed.

Lemma filteredTx_category (st : State) (t : Transaction) :
  In t (filteredTx st) -> filterCategory st <> "All"%string ->
  category t = filterCategory st.
Proof.
  intros Hin Hne. apply filter_In in Hin. destruct Hin as [_ H].
  cbv zeta in H. apply andb_prop in H. destruct H as [_ H].
  apply orb_prop in H. destruct H as [H|H].
  - apply String.eqb_eq in H. contradiction.
  - now apply String.eqb_eq in H.
Qed.

(** X12: the slices of the category breakdown have pairwise distinct,
    non-empty names and strictly positive values, and each is the
    category of a filtered expense; with a category filter set there is
    at most one slice. *)
Theorem byCat_slices_distinct_and_positive
    (localeCompare : string -> string -> comparison) (st : State) :
  let B := App.byCat (App.totals localeCompare st) in
  NoDup (map fst B) /\
  (forall k v, In (k, v) B ->
     k <> EmptyString /\ (0 <? v)%float = true /\
     exists t, In t (filteredTx st) /\ (amount t <? 0)%float = true /\
               JS.or_str (Some (category t)) "Uncategorized" = k) /\
  (filterCategory st <> "All"%string -> (List.length B <= 1)%nat).
Proof.
  cbv zeta. unfold App.totals. cbn [App.byCat]. rewrite byCatMap_spec.
  unfold breakdown_spec.
  set (exps := filter is_expense (filteredTx st)).
  set (val := fun k => (k, sum_abs (filter (fun t => String.eqb (cat_key t) k) exps))).
  assert (Hkeys : map fst (map val (first_seen (map cat_key exps)))
                  = first_seen (map cat_key exps)).
  { rewrite map_map. apply map_id. }
  assert (Hsrc : forall k, In k (first_seen (map cat_key exps)) ->
                 exists t, In t (filteredTx st) /\ (amount t <? 0)%float = true /\
                           cat_key t = k).
  { intros k Hk. apply first_seen_In, in_map_iff in Hk.
    destruct Hk as (t & Ek & Ht). apply filter_In in Ht. destruct Ht as [Ht He].
    exists t. auto. }
  split; [|split].
  - rewrite Hkeys. apply first_seen_NoDup.
  - intros k v Hin. apply in_map_iff in Hin. destruct Hin as (k' & E & Hk).
    inversion E; subst k' v; clear E. split; [|split].
    + destruct (Hsrc k Hk) as (t & _ & _ & <-). unfold cat_key.
      apply or_str_nonempty. discriminate.
    + apply sum_abs_pos.
      * apply filter_key_present. now apply first_seen_In.
      * apply Forall_forall. intros x Hx. apply filter_In in Hx.
        destruct Hx as [Hx _]. now apply filter_In in Hx.
    + exact (Hsrc k Hk).
  - intros Hne. rewrite <- (length_map fst), Hkeys.
    apply (NoDup_all_equal (JS.or_str (Some (filterCategory st)) "Uncategorized"));
      [apply first_seen_NoDup|].
    intros k Hk. destruct (Hsrc k Hk) as (t & Ht & _ & <-).
    unfold cat_key. now rewrite (filteredTx_category st t Ht Hne).
Qed.

Lemma byCat_slices_distinct_and_positive_witness :
  App.byCat (App.totals String.compare rent_filter_state)
  = [("Rent/Mortgage", 1200%float)] /\
  NoDup (map fst (App.byCat (App.totals String.compare rent_filter_state))) /\
  (forall k v, In (k, v) (App.byCat (App.totals String.compare rent_filter_state)) ->
     k <> EmptyString /\ (0 <? v)%float = true /\
     exists t, In t (filteredTx rent_filter_state) /\ (amount t <? 0)%float = true /\
               JS.or_str (Some (category t)) "Uncategorized" = k) /\
  (List.length (App.byCat (App.totals String.compare rent_filter_state)) <= 1)%nat.
Proof.
  split; [reflexivity|].
  destruct (byCat_slices_distinct_and_positive String.compare rent_filter_state)
    as (H1 & H2 & H3).
  split; [exact H1|]. split; [exact H2|]. apply H3. discriminate.
Defined.

(** ** The monthly trend *)

Lemma StrMap_get_In {V : Type} (m : StrMap.t V) (k : string) (v : V) :
  StrMap.get m k = Some v -> In (k, v) m.
Proof.
  induction m as [|[k' v'] m IH]; simpl; [discriminate|].
  destruct (String.eqb_spec k' k) as [->|Hne].
  - intros E. inversion E. now left.
  - intros E. right. now apply IH.
Qed.

Lemma not_nan_not_nonneg_neg (x : float) :
  JS.isNaN x = false -> (0 <=? x)%float = false -> (x <? 0)%float = true.
Proof. to_spec. spec_cases x. Qed.

Lemma leb_zero_nonneg (x : float) : (0 <=? x)%float = true -> nonneg x.
Proof. trivial. Qed.

(** Entries of the month map whose two sums are neither negative nor
    [NaN]. *)
Lemma byMonthMap_nonneg (txs : list Transaction) :
  Forall (fun t => JS.isNaN (amount t) = false) txs ->
  forall k e, In (k, e) (App.byMonthMap txs) ->
              nonneg (App.income e) /\ nonneg (App.expenses e).
Proof.
  unfold App.byMonthMap. induction txs as [|t txs IH] using rev_ind.
  - intros _ k e [].
  - intros Hall. apply Forall_app in Hall. destruct Hall as [Hall Ht].
    inversion Ht as [|? ? Hnan _]; subst. specialize (IH Hall).
    rewrite fold_left_app. cbn [fold_left].
    set (m := fold_left App.byMonth_step txs []) in *.
    unfold App.byMonth_step.
    destruct (negb (JS.truthy_str (JS.slice0 7 (date t)))); [exact IH|].
    intros k e Hin. apply StrMap_in_set in Hin. destruct Hin as [E|Hin]; [|now apply (IH k)].
    inversion E; subst k e; clear E.
    assert (H0 : nonneg (App.income
                   match StrMap.get m (JS.slice0 7 (date t)) with
                   | Some e => e | None => App.mkMonthEntry (JS.slice0 7 (date t)) 0 0 end)
                 /\ nonneg (App.expenses
                   match StrMap.get m (JS.slice0 7 (date t)) with
                   | Some e => e | None => App.mkMonthEntry (JS.slice0 7 (date t)) 0 0 end)).
    { destruct (StrMap.get m (JS.slice0 7 (date t))) as [e0|] eqn:Eg.
      - apply StrMap_get_In in Eg. now apply (IH _ _ Eg).
      - split; exact zero_nonneg. }
    destruct H0 as [Hi He].
    destruct (0 <=? amount t)%float eqn:Ea; cbn [App.income App.expenses]; split;
      try assumption.
    + now apply add_nonneg.
    + apply add_nonneg; [exact He|]. apply pos_nonneg, abs_neg_pos.
      now apply not_nan_not_nonneg_neg.
Qed.

Lemma byMonth_bars_nonneg
    (localeCompare : string -> string -> comparison) (st : State) :
  Forall (fun t => JS.isNaN (amount t) = false) (transactions st) ->
  Forall (fun e => nonneg (App.income e) /\ nonneg (App.expenses e))
         (App.byMonth (App.totals localeCompare st)).
Proof.
  intros Hall. unfold App.totals. cbn [App.byMonth].
  apply Forall_forall. intros e He.
  apply (Permutation_in _ (sort_perm _ _)) in He. apply in_map_iff in He.
  destruct He as ([k e'] & <- & Hin). exact (byMonthMap_nonneg _ Hall k e' Hin).
Qed.

(** X13: the bars of the monthly trend have pairwise distinct
    year-months, there are no more bars than transactions, and when no
    amount is [NaN] the income and the expenses of every bar are
    neither negative nor [NaN]. *)
Theorem byMonth_bars_distinct_and_nonneg
    (localeCompare : string -> string -> comparison) (st : State) :
  let M := App.byMonth (App.totals localeCompare st) in
  NoDup (map App.ym M) /\
  (List.length M <= List.length (transactions st))%nat /\
  (Forall (fun t => JS.isNaN (amount t) = false) (transactions st) ->
   Forall (fun e => nonneg (App.income e) /\ nonneg (App.expenses e)) M).
Proof.
  cbv zeta. unfold App.totals. cbn [App.byMonth].
  set (cmp := fun a b => localeCompare (App.ym a) (App.ym b)).
  pose proof (sort_perm cmp (map snd (App.byMonthMap (transactions st)))) as Hp.
  assert (Hyms : NoDup (map App.ym (map snd (App.byMonthMap (transactions st))))).
  { rewrite (month_keyed_yms _ (byMonthMap_keyed _)). apply byMonthMap_NoDup. }
  split; [|split].
  - apply (Permutation_NoDup (l := map App.ym (map snd (App.byMonthMap (transactions st)))));
      [|exact Hyms].
    apply Permutation_map, Permutation_sym, Hp.
  - rewrite (Permutation_length Hp), length_map.
    rewrite <- (length_map fst), <- (length_map (fun t => JS.slice0 7 (date t)) (transactions st)).
    apply NoDup_incl_length; [apply byMonthMap_NoDup|].
    intros k Hk. apply byMonthMap_keys in Hk. destruct Hk as (_ & t & Ht & <-).
    apply in_map_iff. now exists t.
  - apply (byMonth_bars_nonneg localeCompare st).
Qed.

Lemma byMonth_bars_distinct_and_nonneg_witness :
  Forall (fun e => nonneg (App.income e) /\ nonneg (App.expenses e))
         (App.byMonth (App.totals String.compare three_month_state)).
Proof.
  apply (byMonth_bars_distinct_and_nonneg String.compare three_month_state).
  repeat constructor.
Defined.

(** A [NaN] amount makes the expenses of its month [NaN]. *)
Example byMonth_nan_amount :
  map (fun e => JS.isNaN (App.expenses e))
      (App.byMonth (App.totals String.compare
         (mkState nan_amount_txs [] App.DEFAULT_CATEGORIES EmptyString "All")))
  = [true].
Proof. reflexivity. Qed.

(** ** The monthly target *)

Lemma truthy_not_neg_pos (x : float) :
  JS.truthy_num x = true -> (x <? 0)%float = false -> (0 <? x)%float = true.
Proof. to_spec. spec_cases x. Qed.

Lemma monthly_share_nonneg (x : float) :
  (x <? 0)%float = false -> nonneg (JS.or_num x 0 / 12)%float.
Proof.
  intros H. unfold JS.or_num. destruct (JS.truthy_num x) eqn:Et.
  - apply div12_nonneg. now apply truthy_not_neg_pos.
  - reflexivity.
Qed.

(** X14: when no goal has a negative target, the implied monthly target
    is neither negative nor [NaN], a goal whose target is [0] or [NaN]
    counting as nothing; without goals it is [0]. *)
Theorem monthlyBudgetTarget_nonneg (gs : list Goal) :
  Forall (fun g => (target g <? 0)%float = false) gs ->
  nonneg (monthlyBudgetTarget gs) /\
  (Forall (fun g => JS.truthy_num (target g) = false) gs ->
   monthlyBudgetTarget gs = 0%float).
Proof.
  intros Hall. unfold monthlyBudgetTarget. split.
  - apply (sum_nonneg (fun g => (JS.or_num (target g) 0 / 12)%float));
      [exact zero_nonneg|].
    apply Forall_forall. intros g Hg. apply monthly_share_nonneg.
    rewrite Forall_forall in Hall. now apply Hall.
  - intros Hz. clear Hall. induction Hz as [|g gs Hg _ IH]; [reflexivity|].
    assert (E : (0 + JS.or_num (target g) 0 / 12)%float = 0%float)
      by (unfold JS.or_num; now rewrite Hg).
    cbn [fold_left]. rewrite E. exact IH.
Qed.

Lemma monthlyBudgetTarget_nonneg_witness :
  nonneg (monthlyBudgetTarget three_goals).
Proof.
  apply (monthlyBudgetTarget_nonneg three_goals). repeat constructor.
Defined.

(** ** The transaction form *)

Lemma not_pos_rejected (x : float) :
  (0 <? x)%float = false -> negb (JS.truthy_num x) || (x <=? 0)%float = true.
Proof. to_spec. spec_cases x. Qed.

Lemma pos_accepted (x : float) :
  (0 <? x)%float = true -> negb (JS.truthy_num x) || (x <=? 0)%float = false.
Proof. to_spec. spec_cases x. Qed.

Lemma opp_pos_neg (x : float) : (0 <? x)%float = true -> (- x <? 0)%float = true.
Proof. to_spec. spec_cases x. Qed.

(** X15: the transaction form adds a transaction exactly when the text
    of the amount field stands for a number above zero; otherwise
    ([NaN], zero, a negative number) the ledger and the form stay as
    they are. The transaction added has the fields of the form and the
    amount with the sign of the chosen type: below zero for an expense,
    above zero otherwise. *)
Theorem submit_accepts_amounts_above_zero
    (Number : string -> float) (u : string) (fs : Form.TxForm) (st : State) :
  let amt := Number (Form.form_amount fs) in
  let signed := if String.eqb (Form.form_type fs) "expense" then (- amt)%float else amt in
  ((0 <? amt)%float = false -> Form.submit Number u fs st = (st, fs)) /\
  ((0 <? amt)%float = true ->
   fst (Form.submit Number u fs st)
   = App.set_transactions st
       (mkTransaction u (Form.form_date fs) (Form.form_description fs) signed
                      (Form.form_category fs) :: transactions st) /\
   (if String.eqb (Form.form_type fs) "expense"
    then (signed <? 0)%float else (0 <? signed)%float) = true /\
   Form.form_amount (snd (Form.submit Number u fs st)) = EmptyString /\
   Form.form_type (snd (Form.submit Number u fs st)) = "expense"%string /\
   Form.form_category (snd (Form.submit Number u fs st)) = Form.form_category fs).
Proof.
  cbv zeta. unfold Form.submit. split; intros H.
  - now rewrite (not_pos_rejected _ H).
  - rewrite (pos_accepted _ H), (abs_of_pos _ H). cbn [fst snd].
    repeat split.
    destruct (String.eqb (Form.form_type fs) "expense"); [now apply opp_pos_neg|exact H].
Qed.

Lemma submit_accepts_amounts_above_zero_witness :
  map amount (transactions (fst (Form.submit decimal_Number "t9" sample_form sample_state)))
  = [(-4.5)%float; (-1200)%float; 1500%float].
Proof.
  destruct (submit_accepts_amounts_above_zero decimal_Number "t9" sample_form sample_state)
    as [_ H].
  destruct (H eq_refl) as (E & _). rewrite E. reflexivity.
Defined.

Lemma first_category_ok (st : State) :
  category_ok st (Form.first_category (categories st)).
Proof.
  unfold Form.first_category, category_ok.
  destruct (categories st) as [|c cs]; simpl; [auto|].
  destruct c; simpl; auto.
Qed.

Lemma sync_category_ok (st : State) (fs : Form.TxForm) :
  form_ok st (Form.sync_category (categories st) fs).
Proof.
  unfold form_ok, Form.sync_category.
  destruct (JS.includes (categories st) (Form.form_category fs)) eqn:E; simpl.
  - left. now apply includes_In.
  - apply first_category_ok.
Qed.

Lemma addCategory_grows (nm : string) (st : State) (c : string) :
  In c (categories st) -> In c (categories (App.addCategory nm st)).
Proof.
  intros H. unfold App.addCategory.
  destruct (negb (JS.truthy_str (JS.trim nm))); [exact H|].
  destruct (negb (JS.includes (categories st) (JS.trim nm))); [|exact H].
  simpl. apply in_or_app. now left.
Qed.

Lemma addCategory_has (nm : string) (st : State) :
  JS.truthy_str (JS.trim nm) = true ->
  In (JS.trim nm) (categories (App.addCategory nm st)).
Proof.
  intros H. unfold App.addCategory. rewrite H. simpl.
  destruct (JS.includes (categories st) (JS.trim nm)) eqn:E; simpl.
  - now apply includes_In.
  - apply in_or_app. right. now left.
Qed.

(** X16: the category that the transaction form selects is always one
    of the registry, or the default: the effect that follows a change
    of the registry selects such a category; [addCat] registers the
    trimmed name, selects it, and the effect then leaves it selected;
    and a submission keeps every transaction's category acceptable. *)
Theorem form_category_is_registered
    (Number : string -> float) (u : string) (fs : Form.TxForm) (st : State) :
  form_ok st (Form.sync_category (categories st) fs) /\
  (form_ok st fs ->
   form_ok (fst (Form.addCat fs st)) (snd (Form.addCat fs st)) /\
   (JS.trim (Form.form_newCategory fs) <> EmptyString ->
    In (Form.form_category (snd (Form.addCat fs st)))
       (categories (fst (Form.addCat fs st))) /\
    Form.sync_category (categories (fst (Form.addCat fs st))) (snd (Form.addCat fs st))
    = snd (Form.addCat fs st)) /\
   (categories_registered st ->
    categories_registered (fst (Form.addCat fs st)) /\
    categories_registered (fst (Form.submit Number u fs st)) /\
    form_ok (fst (Form.submit Number u fs st)) (snd (Form.submit Number u fs st)))).
Proof.
  split; [apply sync_category_ok|]. intros Hok.
  unfold Form.addCat.
  destruct (JS.truthy_str (JS.trim (Form.form_newCategory fs))) eqn:Et; cbn [fst snd].
  - pose proof (addCategory_has _ st Et) as Hin. split; [|split].
    + left. exact Hin.
    + intros _. split; [exact Hin|].
      unfold Form.sync_category. cbn [Form.form_category].
      apply includes_In in Hin. now rewrite Hin.
    + intros Hreg. split; [|split].
      * intros t Ht.
        replace (transactions (App.addCategory (Form.form_newCategory fs) st))
          with (transactions st) in Ht
          by (unfold App.addCategory;
              destruct (negb _); [reflexivity|]; destruct (negb _); reflexivity).
        apply (category_ok_grow st); [apply addCategory_grows|now apply Hreg].
      * unfold Form.submit. destruct (_ || _); cbn [fst]; [exact Hreg|].
        intros t [<-|Ht]; [exact Hok|now apply Hreg].
      * unfold Form.submit. destruct (_ || _); cbn [fst snd]; exact Hok.
  - split; [exact Hok|split].
    + intros Hne. apply truthy_str_nonempty in Hne. congruence.
    + intros Hreg. split; [exact Hreg|split].
      * unfold Form.submit. destruct (_ || _); cbn [fst]; [exact Hreg|].
        intros t [<-|Ht]; [exact Hok|now apply Hreg].
      * unfold Form.submit. destruct (_ || _); cbn [fst snd]; exact Hok.
Qed.

Lemma form_category_is_registered_witness :
  categories_registered
    (fst (Form.submit decimal_Number "t9" sample_form sample_state)).
Proof.
  destruct (form_category_is_registered decimal_Number "t9" sample_form sample_state)
    as [_ H].
  assert (Hok : form_ok sample_state sample_form).
  { left. simpl. auto. }
  destruct (H Hok) as (_ & _ & H3).
  apply H3. intros t [<-|[<-|[]]]; left; simpl; auto 12.
Defined.

(** ** The goal form *)

Lemma zero_div_truthy (d : float) :
  JS.truthy_num d = true -> (0 / d = 0 \/ 0 / d = -0)%float.
Proof.
  intros H.
  assert (E : exists s, Prim2SF (0 / d)%float = S754_zero s).
  { revert H. unfold JS.truthy_num.
    rewrite !FloatAxioms.eqb_spec, FloatAxioms.div_spec.
    change (Prim2SF 0) with (S754_zero false). unfold SF64div, SFeqb.
    destruct (Prim2SF d) as [s|s| |s m e]; simpl; try discriminate; eauto. }
  destruct E as [[|] E]; [right|left]; apply Prim2SF_inj; rewrite E; reflexivity.
Qed.

Lemma or_num_one_truthy (x : float) : JS.truthy_num (JS.or_num x 1) = true.
Proof. unfold JS.or_num. destruct (JS.truthy_num x) eqn:E; [exact E|reflexivity]. Qed.

(** A goal with nothing saved shows no progress. *)
Lemma pct_nothing_saved (g : Goal) :
  current g = 0%float -> (pct g =? 0)%float = true.
Proof.
  intros Hc. unfold pct. rewrite Hc.
  change (JS.or_num 0 0) with 0%float.
  destruct (zero_div_truthy _ (or_num_one_truthy (target g))) as [-> | ->];
    reflexivity.
Qed.

(** X17: the goal form adds no goal while the name or the target field
    is empty. Otherwise it adds one goal, in front, with the texts of
    the form, and clears the form; with the field of the amount saved
    left empty the goal starts at [0] and its progress is shown as 0
    percent, whatever number the target text stands for. *)
Theorem submit_goal_blank_fields
    (Number : string -> float) (u : string) (gf : Form.GoalForm) (st : State) :
  (Form.form_name gf = EmptyString \/ Form.form_target gf = EmptyString ->
   Form.submit_goal Number u gf st = (st, gf)) /\
  (Form.form_name gf <> EmptyString -> Form.form_target gf <> EmptyString ->
   exists g,
     Form.submit_goal Number u gf st
     = (App.set_goals st (g :: goals st),
        Form.mkGoalForm EmptyString EmptyString EmptyString EmptyString) /\
     goal_id g = u /\ name g = Form.form_name gf /\
     target g = Number (Form.form_target gf) /\ due g = Form.form_due gf /\
     (Form.form_current gf = EmptyString ->
      current g = 0%float /\ (pct g =? 0)%float = true)).
Proof.
  unfold Form.submit_goal. split.
  - intros [-> | ->]; [reflexivity|]. now rewrite orb_true_r.
  - intros Hn Ht. apply truthy_str_nonempty in Hn, Ht. rewrite Hn, Ht.
    cbn [negb orb]. eexists. split; [reflexivity|]. cbn [goal_id name target due current].
    repeat (split; [reflexivity|]). intros ->. split; [reflexivity|].
    now apply pct_nothing_saved.
Qed.

Lemma submit_goal_blank_fields_witness :
  exists g,
    Form.submit_goal decimal_Number "g9" sample_goal_form sample_state
    = (App.set_goals sample_state (g :: goals sample_state),
       Form.mkGoalForm EmptyString EmptyString EmptyString EmptyString) /\
    (pct g =? 0)%float = true.
Proof.
  destruct (submit_goal_blank_fields decimal_Number "g9" sample_goal_form sample_state)
    as [_ H].
  destruct H as (g & E & _ & _ & _ & _ & Hc); [discriminate|discriminate|].
  exists g. split; [exact E|]. now apply Hc.
Defined.

(** ** The filtered view *)

Lemma filter_comm {A : Type} (p q : A -> bool) (l : list A) :
  filter p (filter q l) = filter q (filter p l).
Proof.
  induction l as [|x l IH]; simpl; [reflexivity|].
  destruct (p x) eqn:Ep, (q x) eqn:Eq; simpl; rewrite ?Ep, ?Eq, IH; reflexivity.
Qed.

Lemma filter_idem {A : Type} (p : A -> bool) (l : list A) :
  filter p (filter p l) = filter p l.
Proof.
  apply filter_id. intros x Hx. now apply filter_In in Hx.
Qed.

(** X18: with the month filter cleared and the category filter on
    [All] the view shows every transaction, whatever the filters were;
    removing a transaction takes it out of the view and leaves the rest
    of the view as it was; and the view of the view is the view. *)
Theorem filteredTx_view (i : string) (st : State) :
  filteredTx (App.setFilterCategory "All" (App.setFilterMonth EmptyString st))
  = transactions st /\
  filteredTx (App.removeTransaction i st)
  = filter (fun t => negb (String.eqb (id t) i)) (filteredTx st) /\
  filteredTx (App.set_transactions st (filteredTx st)) = filteredTx st.
Proof.
  unfold filteredTx. cbn [transactions filterMonth filterCategory
    App.setFilterCategory App.setFilterMonth App.removeTransaction App.set_transactions].
  split; [|split].
  - now apply filter_id.
  - apply filter_comm.
  - apply filter_idem.
Qed.

(** ** The two versions of the import *)

Section Substrings.

Local Open Scope string_scope.


Lemma append_nil_r (a : string) : a ++ EmptyString = a.
Proof. induction a as [|x a IH]; simpl; [reflexivity|]. now rewrite IH. Qed.









End Substrings.










(** ** Amounts of a ledger filled through the form and the import *)

Lemma parseCSV_numbers (uuids : nat -> string) (text : string) :
  Forall (fun t => JS.isNaN (amount t) = false) (App.parseCSV uuids text).
Proof.
  unfold App.parseCSV.
  destruct (JS.filter_Boolean (JS.split_lines text)) as [|first rest]; [constructor|].
  cbv zeta. apply map_with_uuid_Forall. intros u x.
  now destruct (parse_row_ok (App.header_cols first) u x) as [H _].
Qed.

Lemma step_numbers (st : State) (a : App.Action) :
  form_amount_ok a ->
  Forall (fun t => JS.isNaN (amount t) = false) (transactions st) ->
  Forall (fun t => JS.isNaN (amount t) = false) (transactions (App.step st a)).
Proof.
  intros Ha Hst. destruct a as [u tx|i|u g|i|nm|us text|b|m|c]; simpl in *;
    try exact Hst.
  - constructor; [exact Ha|exact Hst].
  - apply Forall_forall. intros t Ht. apply filter_In in Ht.
    rewrite Forall_forall in Hst. now apply Hst.
  - unfold App.addCategory.
    destruct (negb _); [exact Hst|]. destruct (negb _); exact Hst.
  - unfold App.importCSV.
    destruct (JS.filter_Boolean (JS.split_lines text)) eqn:E; [exact Hst|].
    cbn [transactions App.set_transactions]. apply Forall_app. split; [|exact Hst].
    apply parseCSV_numbers.
  - destruct b; [constructor|exact Hst].
Qed.

(** X20: in a ledger filled from a fresh one by any calls, where
    [addTransaction] gets an amount that is a number (as the
    transaction form gives it), every amount is a number, whatever the
    imported files hold; hence no bar of the monthly trend is negative
    or [NaN]. *)
Theorem amounts_stay_numbers
    (localeCompare : string -> string -> comparison)
    (month : string) (l : list App.Action) :
  Forall form_amount_ok l ->
  let st := App.run (App.initial month) l in
  Forall (fun t => JS.isNaN (amount t) = false) (transactions st) /\
  Forall (fun e => nonneg (App.income e) /\ nonneg (App.expenses e))
         (App.byMonth (App.totals localeCompare st)).
Proof.
  intros Hl. cbv zeta.
  assert (H : Forall (fun t => JS.isNaN (amount t) = false)
                (transactions (App.run (App.initial month) l))).
  { assert (H0 : Forall (fun t => JS.isNaN (amount t) = false)
                   (transactions (App.initial month))) by constructor.
    revert H0. generalize (App.initial month). unfold App.run.
    induction Hl as [|a l Ha _ IH]; intros st Hst; simpl; [exact Hst|].
    apply IH. now apply step_numbers. }
  split; [exact H|]. now apply byMonth_bars_nonneg.
Qed.

Lemma amounts_stay_numbers_witness :
  Forall (fun t => JS.isNaN (amount t) = false)
    (transactions
       (App.run (App.initial "2024-01")
          [App.ImportCSV sample_uuids messy_csv;
           App.AddTransaction "t9" sample_fields;
           App.RemoveTransaction "uuid-0"])).
Proof.
  apply (amounts_stay_numbers String.compare "2024-01"
           [App.ImportCSV sample_uuids messy_csv;
            App.AddTransaction "t9" sample_fields;
            App.RemoveTransaction "uuid-0"]).
  repeat constructor.
Defined.
